(** * Energy-contract normalisation pipeline: converters and validator

    A shallow embedding of the JavaScript sources of the repository:
    the three tabular (CSV) converters, the two static-catalog
    converters and the validation script, together with the JavaScript
    primitives they call ([split], [trim], [indexOf], [padStart],
    [parseFloat], [Math.round], IEEE-754 double arithmetic). *)

From Stdlib Require Import ZArith Ascii String List Bool Lia.
From Stdlib Require Import Floats.SpecFloat.
From stdpp Require Import gmap strings list fin_maps pretty.

Local Open Scope string_scope.
Local Open Scope list_scope.

(* ===================================================================== *)
(** * JavaScript primitives *)
(* ===================================================================== *)

(** Strings are sequences of code units; the embedding keeps the code
    units below 256 (type [ascii]). *)

(** ** Exceptions *)

Inductive error : Type :=
| TypeError (msg : string)   (* raised by the runtime *)
| Error (msg : string).      (* [throw new Error(msg)] *)

Inductive outcome (A : Type) : Type :=
| Return (a : A)
| Throw (e : error).
Arguments Return {A} a.
Arguments Throw {A} e.

Definition bind {A B : Type} (x : outcome A) (k : A -> outcome B) : outcome B :=
  match x with
  | Return a => k a
  | Throw e => Throw e
  end.

Notation "'let*' x ':=' c1 'in' c2" := (bind c1 (fun x => c2))
  (at level 10, x name, c1 at level 100, c2 at level 200).

Definition raises {A : Type} (x : outcome A) : Prop := exists e, x = Throw e.

(** A [for] loop whose body may throw: the first exception ends it. *)
Fixpoint forEachM {A S : Type} (body : S -> A -> outcome S) (xs : list A) (s : S)
  : outcome S :=
  match xs with
  | [] => Return s
  | x :: xs' => let* s' := body s x in forEachM body xs' s'
  end.

(** ** Strings *)

(** [s.split(c)] for a one-character separator [c]. *)
Fixpoint split (sep : ascii) (s : string) : list string :=
  match s with
  | EmptyString => [EmptyString]
  | String c s' =>
      if Ascii.eqb c sep then EmptyString :: split sep s'
      else match split sep s' with
           | [] => [String c EmptyString]
           | w :: ws => String c w :: ws
           end
  end.

(** White space and line terminators of ECMAScript among the code units
    below 256: TAB, LF, VT, FF, CR, SPACE, NBSP. *)
Definition isWhiteSpace (c : ascii) : bool :=
  let n := nat_of_ascii c in
  (Nat.leb 9 n && Nat.leb n 13) || Nat.eqb n 32 || Nat.eqb n 160.

Fixpoint trimStart (s : string) : string :=
  match s with
  | EmptyString => EmptyString
  | String c s' => if isWhiteSpace c then trimStart s' else s
  end.

Fixpoint trimEnd (s : string) : string :=
  match s with
  | EmptyString => EmptyString
  | String c s' =>
      match trimEnd s' with
      | EmptyString => if isWhiteSpace c then EmptyString else String c EmptyString
      | t => String c t
      end
  end.

(** [s.trim()] *)
Definition trim (s : string) : string := trimEnd (trimStart s).

(** [s.replace(a, b)] for one-character strings [a] and [b]: only the
    first occurrence is replaced. *)
Fixpoint replace (a b : ascii) (s : string) : string :=
  match s with
  | EmptyString => EmptyString
  | String c s' => if Ascii.eqb c a then String b s' else String c (replace a b s')
  end.

(** [s.padStart(2, "0")] *)
Definition padStart2 (s : string) : string :=
  match String.length s with
  | 0 => "00"
  | 1 => "0" +:+ s
  | _ => s
  end.

(** [arr.indexOf(x)] on an array of strings: the first index, or -1. *)
Fixpoint indexOf (x : string) (arr : list string) : Z :=
  match arr with
  | [] => (-1)%Z
  | y :: arr' =>
      if String.eqb y x then 0%Z
      else let i := indexOf x arr' in
           if (i =? -1)%Z then (-1)%Z else (i + 1)%Z
  end.

(** [arr[i]] for an index [i] that is a non-negative integer or -1:
    [None] is [undefined]. *)
Definition at_index (arr : list string) (i : Z) : option string :=
  if (i <? 0)%Z then None else nth_error arr (Z.to_nat i).

(** Truthiness of a value that is a string or [undefined]. *)
Definition truthy (v : option string) : bool :=
  match v with
  | Some (String _ _) => true
  | _ => false
  end.

(** [`${v}`] for a value that is a string or [undefined]. *)
Definition template (v : option string) : string :=
  match v with
  | Some s => s
  | None => "undefined"
  end.

(** ** Numbers: IEEE-754 binary64 *)

Definition number : Type := spec_float.

Definition prec64 : Z := 53.
Definition emax64 : Z := 1024.

Definition mul64 : number -> number -> number := SFmul prec64 emax64.
Definition div64 : number -> number -> number := SFdiv prec64 emax64.
Definition ltb64 : number -> number -> bool := SFltb.
Definition leb64 : number -> number -> bool := SFleb.

(** The Number value of the integer [n], [negZero] being the sign of
    the result when [n] is 0. *)
Definition numberOfInteger (n : Z) (negZero : bool) : number :=
  binary_normalize prec64 emax64 n 0 negZero.

(** The Number value of an integer literal. *)
Definition num (n : Z) : number := numberOfInteger n false.

(** The Number value (round to nearest, ties to even) of the decimal
    [(-1)^neg * n * 10^e], [0 <= n]. *)
Definition number_of_decimal (neg : bool) (n e : Z) : number :=
  if (n =? 0)%Z then S754_zero neg
  else if (0 <=? e)%Z then
    binary_normalize prec64 emax64 (cond_Zopp neg (n * 10 ^ e)) 0 neg
  else
    let '(q, e', l) := SFdiv_core_binary prec64 emax64 n 0 (10 ^ (- e)) 0 in
    binary_round_aux prec64 emax64 neg q e' l.

Definition isDigit (c : ascii) : bool :=
  let n := nat_of_ascii c in Nat.leb 48 n && Nat.leb n 57.

Definition digitValue (c : ascii) : Z := Z.of_nat (nat_of_ascii c) - 48.

(** Reads the longest run of decimal digits in front of [s]: the value
    accumulated onto [acc], the number of digits read, and the rest. *)
Fixpoint readDigits (s : string) (acc : Z) (count : Z) : Z * Z * string :=
  match s with
  | String c s' =>
      if isDigit c then readDigits s' (10 * acc + digitValue c)%Z (count + 1)%Z
      else (acc, count, s)
  | EmptyString => (acc, count, s)
  end.

(** The optional [ExponentPart] in front of [s]; 0 when there is none. *)
Definition readExponent (s : string) : Z :=
  match s with
  | String c s' =>
      if Ascii.eqb c "e" || Ascii.eqb c "E" then
        match s' with
        | String "+" s'' =>
            let '(v, k, _) := readDigits s'' 0 0 in if (k =? 0)%Z then 0%Z else v
        | String "-" s'' =>
            let '(v, k, _) := readDigits s'' 0 0 in if (k =? 0)%Z then 0%Z else (- v)%Z
        | _ =>
            let '(v, k, _) := readDigits s' 0 0 in if (k =? 0)%Z then 0%Z else v
        end
      else 0%Z
  | EmptyString => 0%Z
  end.

(** What [parseFloat] recognises in front of a string. *)
Inductive literal : Type :=
| NotANumber
| InfinityLiteral (neg : bool)
| DecimalLiteral (neg : bool) (n e : Z).   (* (-1)^neg * n * 10^e *)

Definition parseUnsigned (neg : bool) (s : string) : literal :=
  if String.prefix "Infinity" s then InfinityLiteral neg
  else
    let '(ip, ik, s1) := readDigits s 0 0 in
    let '(m, fk, s2) :=
      match s1 with
      | String "." s1' => readDigits s1' ip 0
      | _ => (ip, 0%Z, s1)
      end in
    if ((ik =? 0) && (fk =? 0))%Z then NotANumber
    else DecimalLiteral neg m (readExponent s2 - fk).

(** The longest prefix of [s], after leading white space, that is a
    [StrDecimalLiteral]. *)
Definition parseLiteral (s : string) : literal :=
  match trimStart s with
  | String "-" s' => parseUnsigned true s'
  | String "+" s' => parseUnsigned false s'
  | s' => parseUnsigned false s'
  end.

(** [parseFloat(s)]: the Number value of that prefix; NaN when there is
    none. *)
Definition parseFloat (s : string) : number :=
  match parseLiteral s with
  | NotANumber => S754_nan
  | InfinityLiteral neg => S754_infinity neg
  | DecimalLiteral neg n e => number_of_decimal neg n e
  end.

(** [Math.round(x)]: the integral Number closest to [x], the one closer
    to +Infinity when two are equally close; NaN, the infinities and the
    zeros are returned as they are, and a result of 0 keeps the sign of
    [x]. A finite double with a non-negative exponent is integral. *)
Definition Math_round (x : number) : number :=
  match x with
  | S754_finite s m e =>
      if (0 <=? e)%Z then x
      else
        let n := ((cond_Zopp s (Z.pos m) + 2 ^ (- e - 1)) / 2 ^ (- e))%Z in
        numberOfInteger n s
  | _ => x
  end.

(** ** [Number::toString]

    What a template literal gives for a number: the shortest decimal
    digits that read back as the number, laid out as ECMAScript's
    Number::toString does (radix 10). *)

(** The positive finite number [m * 2^e] as a fraction [p / q]. *)
Definition fractionOf (m : positive) (e : Z) : Z * Z :=
  if (0 <=? e)%Z then (Z.pos m * 2 ^ e, 1)%Z else (Z.pos m, 2 ^ (- e))%Z.

(** [floor ((p / q) * 10^j)] *)
Definition scaledFloor (p q j : Z) : Z :=
  if (0 <=? j)%Z then ((p * 10 ^ j) / q)%Z else (p / (q * 10 ^ (- j)))%Z.

(** How [(p / q) * 10^j] compares with [s + 1/2]. *)
Definition compareHalf (p q j s : Z) : comparison :=
  if (0 <=? j)%Z then (2 * p * 10 ^ j ?= (2 * s + 1) * q)%Z
  else (2 * p ?= (2 * s + 1) * q * 10 ^ (- j))%Z.

(** The [n] with [10^(n-1) <= p / q < 10^n], searched from [n] upwards. *)
Fixpoint decimalExponent (fuel : nat) (p q n : Z) : Z :=
  match fuel with
  | O => n
  | S fuel' =>
      if (scaledFloor p q (- n) =? 0)%Z then n
      else decimalExponent fuel' p q (n + 1)%Z
  end.

Definition sameFinite (x : number) (m : positive) (e : Z) : bool :=
  match x with
  | S754_finite false m' e' => Pos.eqb m m' && Z.eqb e e'
  | _ => false
  end.

(** The shortest digits: [s], [n] with [k] digits in [s], [k] as small
    as possible, such that the Number value of [s * 10^(n-k)] is
    [m * 2^e]; of two such [s] the one closer to the number, the even
    one when they are as close. *)
Fixpoint shortestDigits (fuel : nat) (m : positive) (e p q n k : Z) : Z * Z :=
  let j := (k - n)%Z in
  let lo := scaledFloor p q j in
  let '(hi, nhi) :=
    if (lo + 1 <? 10 ^ k)%Z then ((lo + 1)%Z, n) else ((10 ^ (k - 1))%Z, (n + 1)%Z) in
  let okLo := sameFinite (number_of_decimal false lo (n - k)) m e in
  let okHi := sameFinite (number_of_decimal false hi (nhi - k)) m e in
  match fuel with
  | O => (lo, n)
  | S fuel' =>
      if okLo && okHi then
        match compareHalf p q j lo with
        | Lt => (lo, n)
        | Gt => (hi, nhi)
        | Eq => if Z.even lo then (lo, n) else (hi, nhi)
        end
      else if okLo then (lo, n)
      else if okHi then (hi, nhi)
      else shortestDigits fuel' m e p q n (k + 1)%Z
  end.

Fixpoint zeros (n : nat) : string :=
  match n with
  | O => ""
  | S n' => String "0" (zeros n')
  end.

(** The digits [s] with the decimal point after the first [n] of them
    (steps 7 to 10 of Number::toString). *)
Definition formatDigits (s n : Z) : string :=
  let digits := pretty s in
  let k := Z.of_nat (String.length digits) in
  if ((k <=? n) && (n <=? 21))%Z then digits +:+ zeros (Z.to_nat (n - k))
  else if ((0 <? n) && (n <=? 21))%Z then
    String.substring 0 (Z.to_nat n) digits +:+ "."
    +:+ String.substring (Z.to_nat n) (Z.to_nat (k - n)) digits
  else if ((-6 <? n) && (n <=? 0))%Z then "0." +:+ zeros (Z.to_nat (- n)) +:+ digits
  else
    let exponent := (if (0 <=? n - 1)%Z then "+" else "-") +:+ pretty (Z.abs (n - 1)) in
    if (k =? 1)%Z then digits +:+ "e" +:+ exponent
    else String.substring 0 1 digits +:+ "."
         +:+ String.substring 1 (Z.to_nat (k - 1)) digits +:+ "e" +:+ exponent.

(** [Number::toString(x)], radix 10: what [`${x}`] gives for a number. *)
Definition Number_toString (x : number) : string :=
  match x with
  | S754_nan => "NaN"
  | S754_zero _ => "0"
  | S754_infinity sg => if sg then "-Infinity" else "Infinity"
  | S754_finite sg m e =>
      let '(p, q) := fractionOf m e in
      let estimate := (((Z.log2 p - Z.log2 q) * 30103) / 100000 - 2)%Z in
      let n := decimalExponent 8 p q estimate in
      let '(s, n') := shortestDigits 17 m e p q n 1 in
      (if sg then "-" else "") +:+ formatDigits s n'
  end.

(* ===================================================================== *)
(** * Data model *)
(* ===================================================================== *)

(** The canonical price record, with the eight fields every converter
    writes. A [None] is JavaScript's [null]. *)
Record PriceObject : Type := {
  contract : string;
  price_type : string;
  currency : string;
  start_date : option string;
  end_date : option string;
  price : number;
  hour_slots : option string;
  day_type : option string;
}.

(** ** Parsed values

    What [JSON.parse] can put in a field: [null], a boolean, a number,
    a string, an array, an object with its own properties. *)
#[warnings="-register-all"] Inductive value : Type :=
| VNull
| VBoolean (b : bool)
| VNumber (x : number)
| VString (s : string)
| VArray (elements : list value)
| VObject (properties : list (string * value)).

(** [typeof v === "number"] *)
Definition isNumber (v : value) : bool :=
  match v with
  | VNumber _ => true
  | _ => false
  end.

(** The [TypeError] of converting an object whose [toString] and
    [valueOf] give no primitive. *)
Definition primitiveError : error :=
  TypeError "Cannot convert object to primitive value".

(** [`${v}`] for a parsed value. An array is joined with [","], its
    [null] elements giving the empty string. An object without an own
    property [toString] gives ["[object Object]"]; with one, which no
    parsed value makes callable, neither [toString] nor [valueOf]
    gives a primitive and the conversion raises. *)
Fixpoint toString (v : value) : outcome string :=
  match v with
  | VNull => Return "null"
  | VBoolean b => Return (if b then "true" else "false")
  | VNumber x => Return (Number_toString x)
  | VString s => Return s
  | VArray elements =>
      (fix join (vs : list value) : outcome string :=
         match vs with
         | [] => Return ""
         | v' :: vs' =>
             let* first := match v' with
                           | VNull => Return ""
                           | _ => toString v'
                           end in
             match vs' with
             | [] => Return first
             | _ => let* rest := join vs' in Return (first +:+ "," +:+ rest)
             end
         end) elements
  | VObject properties =>
      if existsb (fun kv => String.eqb (fst kv) "toString") properties
      then Throw primitiveError
      else Return "[object Object]"
  end.

(** A price object as the validator may find it in the parsed
    document: its price is any parsed value; its other fields have the
    types of [PriceObject]. *)
Module Parsed.
Record PriceObject : Type := {
  contract : string;
  price_type : string;
  currency : string;
  start_date : option string;
  end_date : option string;
  price : value;
  hour_slots : option string;
  day_type : option string;
}.
End Parsed.

(** The record [p] with the parsed value [v] as its price. *)
Definition withValue (p : PriceObject) (v : value) : Parsed.PriceObject :=
  {| Parsed.contract := contract p; Parsed.price_type := price_type p;
     Parsed.currency := currency p; Parsed.start_date := start_date p;
     Parsed.end_date := end_date p; Parsed.price := v;
     Parsed.hour_slots := hour_slots p; Parsed.day_type := day_type p |}.

(** A record a converter has written, as the validator finds it: its
    price is a number. *)
Definition parsedOf (p : PriceObject) : Parsed.PriceObject :=
  withValue p (VNumber (price p)).
Coercion parsedOf : PriceObject >-> Parsed.PriceObject.

(** ** The [result] object of a tabular converter

    [result] is created by [{}] and used as a map from the power level
    to an array of records. Its own properties are a [gmap]; reading a
    key that is not an own property finds the property of that name on
    [Object.prototype], when there is one. *)

Definition objectPrototypeKeys : list string :=
  [ "constructor"; "__defineGetter__"; "__defineSetter__"; "hasOwnProperty";
    "__lookupGetter__"; "__lookupSetter__"; "isPrototypeOf";
    "propertyIsEnumerable"; "toString"; "valueOf"; "__proto__";
    "toLocaleString" ].

Definition inherited (k : string) : bool :=
  existsb (String.eqb k) objectPrototypeKeys.

(** The [TypeError] of calling [push] on a value that has none. *)
Definition pushError : error :=
  TypeError "result[subscribedPower].push is not a function".

(** [if (!result[k]) { result[k] = []; }]: an own array and an inherited
    property are both truthy. *)
Definition initGroup (result : gmap string (list PriceObject)) (k : string)
  : gmap string (list PriceObject) :=
  match result !! k with
  | Some _ => result
  | None => if inherited k then result else <[k := []]> result
  end.

(** [result[k].push(...objs)]: the inherited properties have no [push],
    so that only an own property, an array, can be pushed onto. *)
Definition pushGroup (result : gmap string (list PriceObject)) (k : string)
    (objs : list PriceObject) : outcome (gmap string (list PriceObject)) :=
  match result !! k with
  | Some arr => Return (<[k := arr ++ objs]> result)
  | None => Throw pushError
  end.

(* ===================================================================== *)
(** * Tabular converters *)
(* ===================================================================== *)

(** The three converters repeat the same helper and the same parsing
    expressions; they are written once here. *)

(** The [TypeError] of reading [padStart] on [undefined]. *)
Definition padStartError : error :=
  TypeError "Cannot read properties of undefined (reading 'padStart')".

(** [convertToIsoDate(dateStr)] (identical in the three files). The
    argument is a string or [undefined]; the destructuring
    [[day, month, year] = dateStr.split("/")] leaves [month] and [year]
    [undefined] when the array is too short, and calling [padStart] on
    [undefined] raises a [TypeError]. *)
Definition convertToIsoDate (dateStr : option string) : outcome (option string) :=
  match dateStr with
  | Some (String c s0 as s) =>
      let parts := split "/" s in
      let day := nth_error parts 0 in
      let month := nth_error parts 1 in
      let year := nth_error parts 2 in
      match month, day with
      | Some month, Some day =>
          Return (Some (template year +:+ "-" +:+ padStart2 month +:+ "-" +:+ padStart2 day))
      | _, _ => Throw padStartError
      end
  | _ => Return None
  end.

(** [endDate ? convertToIsoDate(endDate) : null] *)
Definition convertEndDate (endDate : option string) : outcome (option string) :=
  if truthy endDate then convertToIsoDate endDate else Return None.

(** [csvContent.trim().split("\n")] *)
Definition csvLines (csvContent : string) : list string :=
  split "010" (trim csvContent).

(** [lines[0].split(";").map((header) => header.trim())] *)
Definition csvHeaders (lines : list string) : list string :=
  match lines with
  | [] => []
  | l0 :: _ => map trim (split ";" l0)
  end.

(** [Math.round(parseFloat(s.replace(",", ".")) * 10000)] *)
Definition scaledPrice (s : string) : number :=
  Math_round (mul64 (parseFloat (replace "," "." s)) (num 10000)).

(** [Math.round((parseFloat(s.replace(",", ".")) / 12) * 10000)] *)
Definition monthlyPrice (s : string) : number :=
  Math_round (mul64 (div64 (parseFloat (replace "," "." s)) (num 12)) (num 10000)).

Definition requiredColumnsError : error :=
  Error "Required columns not found in CSV".

(** Reading a column the row-completeness test has found truthy. *)
Definition str (v : option string) : string :=
  match v with
  | Some s => s
  | None => ""
  end.

(** ** Flat-rate converter ([Option_Base.csv]; source
       [unnamed/part_001]) *)
Module FlatRate.

Record indices : Type := {
  dateDebutIndex : Z;
  dateFinIndex : Z;
  pSouscriteIndex : Z;
  partVariableTtcIndex : Z;
  partFixeTtcIndex : Z;
}.

Definition findIndices (headers : list string) : indices :=
  {| dateDebutIndex := indexOf "DATE_DEBUT" headers;
     dateFinIndex := indexOf "DATE_FIN" headers;
     pSouscriteIndex := indexOf "P_SOUSCRITE" headers;
     partVariableTtcIndex := indexOf "PART_VARIABLE_TTC" headers;
     partFixeTtcIndex := indexOf "PART_FIXE_TTC" headers |}.

Definition missingColumn (ix : indices) : bool :=
  (dateDebutIndex ix =? -1)%Z || (dateFinIndex ix =? -1)%Z
  || (pSouscriteIndex ix =? -1)%Z || (partVariableTtcIndex ix =? -1)%Z
  || (partFixeTtcIndex ix =? -1)%Z.

(** The records built from one complete row. *)
Definition consumptionPriceObject (startDateIso endDateIso : option string)
    (price : number) : PriceObject :=
  {| contract := "base"; price_type := "consumption"; currency := "euro";
     start_date := startDateIso; end_date := endDateIso; price := price;
     hour_slots := None; day_type := None |}.

Definition subscriptionPriceObject (startDateIso endDateIso : option string)
    (subscriptionPrice : number) : PriceObject :=
  {| contract := "base"; price_type := "subscription"; currency := "euro";
     start_date := startDateIso; end_date := endDateIso;
     price := subscriptionPrice; hour_slots := None; day_type := None |}.

(** The body of the [for] loop over the data lines. *)
Definition processLine (ix : indices) (result : gmap string (list PriceObject))
    (rawLine : string) : outcome (gmap string (list PriceObject)) :=
  let line := trim rawLine in
  if String.eqb line "" then Return result
  else
    let columns := split ";" line in
    let subscribedPower := at_index columns (pSouscriteIndex ix) in
    let startDate := at_index columns (dateDebutIndex ix) in
    let endDate := at_index columns (dateFinIndex ix) in
    let priceStr := at_index columns (partVariableTtcIndex ix) in
    let subscriptionPriceStr := at_index columns (partFixeTtcIndex ix) in
    if negb (truthy subscribedPower) || negb (truthy startDate)
       || negb (truthy priceStr) || negb (truthy subscriptionPriceStr)
    then Return result
    else
      let price := scaledPrice (str priceStr) in
      let subscriptionPrice := monthlyPrice (str subscriptionPriceStr) in
      let* startDateIso := convertToIsoDate startDate in
      let* endDateIso := convertEndDate endDate in
      let result := initGroup result (str subscribedPower) in
      let* result := pushGroup result (str subscribedPower)
                       [consumptionPriceObject startDateIso endDateIso price] in
      pushGroup result (str subscribedPower)
        [subscriptionPriceObject startDateIso endDateIso subscriptionPrice].

Definition processBaseOptions (csvContent : string)
  : outcome (gmap string (list PriceObject)) :=
  let lines := csvLines csvContent in
  let ix := findIndices (csvHeaders lines) in
  if missingColumn ix then Throw requiredColumnsError
  else forEachM (processLine ix) (tl lines) ∅.

End FlatRate.

(** ** Dual-rate converter ([Option_HPHC.csv]; source
       [contracts/electricite-de-strasbourg/peak-off-peak-tarif-bleu/convert.js]) *)
Module DualRate.

Record indices : Type := {
  dateDebutIndex : Z;
  dateFinIndex : Z;
  pSouscriteIndex : Z;
  partVariableHcTtcIndex : Z;
  partVariableHpTtcIndex : Z;
  partFixeTtcIndex : Z;
}.

Definition findIndices (headers : list string) : indices :=
  {| dateDebutIndex := indexOf "DATE_DEBUT" headers;
     dateFinIndex := indexOf "DATE_FIN" headers;
     pSouscriteIndex := indexOf "P_SOUSCRITE" headers;
     partVariableHcTtcIndex := indexOf "PART_VARIABLE_HC_TTC" headers;
     partVariableHpTtcIndex := indexOf "PART_VARIABLE_HP_TTC" headers;
     partFixeTtcIndex := indexOf "PART_FIXE_TTC" headers |}.

Definition missingColumn (ix : indices) : bool :=
  (dateDebutIndex ix =? -1)%Z || (dateFinIndex ix =? -1)%Z
  || (pSouscriteIndex ix =? -1)%Z || (partVariableHcTtcIndex ix =? -1)%Z
  || (partVariableHpTtcIndex ix =? -1)%Z || (partFixeTtcIndex ix =? -1)%Z.

Definition offPeakPriceObject (startDateIso endDateIso : option string)
    (offPeakPrice : number) : PriceObject :=
  {| contract := "peak-off-peak"; price_type := "consumption"; currency := "euro";
     start_date := startDateIso; end_date := endDateIso; price := offPeakPrice;
     hour_slots := Some "TO_REPLACE_OFF_PEAK"; day_type := None |}.

Definition peakPriceObject (startDateIso endDateIso : option string)
    (peakPrice : number) : PriceObject :=
  {| contract := "peak-off-peak"; price_type := "consumption"; currency := "euro";
     start_date := startDateIso; end_date := endDateIso; price := peakPrice;
     hour_slots := Some "TO_REPLACE_PEAK"; day_type := None |}.

Definition subscriptionPriceObject (startDateIso endDateIso : option string)
    (subscriptionPrice : number) : PriceObject :=
  {| contract := "peak-off-peak"; price_type := "subscription"; currency := "euro";
     start_date := startDateIso; end_date := endDateIso;
     price := subscriptionPrice; hour_slots := None; day_type := None |}.

Definition processLine (ix : indices) (result : gmap string (list PriceObject))
    (rawLine : string) : outcome (gmap string (list PriceObject)) :=
  let line := trim rawLine in
  if String.eqb line "" then Return result
  else
    let columns := split ";" line in
    let subscribedPower := at_index columns (pSouscriteIndex ix) in
    let startDate := at_index columns (dateDebutIndex ix) in
    let endDate := at_index columns (dateFinIndex ix) in
    let offPeakPriceStr := at_index columns (partVariableHcTtcIndex ix) in
    let peakPriceStr := at_index columns (partVariableHpTtcIndex ix) in
    let subscriptionPriceStr := at_index columns (partFixeTtcIndex ix) in
    if negb (truthy subscribedPower) || negb (truthy startDate)
       || negb (truthy offPeakPriceStr) || negb (truthy peakPriceStr)
       || negb (truthy subscriptionPriceStr)
    then Return result
    else
      let offPeakPrice := scaledPrice (str offPeakPriceStr) in
      let peakPrice := scaledPrice (str peakPriceStr) in
      let subscriptionPrice := monthlyPrice (str subscriptionPriceStr) in
      let* startDateIso := convertToIsoDate startDate in
      let* endDateIso := convertEndDate endDate in
      let result := initGroup result (str subscribedPower) in
      let* result := pushGroup result (str subscribedPower)
                       [offPeakPriceObject startDateIso endDateIso offPeakPrice] in
      let* result := pushGroup result (str subscribedPower)
                       [peakPriceObject startDateIso endDateIso peakPrice] in
      pushGroup result (str subscribedPower)
        [subscriptionPriceObject startDateIso endDateIso subscriptionPrice].

Definition processPeakOffPeakOptions (csvContent : string)
  : outcome (gmap string (list PriceObject)) :=
  let lines := csvLines csvContent in
  let ix := findIndices (csvHeaders lines) in
  if missingColumn ix then Throw requiredColumnsError
  else forEachM (processLine ix) (tl lines) ∅.

End DualRate.

(** ** Calendar-tiered converter ([Option_Tempo.csv]; source: the
       second file of [contracts/alpiq/base/convert.js]) *)
Module Tempo.

Definition offPeakSlots : string :=
  "00:00,00:30,01:00,01:30,02:00,02:30,03:00,03:30,04:00,04:30,05:00,05:30,22:00,22:30,23:00,23:30".
Definition peakSlots : string :=
  "06:00,06:30,07:00,07:30,08:00,08:30,09:00,09:30,10:00,10:30,11:00,11:30,12:00,12:30,13:00,13:30,14:00,14:30,15:00,15:30,16:00,16:30,17:00,17:30,18:00,18:30,19:00,19:30,20:00,20:30,21:00,21:30".

Record indices : Type := {
  dateDebutIndex : Z;
  dateFinIndex : Z;
  pSouscriteIndex : Z;
  partVariableHcBleuTtcIndex : Z;
  partVariableHpBleuTtcIndex : Z;
  partVariableHcBlancTtcIndex : Z;
  partVariableHpBlancTtcIndex : Z;
  partVariableHcRougeTtcIndex : Z;
  partVariableHpRougeTtcIndex : Z;
  partFixeTtcIndex : Z;
}.

Definition findIndices (headers : list string) : indices :=
  {| dateDebutIndex := indexOf "DATE_DEBUT" headers;
     dateFinIndex := indexOf "DATE_FIN" headers;
     pSouscriteIndex := indexOf "P_SOUSCRITE" headers;
     partVariableHcBleuTtcIndex := indexOf "PART_VARIABLE_HCBleu_TTC" headers;
     partVariableHpBleuTtcIndex := indexOf "PART_VARIABLE_HPBleu_TTC" headers;
     partVariableHcBlancTtcIndex := indexOf "PART_VARIABLE_HCBlanc_TTC" headers;
     partVariableHpBlancTtcIndex := indexOf "PART_VARIABLE_HPBlanc_TTC" headers;
     partVariableHcRougeTtcIndex := indexOf "PART_VARIABLE_HCRouge_TTC" headers;
     partVariableHpRougeTtcIndex := indexOf "PART_VARIABLE_HPRouge_TTC" headers;
     partFixeTtcIndex := indexOf "PART_FIXE_TTC" headers |}.

Definition missingColumn (ix : indices) : bool :=
  (dateDebutIndex ix =? -1)%Z || (dateFinIndex ix =? -1)%Z
  || (pSouscriteIndex ix =? -1)%Z
  || (partVariableHcBleuTtcIndex ix =? -1)%Z
  || (partVariableHpBleuTtcIndex ix =? -1)%Z
  || (partVariableHcBlancTtcIndex ix =? -1)%Z
  || (partVariableHpBlancTtcIndex ix =? -1)%Z
  || (partVariableHcRougeTtcIndex ix =? -1)%Z
  || (partVariableHpRougeTtcIndex ix =? -1)%Z
  || (partFixeTtcIndex ix =? -1)%Z.

(** One of the six consumption literals of [priceObjects]. *)
Definition consumptionObject (startDateIso endDateIso : option string)
    (price : number) (slots dayType : string) : PriceObject :=
  {| contract := "tempo"; price_type := "consumption"; currency := "euro";
     start_date := startDateIso; end_date := endDateIso; price := price;
     hour_slots := Some slots; day_type := Some dayType |}.

(** The last literal of [priceObjects]. *)
Definition subscriptionObject (startDateIso endDateIso : option string)
    (subscriptionPrice : number) : PriceObject :=
  {| contract := "es-tempo"; price_type := "subscription"; currency := "euro";
     start_date := startDateIso; end_date := endDateIso;
     price := subscriptionPrice; hour_slots := None; day_type := None |}.

Definition priceObjects (startDateIso endDateIso : option string)
    (blueOffPeakPrice bluePeakPrice whiteOffPeakPrice whitePeakPrice
     redOffPeakPrice redPeakPrice subscriptionPrice : number)
  : list PriceObject :=
  [ consumptionObject startDateIso endDateIso blueOffPeakPrice offPeakSlots "blue";
    consumptionObject startDateIso endDateIso bluePeakPrice peakSlots "blue";
    consumptionObject startDateIso endDateIso whiteOffPeakPrice offPeakSlots "white";
    consumptionObject startDateIso endDateIso whitePeakPrice peakSlots "white";
    consumptionObject startDateIso endDateIso redOffPeakPrice offPeakSlots "red";
    consumptionObject startDateIso endDateIso redPeakPrice peakSlots "red";
    subscriptionObject startDateIso endDateIso subscriptionPrice ].

Definition processLine (ix : indices) (result : gmap string (list PriceObject))
    (rawLine : string) : outcome (gmap string (list PriceObject)) :=
  let line := trim rawLine in
  if String.eqb line "" then Return result
  else
    let columns := split ";" line in
    let subscribedPower := at_index columns (pSouscriteIndex ix) in
    let startDate := at_index columns (dateDebutIndex ix) in
    let endDate := at_index columns (dateFinIndex ix) in
    let blueOffPeakStr := at_index columns (partVariableHcBleuTtcIndex ix) in
    let bluePeakStr := at_index columns (partVariableHpBleuTtcIndex ix) in
    let whiteOffPeakStr := at_index columns (partVariableHcBlancTtcIndex ix) in
    let whitePeakStr := at_index columns (partVariableHpBlancTtcIndex ix) in
    let redOffPeakStr := at_index columns (partVariableHcRougeTtcIndex ix) in
    let redPeakStr := at_index columns (partVariableHpRougeTtcIndex ix) in
    let subscriptionPriceStr := at_index columns (partFixeTtcIndex ix) in
    if negb (truthy subscribedPower) || negb (truthy startDate)
       || negb (truthy blueOffPeakStr) || negb (truthy bluePeakStr)
       || negb (truthy whiteOffPeakStr) || negb (truthy whitePeakStr)
       || negb (truthy redOffPeakStr) || negb (truthy redPeakStr)
       || negb (truthy subscriptionPriceStr)
    then Return result
    else
      let blueOffPeakPrice := scaledPrice (str blueOffPeakStr) in
      let bluePeakPrice := scaledPrice (str bluePeakStr) in
      let whiteOffPeakPrice := scaledPrice (str whiteOffPeakStr) in
      let whitePeakPrice := scaledPrice (str whitePeakStr) in
      let redOffPeakPrice := scaledPrice (str redOffPeakStr) in
      let redPeakPrice := scaledPrice (str redPeakStr) in
      let subscriptionPrice := monthlyPrice (str subscriptionPriceStr) in
      let* startDateIso := convertToIsoDate startDate in
      let* endDateIso := convertEndDate endDate in
      let result := initGroup result (str subscribedPower) in
      pushGroup result (str subscribedPower)
        (priceObjects startDateIso endDateIso blueOffPeakPrice bluePeakPrice
           whiteOffPeakPrice whitePeakPrice redOffPeakPrice redPeakPrice
           subscriptionPrice).

Definition processTempoOptions (csvContent : string)
  : outcome (gmap string (list PriceObject)) :=
  let lines := csvLines csvContent in
  let ix := findIndices (csvHeaders lines) in
  if missingColumn ix then Throw requiredColumnsError
  else forEachM (processLine ix) (tl lines) ∅.

End Tempo.

(* ===================================================================== *)
(** * Static-catalog converters *)
(* ===================================================================== *)

(** The catalog converters copy objects and build arrays that a caller
    may later mutate, so objects and arrays live in a store and are
    named by their location. [Obj] is the content of a record object:
    its own enumerable properties with their values. *)

Record heap (Obj : Type) : Type := {
  objects : list Obj;          (* record objects, by location *)
  arrays : list (list nat);    (* arrays of references to record objects *)
}.
Arguments objects {Obj} h.
Arguments arrays {Obj} h.

Section Store.
Context {Obj : Type}.
(** The object [{}]. *)
Variable emptyObject : Obj.

(** Allocation of a new object, of a new array. *)
Definition newObject (h : heap Obj) (o : Obj) : nat * heap Obj :=
  (length (objects h), {| objects := objects h ++ [o]; arrays := arrays h |}).

Definition newArray (h : heap Obj) (a : list nat) : nat * heap Obj :=
  (length (arrays h), {| objects := objects h; arrays := arrays h ++ [a] |}).

(** Reading the properties of the object at [l]; a reference to
    nothing reads as [undefined], whose spread is [{}]. *)
Definition readObject (h : heap Obj) (l : nat) : Obj :=
  default emptyObject (objects h !! l).

Definition readArray (h : heap Obj) (a : nat) : list nat :=
  default [] (arrays h !! a).

(** The records of the array at [a], as serialisation sees them. *)
Definition records (h : heap Obj) (a : nat) : list Obj :=
  map (readObject h) (readArray h a).

(** Mutations a caller can apply to what a converter returned:
    assigning the properties of a record, replacing the elements of
    an array (which covers [push], [pop], [splice] and index
    assignment). *)
Definition writeObject (h : heap Obj) (l : nat) (o : Obj) : heap Obj :=
  {| objects := <[l := o]> (objects h); arrays := arrays h |}.

Definition writeArray (h : heap Obj) (a : nat) (elems : list nat) : heap Obj :=
  {| objects := objects h; arrays := <[a := elems]> (arrays h) |}.

(** [entries.map((priceEntry) => ({ ...priceEntry }))], without the
    allocation of the resulting array: the references to the copies.
    The spread copies the properties of the entry into a new object; a
    property value is copied as it is. *)
Fixpoint copyEntries (h : heap Obj) (entries : list nat) : list nat * heap Obj :=
  match entries with
  | [] => ([], h)
  | l :: entries' =>
      let '(l', h1) := newObject h (readObject h l) in
      let '(ls, h2) := copyEntries h1 entries' in
      (l' :: ls, h2)
  end.

(** [result[power] = value] on an object created by [{}]: the key
    [__proto__] reaches the setter of [Object.prototype] and creates
    no own property. *)
Definition setProperty (result : gmap string nat) (power : string) (value : nat)
  : gmap string nat :=
  if String.eqb power "__proto__" then result else <[power := value]> result.

End Store.

(** ** Catalog with a subscription table ([contract.json],
       [subscription.json]; source [unnamed/part_000]) *)
Module Catalog.
Section Converter.
Context {Obj : Type}.
Variable emptyObject : Obj.

(** [subscriptionData[power]] on the parsed subscription table, whose
    own properties are listed in the order of [Object.keys]; a value
    is an array or [null]. *)
Fixpoint property (data : list (string * option nat)) (power : string)
  : option nat :=
  match data with
  | [] => None
  | (k, v) :: data' => if String.eqb k power then v else property data' power
  end.

(** The callback of [subscribedPowers.forEach]. *)
Definition forEachPower (contractData : nat)
    (subscriptionData : list (string * option nat))
    (st : gmap string nat * heap Obj) (power : string)
  : gmap string nat * heap Obj :=
  let '(result, h) := st in
  let '(copies, h1) := copyEntries emptyObject h (readArray h contractData) in
  let '(consumptionPrices, h2) := newArray h1 copies in
  let '(subscriptionPrices, h3) :=
    match property subscriptionData power with
    | Some a => (a, h2)
    | None => newArray h2 []     (* [subscriptionData[power] || []] *)
    end in
  let '(arr, h4) :=
    newArray h3 (readArray h3 consumptionPrices
                 ++ readArray h3 subscriptionPrices) in
  (setProperty result power arr, h4).

(** [processBaseOptions], from the two parsed documents: the array
    [contractData] and the object [subscriptionData]. *)
Definition processBaseOptions (h : heap Obj) (contractData : nat)
    (subscriptionData : list (string * option nat))
  : gmap string nat * heap Obj :=
  let subscribedPowers := map fst subscriptionData in
  fold_left (forEachPower contractData subscriptionData)
    subscribedPowers (∅, h).

End Converter.
End Catalog.

(** ** Catalog with the fixed list of power levels ([contract.json];
       source: the first file of [contracts/alpiq/base/convert.js]) *)
Module FixedCatalog.
Section Converter.
Context {Obj : Type}.
Variable emptyObject : Obj.

Definition subscribedPowers : list string :=
  [ "3"; "4"; "5"; "6"; "7"; "8"; "9"; "10"; "11"; "12"; "13"; "14"; "15";
    "16"; "17"; "18"; "19"; "20"; "21"; "22"; "23"; "24"; "25"; "26"; "27";
    "28"; "29"; "30"; "31"; "32"; "33"; "34"; "35"; "36" ].

(** The callback of [subscribedPowers.forEach]. *)
Definition forEachPower (contractData : nat)
    (st : gmap string nat * heap Obj) (power : string)
  : gmap string nat * heap Obj :=
  let '(result, h) := st in
  let '(copies, h1) := copyEntries emptyObject h (readArray h contractData) in
  let '(arr, h2) := newArray h1 copies in
  (setProperty result power arr, h2).

(** [processBaseOptions], from the parsed array [contractData]. *)
Definition processBaseOptions (h : heap Obj) (contractData : nat)
  : gmap string nat * heap Obj :=
  fold_left (forEachPower contractData) subscribedPowers (∅, h).

End Converter.
End FixedCatalog.

(* ===================================================================== *)
(** * Validator (the test script; source [unnamed/part_002]) *)
(* ===================================================================== *)

Module Validator.

(** [`${v}`] for a value that is a string or [null]. *)
Definition show (v : option string) : string :=
  match v with
  | Some s => s
  | None => "null"
  end.

(** [arr.includes(x)] on an array of strings. *)
Definition includes (arr : list string) (x : string) : bool :=
  existsb (String.eqb x) arr.

(** [/^\d{4}-\d{2}-\d{2}$/.test(s)] *)
Definition dateRegex_test (s : string) : bool :=
  match list_ascii_of_string s with
  | [y1; y2; y3; y4; d1; m1; m2; d2; a1; a2] =>
      isDigit y1 && isDigit y2 && isDigit y3 && isDigit y4
      && Ascii.eqb d1 "-" && isDigit m1 && isDigit m2
      && Ascii.eqb d2 "-" && isDigit a1 && isDigit a2
  | _ => false
  end.

Definition validContracts : list string := ["base"; "peak-off-peak"; "edf-tempo"].

(** [validatePriceObject(priceObj, contractType)]. The presence tests
    and the [typeof] test on the contract hold by the type of
    [Parsed.PriceObject]; the price is any parsed value. *)
Definition validatePriceObject (priceObj : Parsed.PriceObject) (contractType : string)
  : outcome bool :=
  if negb (includes validContracts (Parsed.contract priceObj)) then
    Throw (Error ("Invalid contract value in " +:+ contractType
                  +:+ ": expected one of 'base', 'peak-off-peak', 'edf-tempo', got '"
                  +:+ Parsed.contract priceObj +:+ "'"))
  else if negb (includes ["consumption"; "subscription"]
                  (Parsed.price_type priceObj)) then
    Throw (Error ("Invalid price_type in " +:+ contractType
                  +:+ ": expected 'consumption' or 'subscription', got '"
                  +:+ Parsed.price_type priceObj +:+ "'"))
  else if negb (String.eqb (Parsed.currency priceObj) "euro") then
    Throw (Error ("Invalid currency in " +:+ contractType
                  +:+ ": expected 'euro', got '" +:+ Parsed.currency priceObj +:+ "'"))
  else if match Parsed.price priceObj with
          | VNumber x => ltb64 x (num 0)
          | _ => true     (* [typeof priceObj.price !== "number"] *)
          end then
    let* shown := toString (Parsed.price priceObj) in
    Throw (Error ("Invalid price in " +:+ contractType
                  +:+ ": expected positive number, got " +:+ shown))
  else if negb (dateRegex_test (show (Parsed.start_date priceObj))) then
    Throw (Error ("Invalid start_date format in " +:+ contractType
                  +:+ ": expected YYYY-MM-DD, got '"
                  +:+ show (Parsed.start_date priceObj) +:+ "'"))
  else if truthy (Parsed.end_date priceObj)
          && negb (dateRegex_test (show (Parsed.end_date priceObj))) then
    Throw (Error ("Invalid end_date format in " +:+ contractType
                  +:+ ": expected YYYY-MM-DD or null, got '"
                  +:+ show (Parsed.end_date priceObj) +:+ "'"))
  else Return true.

Definition isConsumption (p : PriceObject) : bool :=
  String.eqb (price_type p) "consumption".
Definition isSubscription (p : PriceObject) : bool :=
  String.eqb (price_type p) "subscription".

(** The body of the loop over the subscription prices. *)
Definition checkSubscription (contractType : string) (p : PriceObject)
  : outcome unit :=
  match hour_slots p with
  | Some hs =>
      Throw (Error ("Subscription price in " +:+ contractType
                    +:+ " should have hour_slots = null, got '" +:+ hs +:+ "'"))
  | None =>
      match day_type p with
      | Some dt =>
          Throw (Error ("Subscription price in " +:+ contractType
                        +:+ " should have day_type = null, got '" +:+ dt +:+ "'"))
      | None =>
          if leb64 (price p) (num 0) then
            Throw (Error ("Subscription price in " +:+ contractType
                          +:+ " should be positive, got "
                          +:+ Number_toString (price p)))
          else Return tt
      end
  end.

(** The body of the loop over the consumption prices: the [switch] on
    the contract type. *)
Definition checkConsumption (contractType : string) (p : PriceObject)
  : outcome unit :=
  if String.eqb contractType "edf-base" then
    match hour_slots p, day_type p with
    | Some hs, _ =>
        Throw (Error ("Base contract consumption should have hour_slots = null, got '"
                      +:+ hs +:+ "'"))
    | None, Some dt =>
        Throw (Error ("Base contract consumption should have day_type = null, got '"
                      +:+ dt +:+ "'"))
    | None, None => Return tt
    end
  else if String.eqb contractType "edf-peak-off-peak" then
    if negb (match hour_slots p with
             | Some hs => includes ["TO_REPLACE_PEAK"; "TO_REPLACE_OFF_PEAK"] hs
             | None => false
             end) then
      Throw (Error ("Peak-off-peak contract consumption should have hour_slots as 'TO_REPLACE_PEAK' or 'TO_REPLACE_OFF_PEAK', got '"
                    +:+ show (hour_slots p) +:+ "'"))
    else match day_type p with
         | Some dt =>
             Throw (Error ("Peak-off-peak contract consumption should have day_type = null, got '"
                           +:+ dt +:+ "'"))
         | None => Return tt
         end
  else if String.eqb contractType "edf-tempo" then
    if negb (match day_type p with
             | Some dt => includes ["blue"; "white"; "red"] dt
             | None => false
             end) then
      Throw (Error ("Tempo contract consumption should have day_type as 'blue', 'white', or 'red', got '"
                    +:+ show (day_type p) +:+ "'"))
    else if negb (truthy (hour_slots p)) then
      Throw (Error ("Tempo contract consumption should have hour_slots as non-empty string, got '"
                    +:+ show (hour_slots p) +:+ "'"))
    else Return tt
  else Return tt.

(** A loop that only checks. *)
Definition checkAll {A : Type} (check : A -> outcome unit) (xs : list A)
  : outcome unit :=
  forEachM (fun _ x => check x) xs tt.

(** [validateContractSpecificRequirements(prices, contractType)] *)
Definition validateContractSpecificRequirements (prices : list PriceObject)
    (contractType : string) : outcome unit :=
  let consumptionPrices := List.filter isConsumption prices in
  let subscriptionPrices := List.filter isSubscription prices in
  if Nat.eqb (length subscriptionPrices) 0 then
    Throw (Error (contractType +:+ " must have at least one subscription price"))
  else
    let* _ := checkAll (checkSubscription contractType) subscriptionPrices in
    checkAll (checkConsumption contractType) consumptionPrices.

Definition message (e : error) : string :=
  match e with
  | TypeError msg => msg
  | Error msg => msg
  end.

(** The parsed [contracts.json]: the own properties of each object in
    the order of [Object.keys]. *)
Definition contracts : Type := list (string * list (string * list PriceObject)).

(** The loop [for (let i = 0; i < prices.length; i++)] of step 5, from
    index [i] on. *)
Fixpoint validatePrices (contractType power : string) (i : nat)
    (prices : list PriceObject) : outcome unit :=
  match prices with
  | [] => Return tt
  | p :: prices' =>
      let label := contractType +:+ "[" +:+ power +:+ "][" +:+ pretty i +:+ "]" in
      match validatePriceObject p label with
      | Throw e =>
          Throw (Error ("Price validation failed for " +:+ label +:+ ": "
                        +:+ message e))
      | Return _ => validatePrices contractType power (S i) prices'
      end
  end.

(** Step 5, for one power level of one contract type. *)
Definition validatePower (contractType : string)
    (entry : string * list PriceObject) : outcome unit :=
  let '(power, prices) := entry in
  if Nat.eqb (length prices) 0 then
    Throw (Error ("Subscribed power " +:+ power +:+ " in " +:+ contractType
                  +:+ " should not be empty"))
  else
    let* _ := validatePrices contractType power 0 prices in
    validateContractSpecificRequirements prices contractType.

Definition validateStructure (contractsData : contracts) : outcome unit :=
  checkAll (fun '(contractType, contractData) =>
              checkAll (validatePower contractType) contractData)
           contractsData.

(** Step 6 *)
Definition expectedContracts : list string :=
  ["edf-base"; "edf-peak-off-peak"; "edf-tempo"].

Definition checkExpected (contractsData : contracts) : outcome unit :=
  checkAll (fun expected =>
              if negb (includes (map fst contractsData) expected) then
                Throw (Error ("Expected contract type '" +:+ expected
                              +:+ "' not found"))
              else Return tt)
           expectedContracts.

(** Step 7. [`${p.start_date}|${p.end_date}`] *)
Definition dateRange (p : PriceObject) : string :=
  show (start_date p) +:+ "|" +:+ show (end_date p).

(** The two [Set]s of step 7 are kept as the arrays they are built
    from: membership and the first missing element are the same. *)
Definition checkCoverage (contractType : string)
    (entry : string * list PriceObject) : outcome unit :=
  let '(power, prices) := entry in
  let subscriptionPrices := List.filter isSubscription prices in
  let consumptionPrices := List.filter isConsumption prices in
  let consumptionDateRanges := map dateRange consumptionPrices in
  let subscriptionDateRanges := map dateRange subscriptionPrices in
  checkAll (fun range =>
              if negb (includes subscriptionDateRanges range) then
                Throw (Error (contractType +:+ "[" +:+ power
                              +:+ "]: Missing subscription price for date range "
                              +:+ range))
              else Return tt)
           consumptionDateRanges.

Definition validateConsistency (contractsData : contracts) : outcome unit :=
  checkAll (fun '(contractType, contractData) =>
              checkAll (checkCoverage contractType) contractData)
           contractsData.

(** Step 8: the number of subscription prices in the whole document. *)
Definition totalSubscription (contractsData : contracts) : nat :=
  list_sum (map (fun '(_, contractData) =>
              list_sum (map (fun '(_, prices) =>
                length (List.filter isSubscription prices)) contractData))
            contractsData).

(** [runTests], from the parsed [contracts.json] on (steps 5 to 8); an
    exception ends the process with status 1. *)
Definition runTests (contractsData : contracts) : outcome unit :=
  let* _ := validateStructure contractsData in
  let* _ := checkExpected contractsData in
  let* _ := validateConsistency contractsData in
  if Nat.eqb (totalSubscription contractsData) 0 then
    Throw (Error "No subscription prices found - subscription prices are mandatory")
  else Return tt.

End Validator.

(* ===================================================================== *)
(** * Vocabulary of the statements *)
(* ===================================================================== *)

(** The date string has a ['/']. *)
Definition hasSeparator (s : string) : Prop := In "/"%char (list_ascii_of_string s).

(** The headers each converter looks up with [indexOf]. *)
Definition flatRateHeaders : list string :=
  ["DATE_DEBUT"; "DATE_FIN"; "P_SOUSCRITE"; "PART_VARIABLE_TTC"; "PART_FIXE_TTC"].

Definition dualRateHeaders : list string :=
  ["DATE_DEBUT"; "DATE_FIN"; "P_SOUSCRITE"; "PART_VARIABLE_HC_TTC";
   "PART_VARIABLE_HP_TTC"; "PART_FIXE_TTC"].

Definition tempoHeaders : list string :=
  ["DATE_DEBUT"; "DATE_FIN"; "P_SOUSCRITE"; "PART_VARIABLE_HCBleu_TTC";
   "PART_VARIABLE_HPBleu_TTC"; "PART_VARIABLE_HCBlanc_TTC";
   "PART_VARIABLE_HPBlanc_TTC"; "PART_VARIABLE_HCRouge_TTC";
   "PART_VARIABLE_HPRouge_TTC"; "PART_FIXE_TTC"].

Definition csvWithoutFixedPart : string :=
  "DATE_DEBUT;DATE_FIN;P_SOUSCRITE;PART_VARIABLE_TTC" +:+ String "010" "01/01/2023;;6;0,1234".

(** ** Rows of a tabular file *)

(** The column [i] of a data line, as the loop body reads it. *)
Definition column (rawLine : string) (i : Z) : option string :=
  at_index (split ";" (trim rawLine)) i.

(** A row is complete when every value its converter requires is
    present and non-empty. *)
Definition complete (values : list (option string)) : bool := forallb truthy values.

Definition flatRateValues (ix : FlatRate.indices) (rawLine : string)
  : list (option string) :=
  [ column rawLine (FlatRate.pSouscriteIndex ix);
    column rawLine (FlatRate.dateDebutIndex ix);
    column rawLine (FlatRate.partVariableTtcIndex ix);
    column rawLine (FlatRate.partFixeTtcIndex ix) ].

Definition dualRateValues (ix : DualRate.indices) (rawLine : string)
  : list (option string) :=
  [ column rawLine (DualRate.pSouscriteIndex ix);
    column rawLine (DualRate.dateDebutIndex ix);
    column rawLine (DualRate.partVariableHcTtcIndex ix);
    column rawLine (DualRate.partVariableHpTtcIndex ix);
    column rawLine (DualRate.partFixeTtcIndex ix) ].

Definition tempoValues (ix : Tempo.indices) (rawLine : string)
  : list (option string) :=
  [ column rawLine (Tempo.pSouscriteIndex ix);
    column rawLine (Tempo.dateDebutIndex ix);
    column rawLine (Tempo.partVariableHcBleuTtcIndex ix);
    column rawLine (Tempo.partVariableHpBleuTtcIndex ix);
    column rawLine (Tempo.partVariableHcBlancTtcIndex ix);
    column rawLine (Tempo.partVariableHpBlancTtcIndex ix);
    column rawLine (Tempo.partVariableHcRougeTtcIndex ix);
    column rawLine (Tempo.partVariableHpRougeTtcIndex ix);
    column rawLine (Tempo.partFixeTtcIndex ix) ].

(** The records a complete row yields, once its dates are converted. *)
Definition flatRateRecords (ix : FlatRate.indices) (rawLine : string)
    (startDateIso endDateIso : option string) : list PriceObject :=
  [ FlatRate.consumptionPriceObject startDateIso endDateIso
      (scaledPrice (str (column rawLine (FlatRate.partVariableTtcIndex ix))));
    FlatRate.subscriptionPriceObject startDateIso endDateIso
      (monthlyPrice (str (column rawLine (FlatRate.partFixeTtcIndex ix)))) ].

Definition dualRateRecords (ix : DualRate.indices) (rawLine : string)
    (startDateIso endDateIso : option string) : list PriceObject :=
  [ DualRate.offPeakPriceObject startDateIso endDateIso
      (scaledPrice (str (column rawLine (DualRate.partVariableHcTtcIndex ix))));
    DualRate.peakPriceObject startDateIso endDateIso
      (scaledPrice (str (column rawLine (DualRate.partVariableHpTtcIndex ix))));
    DualRate.subscriptionPriceObject startDateIso endDateIso
      (monthlyPrice (str (column rawLine (DualRate.partFixeTtcIndex ix)))) ].

Definition tempoRecords (ix : Tempo.indices) (rawLine : string)
    (startDateIso endDateIso : option string) : list PriceObject :=
  Tempo.priceObjects startDateIso endDateIso
    (scaledPrice (str (column rawLine (Tempo.partVariableHcBleuTtcIndex ix))))
    (scaledPrice (str (column rawLine (Tempo.partVariableHpBleuTtcIndex ix))))
    (scaledPrice (str (column rawLine (Tempo.partVariableHcBlancTtcIndex ix))))
    (scaledPrice (str (column rawLine (Tempo.partVariableHpBlancTtcIndex ix))))
    (scaledPrice (str (column rawLine (Tempo.partVariableHcRougeTtcIndex ix))))
    (scaledPrice (str (column rawLine (Tempo.partVariableHpRougeTtcIndex ix))))
    (monthlyPrice (str (column rawLine (Tempo.partFixeTtcIndex ix)))).

(** The effect of a complete row on [result]: both dates are converted,
    then the records are pushed onto the array of the power level. *)
Definition appendRow (result : gmap string (list PriceObject))
    (power startDate endDate : option string)
    (records : option string -> option string -> list PriceObject)
  : outcome (gmap string (list PriceObject)) :=
  let* startDateIso := convertToIsoDate startDate in
  let* endDateIso := convertEndDate endDate in
  pushGroup (initGroup result (str power)) (str power)
    (records startDateIso endDateIso).

(** ** The end-to-end scenario of the dual-rate converter *)

Definition scenarioRecords : list PriceObject :=
  [ {| contract := "peak-off-peak"; price_type := "consumption"; currency := "euro";
       start_date := Some "2023-01-01"; end_date := None; price := num 1234;
       hour_slots := Some "TO_REPLACE_OFF_PEAK"; day_type := None |};
    {| contract := "peak-off-peak"; price_type := "consumption"; currency := "euro";
       start_date := Some "2023-01-01"; end_date := None; price := num 2345;
       hour_slots := Some "TO_REPLACE_PEAK"; day_type := None |};
    {| contract := "peak-off-peak"; price_type := "subscription"; currency := "euro";
       start_date := Some "2023-01-01"; end_date := None; price := num 100000;
       hour_slots := None; day_type := None |} ].

Definition scenarioCsv : string :=
  "DATE_DEBUT;DATE_FIN;P_SOUSCRITE;PART_VARIABLE_HC_TTC;PART_VARIABLE_HP_TTC;PART_FIXE_TTC"
  +:+ String "010" "01/01/2023;;6;0,1234;0,2345;120,00" +:+ String "010" "".

(** ** Half-hour marks of the day *)

(** [HH:MM] of the half hour number [k] of the day, [k < 48]. *)
Definition mark (k : nat) : string :=
  padStart2 (pretty (k / 2)%nat) +:+ ":" +:+ (if Nat.even k then "00" else "30").

(** [marks.join(",")] *)
Fixpoint join (sep : string) (parts : list string) : string :=
  match parts with
  | [] => ""
  | [p] => p
  | p :: ps => p +:+ sep +:+ join sep ps
  end.

(** 06:00 to 21:30, the half hours of 06:00-22:00; and the others. *)
Definition peakMarks : list string := map mark (seq 12 32).
Definition offPeakMarks : list string := map mark (seq 0 12 ++ seq 44 4).

(** What tells the seven records of a calendar-tiered row apart. *)
Definition shape (r : PriceObject) : string * string * option string * option string :=
  (contract r, price_type r, day_type r, hour_slots r).

Definition tempoShapes : list (string * string * option string * option string) :=
  [ ("tempo", "consumption", Some "blue", Some (join "," offPeakMarks));
    ("tempo", "consumption", Some "blue", Some (join "," peakMarks));
    ("tempo", "consumption", Some "white", Some (join "," offPeakMarks));
    ("tempo", "consumption", Some "white", Some (join "," peakMarks));
    ("tempo", "consumption", Some "red", Some (join "," offPeakMarks));
    ("tempo", "consumption", Some "red", Some (join "," peakMarks));
    ("es-tempo", "subscription", None, None) ].

Definition tempoHeaderLine : string :=
  "DATE_DEBUT;DATE_FIN;P_SOUSCRITE;PART_VARIABLE_HCBleu_TTC;PART_VARIABLE_HPBleu_TTC;PART_VARIABLE_HCBlanc_TTC;PART_VARIABLE_HPBlanc_TTC;PART_VARIABLE_HCRouge_TTC;PART_VARIABLE_HPRouge_TTC;PART_FIXE_TTC".

Definition tempoIndices : Tempo.indices :=
  Tempo.findIndices (csvHeaders [tempoHeaderLine]).

Definition tempoRow : string :=
  "01/02/2023;;9;0,1056;0,1369;0,1246;0,1654;0,1328;0,7324;153,60".
Definition tempoRowWithoutSeparator : string :=
  "01022023;;9;0,1056;0,1369;0,1246;0,1654;0,1328;0,7324;153,60".
Definition tempoRowWithInheritedKey : string :=
  "01/02/2023;;constructor;0,1056;0,1369;0,1246;0,1654;0,1328;0,7324;153,60".

(** A file: the header line and the data lines, each ended by LF. *)
Definition csvFile (header : string) (rows : list string) : string :=
  fold_right (fun l rest => l +:+ String "010" rest) "" (header :: rows).

(** ** Temporal coverage *)

Definition sameDates (a b : PriceObject) : Prop :=
  start_date a = start_date b /\ end_date a = end_date b.

(** Every date pair of a consumption record of the list is the date
    pair of one of its subscription records. *)
Definition covered (prices : list PriceObject) : Prop :=
  forall c, In c prices -> price_type c = "consumption" ->
  exists s, In s prices /\ price_type s = "subscription" /\ sameDates s c.

Definition allCovered (result : gmap string (list PriceObject)) : Prop :=
  forall power prices, result !! power = Some prices -> covered prices.

(** The dates of a record the per-record check lets through. *)
Definition validDates (p : PriceObject) : Prop :=
  Validator.dateRegex_test (Validator.show (start_date p)) = true
  /\ (truthy (end_date p) = false
      \/ Validator.dateRegex_test (Validator.show (end_date p)) = true).

(** ** Rounding *)

(** [n] is the integer nearest to [p / q], the upper one of the two on
    a tie ([0 < q]): [n - 1/2 <= p / q < n + 1/2]. *)
Definition nearestTiesUp (p q n : Z) : Prop :=
  ((2 * n - 1) * q <= 2 * p /\ 2 * p < (2 * n + 1) * q)%Z.

(** The integer nearest to [p / q], the one away from zero on a tie
    ([0 < q]), as the numeric policy words it. *)
Definition roundHalfAwayFromZero (p q : Z) : Z :=
  (Z.sgn p * ((2 * Z.abs p + q) / (2 * q)))%Z.

(** The numeric policy in its own words: the decimal the normalised
    string denotes, times 10000, rounded half away from zero. [None]
    when the string denotes no decimal. *)
Definition policyPrice (s : string) : option Z :=
  match parseLiteral (replace "," "." s) with
  | DecimalLiteral neg n e =>
      let e' := (e + 4)%Z in
      Some (if (0 <=? e')%Z
            then cond_Zopp neg (n * 10 ^ e')
            else roundHalfAwayFromZero (cond_Zopp neg n) (10 ^ (- e')))
  | _ => None
  end.

(** ** Prices at zero *)

Definition isZero (x : number) : Prop := exists sg, x = S754_zero sg.

(** [{ ...p, price: x }] *)
Definition withPrice (p : PriceObject) (x : number) : PriceObject :=
  {| contract := contract p; price_type := price_type p; currency := currency p;
     start_date := start_date p; end_date := end_date p; price := x;
     hour_slots := hour_slots p; day_type := day_type p |}.

(** The document with the price of every consumption record set to 0. *)
Definition zeroConsumption (p : PriceObject) : PriceObject :=
  if Validator.isConsumption p then withPrice p (num 0) else p.

Definition zeroConsumptionPrices (contractsData : Validator.contracts)
  : Validator.contracts :=
  map (fun '(contractType, contractData) =>
         (contractType,
          map (fun '(power, prices) => (power, map zeroConsumption prices))
              contractData))
      contractsData.

(** The tests of [validatePriceObject] other than the one on the price. *)
Definition otherFieldsValid (p : PriceObject) : Prop :=
  Validator.includes Validator.validContracts (contract p) = true
  /\ Validator.includes ["consumption"; "subscription"] (price_type p) = true
  /\ currency p = "euro"
  /\ validDates p.

(** The errors of the two tests on the price, [shown] being what the
    template literal gives for the price. *)
Definition invalidPrice (label shown : string) : error :=
  Error ("Invalid price in " +:+ label +:+ ": expected positive number, got "
         +:+ shown).

Definition notPositive (contractType shown : string) : error :=
  Error ("Subscription price in " +:+ contractType +:+ " should be positive, got "
         +:+ shown).

(** A document that passes the validator. *)
Definition validRecord (contractName priceType : string) (x : number)
    (hourSlots dayType : option string) : PriceObject :=
  {| contract := contractName; price_type := priceType; currency := "euro";
     start_date := Some "2023-01-01"; end_date := None; price := x;
     hour_slots := hourSlots; day_type := dayType |}.

Definition validContractsData : Validator.contracts :=
  [ ("edf-base",
     [ ("6", [ validRecord "base" "consumption" (num 1234) None None;
               validRecord "base" "subscription" (num 100000) None None ]) ]);
    ("edf-peak-off-peak",
     [ ("6", [ validRecord "peak-off-peak" "consumption" (num 1234)
                 (Some "TO_REPLACE_OFF_PEAK") None;
               validRecord "peak-off-peak" "consumption" (num 2345)
                 (Some "TO_REPLACE_PEAK") None;
               validRecord "peak-off-peak" "subscription" (num 100000) None None ]) ]);
    ("edf-tempo",
     [ ("9", [ validRecord "edf-tempo" "consumption" (num 1056)
                 (Some Tempo.offPeakSlots) (Some "blue");
               validRecord "edf-tempo" "subscription" (num 128000) None None ]) ]) ].

(** A document that passes the checks of every record, of every list
    and of the expected contract types, and whose consumption record
    of power level 6 of [edf-base] has no subscription record of the
    same dates. *)
Definition uncoveredContracts : Validator.contracts :=
  [ ("edf-base",
     [ ("6", [ validRecord "base" "consumption" (num 1234) None None;
               {| contract := "base"; price_type := "subscription";
                  currency := "euro"; start_date := Some "2024-01-01";
                  end_date := None; price := num 100000;
                  hour_slots := None; day_type := None |} ]) ]);
    ("edf-peak-off-peak",
     [ ("6", [ validRecord "peak-off-peak" "consumption" (num 1234)
                 (Some "TO_REPLACE_OFF_PEAK") None;
               validRecord "peak-off-peak" "consumption" (num 2345)
                 (Some "TO_REPLACE_PEAK") None;
               validRecord "peak-off-peak" "subscription" (num 100000) None None ]) ]);
    ("edf-tempo",
     [ ("9", [ validRecord "edf-tempo" "consumption" (num 1056)
                 (Some Tempo.offPeakSlots) (Some "blue");
               validRecord "edf-tempo" "subscription" (num 128000) None None ]) ]) ].

(** A document whose subscription record has the price 0. *)
Definition zeroSubscriptionPrices : list PriceObject :=
  [ validRecord "base" "consumption" (num 1234) None None;
    validRecord "base" "subscription" (num 0) None None ].

Definition zeroSubscriptionContracts : Validator.contracts :=
  [ ("edf-base", [ ("6", zeroSubscriptionPrices) ]) ].

(** ** Parsed catalogs in the store *)

(** Every reference held by an array of [h] points to an object of [h]. *)
Definition closed {Obj : Type} (h : heap Obj) : Prop :=
  Forall (Forall (fun l => l < length (objects h))) (arrays h).

(** The store right after [JSON.parse]: [contractData] is an array of
    the store, and so is every value of the subscription table that is
    not [null]. *)
Definition parsed {Obj : Type} (h : heap Obj) (contractData : nat)
    (subscriptionData : list (string * option nat)) : Prop :=
  closed h
  /\ contractData < length (arrays h)
  /\ Forall (fun kv => match kv.2 with
                       | Some a => a < length (arrays h)
                       | None => True
                       end) subscriptionData.

(** The own properties [result] ends with: the keys assigned to, but
    for [__proto__]. *)
Definition ownKey (keys : list string) (k : string) : Prop :=
  In k keys /\ k <> "__proto__".

(** ** What the [forEach] of a catalog converter maintains

    [h0] is the store the converter starts from, [entries] the
    elements of [contractData]; the call of the callback for a key [k]
    allocates [before k] arrays and then the one it assigns to
    [result]; what that one holds after the copies satisfies
    [extra]. *)
Section Invariant.
Context {Obj : Type} (emptyObject : Obj) (h0 : heap Obj) (entries : list nat).
Variable before : string -> nat.
Variable extra : list nat -> Prop.

(** The number of arrays the calls for [keys] allocate. *)
Definition allocated (keys : list string) : nat :=
  list_sum (map (fun k => S (before k)) keys).

(** The array assigned by call number [i] of the calls for [done],
    and the copies it holds. *)
Definition emittedAt (done : list string) (i : nat) : nat :=
  length (arrays h0) + allocated (take i done) + before (nth i done "").

Definition copiesAt (i : nat) : list nat :=
  seq (length (objects h0) + i * length entries) (length entries).

Definition stepInvariant (done : list string) (st : gmap string nat * heap Obj)
  : Prop :=
  (exists ext, objects st.2 = objects h0 ++ ext
               /\ length ext = length done * length entries)
  /\ (exists ext, arrays st.2 = arrays h0 ++ ext
                  /\ length ext = allocated done)
  /\ (forall i, i < length done ->
        exists subs, arrays st.2 !! emittedAt done i = Some (copiesAt i ++ subs)
                     /\ Forall (fun l => l < length (objects h0)) subs
                     /\ extra subs)
  /\ (forall i, i < length done ->
        map (readObject emptyObject st.2) (copiesAt i)
        = map (readObject emptyObject h0) entries)
  /\ (forall k a, st.1 !! k = Some a ->
        exists i, i < length done /\ a = emittedAt done i)
  /\ (forall k1 k2 a1 a2, k1 <> k2 ->
        st.1 !! k1 = Some a1 -> st.1 !! k2 = Some a2 -> a1 <> a2)
  /\ (forall k, is_Some (st.1 !! k) <-> ownKey done k).

End Invariant.

(** The arrays a call of the callback of the converter that reads the
    subscription table allocates before the one it assigns: the
    consumption prices, and the empty array that stands for a [null]
    or missing table value. *)
Definition arraysBefore (subscriptionData : list (string * option nat))
    (power : string) : nat :=
  match Catalog.property subscriptionData power with
  | Some _ => 1
  | None => 2
  end.

(** The power levels of the table whose value is [null]. *)
Definition nullPowers (subscriptionData : list (string * option nat))
  : list string :=
  List.filter (fun power => match Catalog.property subscriptionData power with
                            | Some _ => false
                            | None => true
                            end)
    (map fst subscriptionData).

(** ** Isolation of two emitted lists

    [a] and [b] are the arrays a catalog converter bound to two power
    levels, in the store [h] it returned; the consumption records of
    [a] are its first elements, as many as the catalog has entries. *)
Definition isolated {Obj : Type} (emptyObject : Obj) (h0 : heap Obj)
    (contractData : nat) (h : heap Obj) (a b : nat) : Prop :=
  let consumption := take (length (readArray h0 contractData)) (readArray h a) in
  a <> b
  /\ map (readObject emptyObject h) consumption = records emptyObject h0 contractData
  /\ (forall l, In l consumption ->
        ~ In l (readArray h0 contractData) /\ ~ In l (readArray h b))
  /\ (forall elems,
        records emptyObject (writeArray h a elems) b = records emptyObject h b)
  /\ (forall l o, In l consumption ->
        records emptyObject (writeObject h l o) b = records emptyObject h b).

(** Modelled from the spec: the catalog file [contract.json] is not
    among the sources; the spec describes it as an ordered list of
    consumption-price objects, so none of its entries is a subscription
    price. *)
Definition consumptionCatalog (catalog : list PriceObject) : Prop :=
  Forall (fun entry => price_type entry <> "subscription") catalog.

Definition noSubscriptionError (contractType : string) : error :=
  Error (contractType +:+ " must have at least one subscription price").

(** A parsed catalog and subscription table. *)
Definition catalogEntry : PriceObject :=
  {| contract := "base"; price_type := "consumption"; currency := "euro";
     start_date := Some "2023-01-01"; end_date := None; price := num 2500;
     hour_slots := None; day_type := None |}.

Definition subscriptionEntry (x : Z) : PriceObject :=
  {| contract := "base"; price_type := "subscription"; currency := "euro";
     start_date := Some "2023-01-01"; end_date := None; price := num x;
     hour_slots := None; day_type := None |}.

Definition parsedStore : heap PriceObject :=
  {| objects := [catalogEntry; subscriptionEntry 100000; subscriptionEntry 130000];
     arrays := [[0]; [1]; [2]] |}.

Definition parsedSubscriptions : list (string * option nat) :=
  [("6", Some 1); ("9", Some 2)].

(** A parsed catalog one of whose two entries is a subscription
    price. *)
Definition catalogWithSubscription : heap PriceObject :=
  {| objects := [catalogEntry; subscriptionEntry 100000]; arrays := [[0; 1]] |}.

(** ** Contract names *)

(** Every record of every power level of [result] satisfies [P]. *)
Definition allRecords (P : PriceObject -> Prop)
    (result : gmap string (list PriceObject)) : Prop :=
  forall power prices, result !! power = Some prices -> Forall P prices.

(** The contract-name membership check of the validator. *)
Definition knownContract (r : PriceObject) : bool :=
  Validator.includes Validator.validContracts (contract r).

Definition tempoFile : string := csvFile tempoHeaderLine [tempoRow].

(* ===================================================================== *)
(** * Vocabulary of the further properties *)
(* ===================================================================== *)

(** ** What the validator enforces *)

(** The record passes every test of [validatePriceObject]. *)
Definition acceptedRecord (p : PriceObject) : Prop :=
  Validator.includes Validator.validContracts (contract p) = true
  /\ Validator.includes ["consumption"; "subscription"] (price_type p) = true
  /\ currency p = "euro"
  /\ ltb64 (price p) (num 0) = false
  /\ Validator.dateRegex_test (Validator.show (start_date p)) = true
  /\ (truthy (end_date p) = false
      \/ Validator.dateRegex_test (Validator.show (end_date p)) = true).

(** The rule on a subscription record. *)
Definition subscriptionRule (s : PriceObject) : Prop :=
  hour_slots s = None /\ day_type s = None /\ leb64 (price s) (num 0) = false.

(** The rule on a consumption record, by contract type; no rule for a
    contract type other than the three named ones. *)
Definition consumptionRule (contractType : string) (c : PriceObject) : Prop :=
  if String.eqb contractType "edf-base" then
    hour_slots c = None /\ day_type c = None
  else if String.eqb contractType "edf-peak-off-peak" then
    (hour_slots c = Some "TO_REPLACE_PEAK" \/ hour_slots c = Some "TO_REPLACE_OFF_PEAK")
    /\ day_type c = None
  else if String.eqb contractType "edf-tempo" then
    (day_type c = Some "blue" \/ day_type c = Some "white" \/ day_type c = Some "red")
    /\ truthy (hour_slots c) = true
  else True.

(** The rules of [validateContractSpecificRequirements] on a list. *)
Definition requirementsMet (contractType : string) (prices : list PriceObject) : Prop :=
  (exists s, In s prices /\ price_type s = "subscription")
  /\ (forall s, In s prices -> price_type s = "subscription" -> subscriptionRule s)
  /\ (forall c, In c prices -> price_type c = "consumption" ->
        consumptionRule contractType c).

(** Everything the validator asks of one power level. *)
Definition validPowerLevel (contractType : string) (prices : list PriceObject) : Prop :=
  prices <> []
  /\ (forall p, In p prices -> acceptedRecord p)
  /\ requirementsMet contractType prices
  /\ covered prices.

(** ** Files of a tabular converter *)

(** The value of a conversion that returned; [null] otherwise. *)
Definition isoOf (x : outcome (option string)) : option string :=
  match x with
  | Return v => v
  | Throw _ => None
  end.

(** The date cell is missing, empty, or has a ['/']. *)
Definition wellFormedDate (d : option string) : Prop :=
  truthy d = true -> hasSeparator (str d).

(** The dates of the row are well formed and its power level names no
    property of [Object.prototype]. *)
Definition convertible (power startDate endDate : option string) : Prop :=
  inherited (str power) = false
  /\ wellFormedDate startDate
  /\ wellFormedDate endDate.

(** [result] has no own property named as one of [Object.prototype]. *)
Definition ownKeysOnly (result : gmap string (list PriceObject)) : Prop :=
  forall k, inherited k = true -> result !! k = None.

(** What a line contributes: nothing when it is incomplete, else a
    power level and its records. *)
Definition rowOf (values : list (option string)) (power startDate endDate : option string)
    (records : option string -> option string -> list PriceObject)
  : option (string * list PriceObject) :=
  if complete values then
    Some (str power,
          records (isoOf (convertToIsoDate startDate)) (isoOf (convertEndDate endDate)))
  else None.

Definition flatRateRowOf (ix : FlatRate.indices) (rawLine : string)
  : option (string * list PriceObject) :=
  rowOf (flatRateValues ix rawLine)
    (column rawLine (FlatRate.pSouscriteIndex ix))
    (column rawLine (FlatRate.dateDebutIndex ix))
    (column rawLine (FlatRate.dateFinIndex ix))
    (flatRateRecords ix rawLine).

Definition dualRateRowOf (ix : DualRate.indices) (rawLine : string)
  : option (string * list PriceObject) :=
  rowOf (dualRateValues ix rawLine)
    (column rawLine (DualRate.pSouscriteIndex ix))
    (column rawLine (DualRate.dateDebutIndex ix))
    (column rawLine (DualRate.dateFinIndex ix))
    (dualRateRecords ix rawLine).

Definition tempoRowOf (ix : Tempo.indices) (rawLine : string)
  : option (string * list PriceObject) :=
  rowOf (tempoValues ix rawLine)
    (column rawLine (Tempo.pSouscriteIndex ix))
    (column rawLine (Tempo.dateDebutIndex ix))
    (column rawLine (Tempo.dateFinIndex ix))
    (tempoRecords ix rawLine).

Definition flatRateConvertible (ix : FlatRate.indices) (rawLine : string) : Prop :=
  complete (flatRateValues ix rawLine) = true ->
  convertible (column rawLine (FlatRate.pSouscriteIndex ix))
    (column rawLine (FlatRate.dateDebutIndex ix))
    (column rawLine (FlatRate.dateFinIndex ix)).

Definition dualRateConvertible (ix : DualRate.indices) (rawLine : string) : Prop :=
  complete (dualRateValues ix rawLine) = true ->
  convertible (column rawLine (DualRate.pSouscriteIndex ix))
    (column rawLine (DualRate.dateDebutIndex ix))
    (column rawLine (DualRate.dateFinIndex ix)).

Definition tempoConvertible (ix : Tempo.indices) (rawLine : string) : Prop :=
  complete (tempoValues ix rawLine) = true ->
  convertible (column rawLine (Tempo.pSouscriteIndex ix))
    (column rawLine (Tempo.dateDebutIndex ix))
    (column rawLine (Tempo.dateFinIndex ix)).

(** The records of the rows of power level [p], in the order of the
    rows; [None] when no row has that power level. *)
Definition grouping (rows : list (string * list PriceObject)) (p : string)
  : option (list PriceObject) :=
  if existsb (fun row => String.eqb row.1 p) rows
  then Some (flat_map (fun row => if String.eqb row.1 p then row.2 else []) rows)
  else None.

(** The records of a row: consumption records and then one
    subscription record, whose date pair each of them has. *)
Definition rowWithSubscription (records : list PriceObject) : Prop :=
  exists consumption s,
    records = consumption ++ [s]
    /\ consumption <> []
    /\ price_type s = "subscription"
    /\ Forall (fun c => price_type c = "consumption" /\ sameDates s c) consumption.

(** Every complete row among [lines] has its records, one after the
    other, in the list [result] binds to its power level. *)
Definition rowsEmitted (row : string -> option (string * list PriceObject))
    (lines : list string) (result : gmap string (list PriceObject)) : Prop :=
  forall line p records, In line lines -> row line = Some (p, records) ->
    rowWithSubscription records
    /\ exists front back, result !! p = Some (front ++ records ++ back).

(** Every list of [result] satisfies [Q]. *)
Definition allLists (Q : list PriceObject -> Prop)
    (result : gmap string (list PriceObject)) : Prop :=
  forall power prices, result !! power = Some prices -> Q prices.

(** The records of one row of each converter: they share the date
    pair, the start date is a string, and the subscription record is
    the last. *)
Definition flatRateBlock (block : list PriceObject) : Prop :=
  exists startDateIso endDateIso price subscriptionPrice,
    block = [ FlatRate.consumptionPriceObject (Some startDateIso) endDateIso price;
              FlatRate.subscriptionPriceObject (Some startDateIso) endDateIso
                subscriptionPrice ].

Definition dualRateBlock (block : list PriceObject) : Prop :=
  exists startDateIso endDateIso offPeakPrice peakPrice subscriptionPrice,
    block = [ DualRate.offPeakPriceObject (Some startDateIso) endDateIso offPeakPrice;
              DualRate.peakPriceObject (Some startDateIso) endDateIso peakPrice;
              DualRate.subscriptionPriceObject (Some startDateIso) endDateIso
                subscriptionPrice ].

Definition tempoBlock (block : list PriceObject) : Prop :=
  exists startDateIso endDateIso blueOffPeakPrice bluePeakPrice whiteOffPeakPrice
         whitePeakPrice redOffPeakPrice redPeakPrice subscriptionPrice,
    block = Tempo.priceObjects (Some startDateIso) endDateIso blueOffPeakPrice
              bluePeakPrice whiteOffPeakPrice whitePeakPrice redOffPeakPrice
              redPeakPrice subscriptionPrice.

(** The list is one or more blocks, one after the other. *)
Definition madeOf (isBlock : list PriceObject -> Prop) (prices : list PriceObject)
  : Prop :=
  exists blocks, blocks <> [] /\ Forall isBlock blocks /\ prices = concat blocks.

(** What is left for the validator to find wrong in a record of the
    flat-rate or of the dual-rate converter. *)
Definition validDatesAndPrice (r : PriceObject) : Prop :=
  validDates r
  /\ ltb64 (price r) (num 0) = false
  /\ (price_type r = "subscription" -> leb64 (price r) (num 0) = false).

(** A flat-rate file: two rows of power level 6, an empty line, a row
    of power level 9 and a row without prices. *)
Definition flatRateFile : string :=
  csvFile "DATE_DEBUT;DATE_FIN;P_SOUSCRITE;PART_VARIABLE_TTC;PART_FIXE_TTC"
    [ "01/01/2023;31/07/2023;6;0,1234;120,00";
      "01/08/2023;;6;0,2276;151,20";
      "";
      "01/08/2023;;9;0,2276;189,48";
      "01/08/2023;;12" ].

(** The effect on [result] of a line that does not raise. *)
Definition applyRow (result : gmap string (list PriceObject))
    (row : option (string * list PriceObject)) : gmap string (list PriceObject) :=
  match row with
  | None => result
  | Some (p, records) => <[p := default [] (result !! p) ++ records]> result
  end.

(** ** Converted dates *)

(** [/^\d*$/.test(s)] *)
Definition allDigits (s : string) : bool := forallb isDigit (list_ascii_of_string s).

(** [n] digits and nothing else. *)
Definition digits (n : nat) (s : string) : Prop :=
  String.length s = n /\ allDigits s = true.

(** At most two digits and nothing else. *)
Definition upToTwoDigits (s : string) : Prop :=
  String.length s <= 2 /\ allDigits s = true.

(** ** Lists of the catalog with a subscription table *)

(** [subscriptionData[power] || []] in the parsed store: the elements
    of the array of the table, or none. *)
Definition subscriptionsOf {Obj : Type} (h0 : heap Obj)
    (subscriptionData : list (string * option nat)) (power : string) : list nat :=
  match Catalog.property subscriptionData power with
  | Some a => readArray h0 a
  | None => []
  end.

(** A subscription table whose power level 9 is [null]. *)
Definition subscriptionsWithNull : list (string * option nat) :=
  [("6", Some 1); ("9", None)].

(** Every array bound by [result] holds the copies of one call and then
    the elements of the table for its key. *)
Definition boundToTable {Obj : Type} (h0 : heap Obj) (contractData : nat)
    (subscriptionData : list (string * option nat)) (calls : nat)
    (st : gmap string nat * heap Obj) : Prop :=
  forall k a, st.1 !! k = Some a ->
    exists i, i < calls
      /\ readArray st.2 a
         = copiesAt h0 (readArray h0 contractData) i
           ++ subscriptionsOf h0 subscriptionData k.

(** ** Decimal cells *)

(** The last decimal digit of [d]. *)
Definition digitChar (d : Z) : ascii := ascii_of_nat (Z.to_nat (48 + d mod 10)).

(** [n] ten-thousandths written with a decimal comma and four
    decimals: [priceString 1234 = "0,1234"]. *)
Definition priceString (n : Z) : string :=
  pretty (n / 10000)%Z +:+ ","
  +:+ String (digitChar (n / 1000)) (String (digitChar (n / 100))
        (String (digitChar (n / 10)) (String (digitChar n) ""))).

(** [c] hundredths written with a decimal comma and two decimals:
    [feeString 15360 = "153,60"]. *)
Definition feeString (c : Z) : string :=
  pretty (c / 100)%Z +:+ ","
  +:+ String (digitChar (c / 10)) (String (digitChar c) "").

(** The same Number value, the two zeros told apart. *)
Definition sameNumber (x y : number) : bool :=
  match x, y with
  | S754_finite s m e, S754_finite s' m' e' =>
      Bool.eqb s s' && Pos.eqb m m' && Z.eqb e e'
  | S754_zero s, S754_zero s' => Bool.eqb s s'
  | S754_infinity s, S754_infinity s' => Bool.eqb s s'
  | S754_nan, S754_nan => true
  | _, _ => false
  end.

(** [P] holds of the [count] integers from [n] on. *)
Fixpoint allFrom (count : nat) (n : Z) (P : Z -> bool) : bool :=
  match count with
  | O => true
  | S count' => P n && allFrom count' (n + 1)%Z P
  end.

(** ** Diagnostics of the validator *)

(** [`${contractType}[${power}][${i}]`] *)
Definition recordLabel (contractType power : string) (i : nat) : string :=
  contractType +:+ "[" +:+ power +:+ "][" +:+ pretty i +:+ "]".

(** ** Line ends *)

(** The content with every LF turned into CR LF. *)
Fixpoint withCarriageReturns (s : string) : string :=
  match s with
  | EmptyString => EmptyString
  | String c s' =>
      if Ascii.eqb c "010"
      then String "013" (String "010" (withCarriageReturns s'))
      else String c (withCarriageReturns s')
  end.

(** The lines, each but the last ended by CR. *)
Fixpoint endedByCarriageReturn (lines : list string) : list string :=
  match lines with
  | [] => []
  | [l] => [l]
  | l :: ls => (l +:+ String "013" "") :: endedByCarriageReturn ls
  end.

(** ** Well-formed files *)

(** A date cell of three parts or more between slashes: at most two
    digits, at most two digits, four digits. *)
Definition wellFormedDateCell (d : option string) : Prop :=
  exists s day month year rest,
    d = Some s
    /\ split "/" s = day :: month :: year :: rest
    /\ upToTwoDigits day /\ upToTwoDigits month /\ digits 4 year.

(** An end-date cell: missing, empty, or a well-formed date. *)
Definition wellFormedEndCell (d : option string) : Prop :=
  truthy d = false \/ wellFormedDateCell d.

(** A finite number that is not negative; one that is above zero. *)
Definition nonNegativeNumber (x : number) : Prop :=
  match x with
  | S754_zero _ | S754_finite false _ _ => True
  | _ => False
  end.

Definition positiveNumber (x : number) : Prop :=
  match x with
  | S754_finite false _ _ => True
  | _ => False
  end.

(** A price cell scales to a finite number that is not negative; a fee
    cell gives a finite monthly price above zero. *)
Definition priceCell (v : option string) : Prop :=
  nonNegativeNumber (scaledPrice (str v)).

Definition feeCell (v : option string) : Prop :=
  positiveNumber (monthlyPrice (str v)).

(** The complete rows of a well-formed file. *)
Definition flatRateWellFormed (ix : FlatRate.indices) (rawLine : string) : Prop :=
  complete (flatRateValues ix rawLine) = true ->
  inherited (str (column rawLine (FlatRate.pSouscriteIndex ix))) = false
  /\ wellFormedDateCell (column rawLine (FlatRate.dateDebutIndex ix))
  /\ wellFormedEndCell (column rawLine (FlatRate.dateFinIndex ix))
  /\ priceCell (column rawLine (FlatRate.partVariableTtcIndex ix))
  /\ feeCell (column rawLine (FlatRate.partFixeTtcIndex ix)).

Definition dualRateWellFormed (ix : DualRate.indices) (rawLine : string) : Prop :=
  complete (dualRateValues ix rawLine) = true ->
  inherited (str (column rawLine (DualRate.pSouscriteIndex ix))) = false
  /\ wellFormedDateCell (column rawLine (DualRate.dateDebutIndex ix))
  /\ wellFormedEndCell (column rawLine (DualRate.dateFinIndex ix))
  /\ priceCell (column rawLine (DualRate.partVariableHcTtcIndex ix))
  /\ priceCell (column rawLine (DualRate.partVariableHpTtcIndex ix))
  /\ feeCell (column rawLine (DualRate.partFixeTtcIndex ix)).

(** Every record of the list has valid dates and a valid price. *)
Definition validList (prices : list PriceObject) : Prop :=
  forall r, In r prices -> validDatesAndPrice r.

(* ===================================================================== *)
(** * Properties of the primitives *)
(* ===================================================================== *)

Lemma bind_Return {A B : Type} (a : A) (k : A -> outcome B) :
  bind (Return a) k = k a.
Proof. reflexivity. Qed.

Lemma bind_raises {A B : Type} (x : outcome A) (k : A -> outcome B) :
  raises x -> raises (bind x k).
Proof. intros [e ->]. exists e. reflexivity. Qed.

Lemma raises_Throw {A : Type} (e : error) : raises (@Throw A e).
Proof. exists e. reflexivity. Qed.

Lemma not_raises_Return {A : Type} (a : A) : ~ raises (Return a).
Proof. intros [e He]. discriminate He. Qed.

Lemma split_nonempty (sep : ascii) (s : string) : split sep s <> [].
Proof.
  destruct s as [|c s]; simpl; [discriminate|].
  destruct (Ascii.eqb c sep); [discriminate|].
  destruct (split sep s); discriminate.
Qed.

(** Without the separator there is nothing to split. *)
Lemma split_without_separator (sep : ascii) (s : string) :
  ~ In sep (list_ascii_of_string s) -> split sep s = [s].
Proof.
  induction s as [|c s IH]; simpl; intros Hno; [reflexivity|].
  destruct (Ascii.eqb_spec c sep) as [->|Hne].
  - exfalso. apply Hno. now left.
  - rewrite IH; [reflexivity|]. intros Hin. apply Hno. now right.
Qed.

(** With the separator there are at least two parts. *)
Lemma split_with_separator (sep : ascii) (s : string) :
  In sep (list_ascii_of_string s) -> exists a b rest, split sep s = a :: b :: rest.
Proof.
  induction s as [|c s IH]; simpl; intros Hin; [contradiction|].
  destruct (Ascii.eqb_spec c sep) as [->|Hne].
  - destruct (split sep s) as [|b rest] eqn:E.
    + now apply split_nonempty in E.
    + now exists EmptyString, b, rest.
  - destruct Hin as [Hc|Hin]; [congruence|].
    destruct (IH Hin) as (a & b & rest & ->).
    now exists (String c a), b, rest.
Qed.

Lemma indexOf_absent (x : string) (arr : list string) :
  ~ In x arr -> indexOf x arr = (-1)%Z.
Proof.
  induction arr as [|y arr IH]; simpl; intros Hno; [reflexivity|].
  destruct (String.eqb_spec y x) as [->|Hne].
  - exfalso. apply Hno. now left.
  - rewrite IH; [reflexivity|]. intros Hin. apply Hno. now right.
Qed.

Lemma indexOf_range (x : string) (arr : list string) :
  indexOf x arr = (-1)%Z \/ (0 <= indexOf x arr)%Z.
Proof.
  induction arr as [|y arr IH]; simpl; [now left|].
  destruct (String.eqb y x); [right; lia|].
  destruct (Z.eqb_spec (indexOf x arr) (-1)); [now left|right; lia].
Qed.

Lemma indexOf_present (x : string) (arr : list string) :
  In x arr -> (0 <= indexOf x arr)%Z.
Proof.
  induction arr as [|y arr IH]; simpl; intros Hin; [contradiction|].
  destruct (String.eqb_spec y x) as [->|Hne]; [lia|].
  destruct Hin as [Hy|Hin]; [congruence|].
  specialize (IH Hin).
  destruct (Z.eqb_spec (indexOf x arr) (-1)); lia.
Qed.

(** ** The primitives on known values *)

Example split_keeps_empty_parts : split ";" "a;;b;" = ["a"; ""; "b"; ""].
Proof. reflexivity. Qed.

Example split_of_empty_string : split "/" "" = [""].
Proof. reflexivity. Qed.

Example trim_both_ends :
  trim (String "009" " a b " +:+ String "013" (String "010" "")) = "a b".
Proof. reflexivity. Qed.

Example replace_first_comma_only : replace "," "." "1,234,5" = "1.234,5".
Proof. reflexivity. Qed.

Example parseFloat_one_tenth :
  parseFloat "0.1" = S754_finite false 7205759403792794 (-56).
Proof. vm_compute. reflexivity. Qed.

Example parseFloat_prefix : parseFloat "  12.5e1abc" = num 125.
Proof. vm_compute. reflexivity. Qed.

Example parseFloat_not_a_number :
  parseFloat "abc" = S754_nan /\ parseFloat "." = S754_nan /\ parseFloat "" = S754_nan.
Proof. repeat split. Qed.

Example parseFloat_large : parseFloat "1e21" = S754_finite false 7629394531250000 17.
Proof. vm_compute. reflexivity. Qed.

Example binary64_product :
  mul64 (parseFloat "0.1") (num 3) = S754_finite false 5404319552844596 (-54).
Proof. vm_compute. reflexivity. Qed.

Example Math_round_ties :
  Math_round (parseFloat "2.5") = num 3
  /\ Math_round (parseFloat "-2.5") = num (-2)
  /\ Math_round (parseFloat "-0.5") = S754_zero true
  /\ Math_round (parseFloat "0.49999999999999994") = S754_zero false
  /\ Math_round S754_nan = S754_nan.
Proof. repeat split; vm_compute; reflexivity. Qed.

Example monthly_price_of_annual_fee : monthlyPrice "153,60" = num 128000.
Proof. vm_compute. reflexivity. Qed.

Example date_conversion :
  convertToIsoDate (Some "05/03/2024") = Return (Some "2024-03-05")
  /\ convertToIsoDate (Some "5/3/2024") = Return (Some "2024-03-05")
  /\ convertToIsoDate (Some "05/03") = Return (Some "undefined-03-05")
  /\ convertEndDate (Some "") = Return None
  /\ convertEndDate None = Return None.
Proof. repeat split. Qed.

Example date_regex :
  Validator.dateRegex_test "2024-03-05" = true
  /\ Validator.dateRegex_test "undefined-03-05" = false
  /\ Validator.dateRegex_test "2024-3-5" = false
  /\ Validator.dateRegex_test "null" = false.
Proof. repeat split. Qed.

(* ===================================================================== *)
(** * Date conversion *)
(* ===================================================================== *)


Lemma convertToIsoDate_with_separator (s : string) :
  hasSeparator s -> exists iso, convertToIsoDate (Some s) = Return (Some iso).
Proof.
  intros Hin. destruct s as [|c s]; [contradiction|].
  unfold convertToIsoDate.
  destruct (split_with_separator _ _ Hin) as (a & b & rest & ->).
  simpl. eauto.
Qed.

Ltac no_separator :=
  let H := fresh "H" in
  unfold hasSeparator; simpl; intros H;
  repeat (destruct H as [H|H]; [discriminate H|]); exact H.

(** C2, as the code has it: a non-empty date string without a ['/']
    makes [convertToIsoDate] raise a [TypeError] (the month is
    [undefined] and has no [padStart]); no value is returned. A
    non-empty date string with a ['/'] converts to a string. So only
    the empty string (and [undefined]) converts to [null]. *)
Theorem convertToIsoDate_without_separator_raises (s : string) :
  s <> "" ->
  (~ hasSeparator s -> convertToIsoDate (Some s) = Throw padStartError)
  /\ (hasSeparator s -> exists iso, convertToIsoDate (Some s) = Return (Some iso)).
Proof.
  intros Hne. split.
  - intros Hno. destruct s as [|c s]; [congruence|].
    unfold convertToIsoDate. rewrite (split_without_separator _ _ Hno).
    reflexivity.
  - apply convertToIsoDate_with_separator.
Qed.

Lemma convertToIsoDate_without_separator_raises_witness :
  "01012023" <> "" /\ ~ hasSeparator "01012023"
  /\ convertToIsoDate (Some "01012023") = Throw padStartError.
Proof.
  assert (Hne : "01012023" <> "") by discriminate.
  assert (Hno : ~ hasSeparator "01012023") by no_separator.
  split; [exact Hne|]. split; [exact Hno|].
  exact (proj1 (convertToIsoDate_without_separator_raises "01012023" Hne) Hno).
Defined.

(** C2 as stated fails: the malformed date ["01012023"] is non-empty
    and has no ['/'], and the conversion returns no value. *)
Lemma convertToIsoDate_malformed_returns_nothing :
  "01012023" <> ""
  /\ ~ hasSeparator "01012023"
  /\ ~ exists v, convertToIsoDate (Some "01012023") = Return v.
Proof.
  split; [discriminate|]. split; [no_separator|].
  intros [v Hv]. vm_compute in Hv. discriminate Hv.
Qed.

Lemma convertToIsoDate_empty :
  convertToIsoDate (Some "") = Return None /\ convertToIsoDate None = Return None.
Proof. split; reflexivity. Qed.

(* ===================================================================== *)
(** * Missing headers *)
(* ===================================================================== *)


Ltac absent_header H :=
  repeat (destruct H as [<-|H]; [| ]); try contradiction;
  match goal with
  | Hno : ~ In ?h ?hs |- _ => simpl; rewrite (indexOf_absent h hs Hno); simpl
  end;
  rewrite ?orb_true_r; reflexivity.

Lemma flatRate_missingColumn (headers : list string) (h : string) :
  In h flatRateHeaders -> ~ In h headers ->
  FlatRate.missingColumn (FlatRate.findIndices headers) = true.
Proof.
  intros Hin Hno. unfold FlatRate.missingColumn, FlatRate.findIndices, flatRateHeaders in *.
  simpl in Hin. absent_header Hin.
Qed.

Lemma dualRate_missingColumn (headers : list string) (h : string) :
  In h dualRateHeaders -> ~ In h headers ->
  DualRate.missingColumn (DualRate.findIndices headers) = true.
Proof.
  intros Hin Hno. unfold DualRate.missingColumn, DualRate.findIndices, dualRateHeaders in *.
  simpl in Hin. absent_header Hin.
Qed.

Lemma tempo_missingColumn (headers : list string) (h : string) :
  In h tempoHeaders -> ~ In h headers ->
  Tempo.missingColumn (Tempo.findIndices headers) = true.
Proof.
  intros Hin Hno. unfold Tempo.missingColumn, Tempo.findIndices, tempoHeaders in *.
  simpl in Hin. absent_header Hin.
Qed.

(** C5: when a required header is absent from the header line, each
    tabular converter throws "Required columns not found in CSV"; the
    data lines are never looked at and no record is produced. *)
Theorem missing_header_aborts_converter (csvContent h : string) :
  (In h flatRateHeaders -> ~ In h (csvHeaders (csvLines csvContent)) ->
   FlatRate.processBaseOptions csvContent = Throw requiredColumnsError)
  /\ (In h dualRateHeaders -> ~ In h (csvHeaders (csvLines csvContent)) ->
      DualRate.processPeakOffPeakOptions csvContent = Throw requiredColumnsError)
  /\ (In h tempoHeaders -> ~ In h (csvHeaders (csvLines csvContent)) ->
      Tempo.processTempoOptions csvContent = Throw requiredColumnsError).
Proof.
  split; [|split]; intros Hin Hno.
  - unfold FlatRate.processBaseOptions.
    now rewrite (flatRate_missingColumn _ h Hin Hno).
  - unfold DualRate.processPeakOffPeakOptions.
    now rewrite (dualRate_missingColumn _ h Hin Hno).
  - unfold Tempo.processTempoOptions.
    now rewrite (tempo_missingColumn _ h Hin Hno).
Qed.


Ltac not_in_list :=
  let H := fresh "H" in
  cbv; intros H; repeat (destruct H as [H|H]; [discriminate H|]); exact H.

Lemma missing_header_aborts_converter_witness :
  In "PART_FIXE_TTC" flatRateHeaders
  /\ In "PART_FIXE_TTC" dualRateHeaders
  /\ In "PART_FIXE_TTC" tempoHeaders
  /\ ~ In "PART_FIXE_TTC" (csvHeaders (csvLines csvWithoutFixedPart))
  /\ FlatRate.processBaseOptions csvWithoutFixedPart = Throw requiredColumnsError
  /\ DualRate.processPeakOffPeakOptions csvWithoutFixedPart = Throw requiredColumnsError
  /\ Tempo.processTempoOptions csvWithoutFixedPart = Throw requiredColumnsError.
Proof.
  assert (Hf : In "PART_FIXE_TTC" flatRateHeaders) by (cbv; tauto).
  assert (Hd : In "PART_FIXE_TTC" dualRateHeaders) by (cbv; tauto).
  assert (Ht : In "PART_FIXE_TTC" tempoHeaders) by (cbv; tauto).
  assert (Hno : ~ In "PART_FIXE_TTC" (csvHeaders (csvLines csvWithoutFixedPart)))
    by not_in_list.
  destruct (missing_header_aborts_converter csvWithoutFixedPart "PART_FIXE_TTC")
    as (H1 & H2 & H3).
  repeat split; auto.
Defined.

(* ===================================================================== *)
(** * The loop over the data lines *)
(* ===================================================================== *)

Arguments scaledPrice : simpl never.
Arguments monthlyPrice : simpl never.
Arguments num : simpl never.
Arguments trim : simpl never.

Lemma forEachM_app {A S : Type} (body : S -> A -> outcome S) (xs ys : list A) (s : S) :
  forEachM body (xs ++ ys) s = let* s' := forEachM body xs s in forEachM body ys s'.
Proof.
  revert s. induction xs as [|x xs IH]; intros s; simpl; [reflexivity|].
  destruct (body s x); simpl; [apply IH|reflexivity].
Qed.

(** Lines the body leaves the state unchanged on do not count. *)
Lemma forEachM_skip {A S : Type} (body : S -> A -> outcome S) (xs : list A) (s : S) :
  Forall (fun x => body s x = Return s) xs -> forEachM body xs s = Return s.
Proof.
  induction 1 as [|x xs Hx _ IH]; simpl; [reflexivity|].
  now rewrite Hx.
Qed.

(** An invariant of the body is an invariant of the loop. *)
Lemma forEachM_invariant {A S : Type} (P : S -> Prop) (body : S -> A -> outcome S) :
  (forall s x s', P s -> body s x = Return s' -> P s') ->
  forall xs s s', P s -> forEachM body xs s = Return s' -> P s'.
Proof.
  intros Hbody xs. induction xs as [|x xs IH]; simpl; intros s s' Hs Hrun.
  - now inversion Hrun; subst.
  - destruct (body s x) as [s1|e] eqn:E; simpl in Hrun; [|discriminate].
    eapply IH; [|exact Hrun]. eapply Hbody; eauto.
Qed.

(** ** Appending to a power level *)

Lemma pushGroup_pushGroup (result : gmap string (list PriceObject)) (k : string)
    (xs ys : list PriceObject) :
  (let* result' := pushGroup result k xs in pushGroup result' k ys)
  = pushGroup result k (xs ++ ys).
Proof.
  unfold pushGroup. destruct (result !! k) as [arr|] eqn:E; simpl; [|reflexivity].
  rewrite lookup_insert_eq, insert_insert_eq, <- app_assoc. reflexivity.
Qed.

Lemma pushGroup_three (result : gmap string (list PriceObject)) (k : string)
    (a b c : PriceObject) :
  (let* r1 := pushGroup result k [a] in
   let* r2 := pushGroup r1 k [b] in pushGroup r2 k [c])
  = pushGroup result k [a; b; c].
Proof.
  change [a; b; c] with ([a] ++ [b; c]).
  rewrite <- (pushGroup_pushGroup result k [a] [b; c]).
  destruct (pushGroup result k [a]); simpl; [|reflexivity].
  apply (pushGroup_pushGroup _ _ [b] [c]).
Qed.

(** What a complete row does to [result]: the records are appended to
    the array of the power level, which is created when the key is new;
    a key that names a property of [Object.prototype] raises. *)
Lemma pushGroup_initGroup (result : gmap string (list PriceObject)) (k : string)
    (objs : list PriceObject) :
  pushGroup (initGroup result k) k objs =
  match result !! k with
  | Some arr => Return (<[k := arr ++ objs]> result)
  | None =>
      if inherited k then Throw pushError else Return (<[k := objs]> result)
  end.
Proof.
  unfold pushGroup, initGroup.
  destruct (result !! k) as [arr|] eqn:E; [now rewrite E|].
  destruct (inherited k); [now rewrite E|].
  now rewrite lookup_insert_eq, insert_insert_eq.
Qed.

Lemma at_index_empty_line (i : Z) : truthy (at_index [""] i) = false.
Proof.
  unfold at_index. destruct (i <? 0)%Z; [reflexivity|].
  destruct (Z.to_nat i) as [|[|n]]; reflexivity.
Qed.

Lemma truthy_str (v : option string) : truthy v = true -> v = Some (str v).
Proof. destruct v as [[|c s]|]; simpl; congruence. Qed.

(** ** The loop body of each converter *)

Lemma column_empty_line (rawLine : string) (i : Z) :
  trim rawLine = "" -> truthy (column rawLine i) = false.
Proof. intros E. unfold column. rewrite E. apply at_index_empty_line. Qed.

Ltac line_cases ix rawLine :=
  let E := fresh "E" in
  destruct (String.eqb_spec (trim rawLine) "") as [E|E].

Lemma flatRate_processLine_incomplete ix result rawLine :
  complete (flatRateValues ix rawLine) = false ->
  FlatRate.processLine ix result rawLine = Return result.
Proof.
  unfold complete, flatRateValues, column, FlatRate.processLine. cbn [forallb].
  intros H. destruct (String.eqb (trim rawLine) ""); [reflexivity|].
  repeat match type of H with
         | context [truthy ?v] => destruct (truthy v); cbn [andb negb orb] in *
         end; try reflexivity; discriminate.
Qed.

Lemma flatRate_processLine_complete ix result rawLine :
  complete (flatRateValues ix rawLine) = true ->
  FlatRate.processLine ix result rawLine =
  appendRow result (column rawLine (FlatRate.pSouscriteIndex ix))
    (column rawLine (FlatRate.dateDebutIndex ix))
    (column rawLine (FlatRate.dateFinIndex ix))
    (flatRateRecords ix rawLine).
Proof.
  intros H. unfold FlatRate.processLine.
  line_cases ix rawLine.
  { unfold complete, flatRateValues in H. cbn [forallb] in H.
    rewrite (column_empty_line _ _ E) in H. discriminate H. }
  unfold complete, flatRateValues in H. cbn [forallb] in H.
  fold (column rawLine (FlatRate.pSouscriteIndex ix)).
  fold (column rawLine (FlatRate.dateDebutIndex ix)).
  fold (column rawLine (FlatRate.dateFinIndex ix)).
  fold (column rawLine (FlatRate.partVariableTtcIndex ix)).
  fold (column rawLine (FlatRate.partFixeTtcIndex ix)).
  repeat (apply andb_prop in H; destruct H as [?H H]).
  repeat match goal with Ht : truthy _ = true |- _ => rewrite Ht; clear Ht end.
  cbn [negb orb]. unfold appendRow, flatRateRecords.
  destruct (convertToIsoDate _); [|reflexivity]. cbn [bind].
  destruct (convertEndDate _); [|reflexivity]. cbn [bind].
  apply pushGroup_pushGroup.
Qed.

Lemma dualRate_processLine_incomplete ix result rawLine :
  complete (dualRateValues ix rawLine) = false ->
  DualRate.processLine ix result rawLine = Return result.
Proof.
  unfold complete, dualRateValues, column, DualRate.processLine. cbn [forallb].
  intros H. destruct (String.eqb (trim rawLine) ""); [reflexivity|].
  repeat match type of H with
         | context [truthy ?v] => destruct (truthy v); cbn [andb negb orb] in *
         end; try reflexivity; discriminate.
Qed.

Lemma dualRate_processLine_complete ix result rawLine :
  complete (dualRateValues ix rawLine) = true ->
  DualRate.processLine ix result rawLine =
  appendRow result (column rawLine (DualRate.pSouscriteIndex ix))
    (column rawLine (DualRate.dateDebutIndex ix))
    (column rawLine (DualRate.dateFinIndex ix))
    (dualRateRecords ix rawLine).
Proof.
  intros H. unfold DualRate.processLine.
  line_cases ix rawLine.
  { unfold complete, dualRateValues in H. cbn [forallb] in H.
    rewrite (column_empty_line _ _ E) in H. discriminate H. }
  unfold complete, dualRateValues in H. cbn [forallb] in H.
  fold (column rawLine (DualRate.pSouscriteIndex ix)).
  fold (column rawLine (DualRate.dateDebutIndex ix)).
  fold (column rawLine (DualRate.dateFinIndex ix)).
  fold (column rawLine (DualRate.partVariableHcTtcIndex ix)).
  fold (column rawLine (DualRate.partVariableHpTtcIndex ix)).
  fold (column rawLine (DualRate.partFixeTtcIndex ix)).
  repeat (apply andb_prop in H; destruct H as [?H H]).
  repeat match goal with Ht : truthy _ = true |- _ => rewrite Ht; clear Ht end.
  cbn [negb orb]. unfold appendRow, dualRateRecords.
  destruct (convertToIsoDate _); [|reflexivity]. cbn [bind].
  destruct (convertEndDate _); [|reflexivity]. cbn [bind].
  apply pushGroup_three.
Qed.

Lemma tempo_processLine_incomplete ix result rawLine :
  complete (tempoValues ix rawLine) = false ->
  Tempo.processLine ix result rawLine = Return result.
Proof.
  unfold complete, tempoValues, column, Tempo.processLine. cbn [forallb].
  intros H. destruct (String.eqb (trim rawLine) ""); [reflexivity|].
  repeat match type of H with
         | context [truthy ?v] => destruct (truthy v); cbn [andb negb orb] in *
         end; try reflexivity; discriminate.
Qed.

Lemma tempo_processLine_complete ix result rawLine :
  complete (tempoValues ix rawLine) = true ->
  Tempo.processLine ix result rawLine =
  appendRow result (column rawLine (Tempo.pSouscriteIndex ix))
    (column rawLine (Tempo.dateDebutIndex ix))
    (column rawLine (Tempo.dateFinIndex ix))
    (tempoRecords ix rawLine).
Proof.
  intros H. unfold Tempo.processLine.
  line_cases ix rawLine.
  { unfold complete, tempoValues in H. cbn [forallb] in H.
    rewrite (column_empty_line _ _ E) in H. discriminate H. }
  unfold complete, tempoValues in H. cbn [forallb] in H.
  fold (column rawLine (Tempo.pSouscriteIndex ix)).
  fold (column rawLine (Tempo.dateDebutIndex ix)).
  fold (column rawLine (Tempo.dateFinIndex ix)).
  fold (column rawLine (Tempo.partVariableHcBleuTtcIndex ix)).
  fold (column rawLine (Tempo.partVariableHpBleuTtcIndex ix)).
  fold (column rawLine (Tempo.partVariableHcBlancTtcIndex ix)).
  fold (column rawLine (Tempo.partVariableHpBlancTtcIndex ix)).
  fold (column rawLine (Tempo.partVariableHcRougeTtcIndex ix)).
  fold (column rawLine (Tempo.partVariableHpRougeTtcIndex ix)).
  fold (column rawLine (Tempo.partFixeTtcIndex ix)).
  repeat (apply andb_prop in H; destruct H as [?H H]).
  repeat match goal with Ht : truthy _ = true |- _ => rewrite Ht; clear Ht end.
  cbn [negb orb]. reflexivity.
Qed.

(* ===================================================================== *)
(** * The dual-rate scenario *)
(* ===================================================================== *)

Lemma scenario_prices :
  scaledPrice "0,1234" = num 1234 /\ scaledPrice "0,2345" = num 2345
  /\ monthlyPrice "120,00" = num 100000.
Proof. repeat split; vm_compute; reflexivity. Qed.

Lemma scenario_start_date :
  convertToIsoDate (Some "01/01/2023") = Return (Some "2023-01-01").
Proof. reflexivity. Qed.

(** C3: a dual-rate file whose only complete data row has power level
    6, off-peak price 0,1234, peak price 0,2345, subscription price
    120,00, start date 01/01/2023 and no end date converts to the one
    key "6" bound to the three records of the scenario, whatever the
    order of the columns and whatever incomplete rows surround it. *)
Theorem dual_rate_end_to_end (csvContent header row : string)
    (before after : list string) :
  let ix := DualRate.findIndices (csvHeaders (csvLines csvContent)) in
  csvLines csvContent = header :: before ++ row :: after ->
  DualRate.missingColumn ix = false ->
  Forall (fun l => complete (dualRateValues ix l) = false) (before ++ after) ->
  column row (DualRate.pSouscriteIndex ix) = Some "6" ->
  column row (DualRate.partVariableHcTtcIndex ix) = Some "0,1234" ->
  column row (DualRate.partVariableHpTtcIndex ix) = Some "0,2345" ->
  column row (DualRate.partFixeTtcIndex ix) = Some "120,00" ->
  column row (DualRate.dateDebutIndex ix) = Some "01/01/2023" ->
  truthy (column row (DualRate.dateFinIndex ix)) = false ->
  DualRate.processPeakOffPeakOptions csvContent = Return {[ "6" := scenarioRecords ]}.
Proof.
  intros ix Hlines Hcols Hskip Hp Hhc Hhp Hfix Hstart Hend.
  apply Forall_app in Hskip. destruct Hskip as [Hbefore Hafter].
  unfold DualRate.processPeakOffPeakOptions. fold ix. rewrite Hcols, Hlines.
  cbn [tl]. rewrite forEachM_app.
  rewrite forEachM_skip.
  2:{ eapply Forall_impl; [exact Hbefore|]. intros l Hl.
      now apply dualRate_processLine_incomplete. }
  cbn [bind forEachM].
  rewrite dualRate_processLine_complete.
  2:{ unfold complete, dualRateValues. now rewrite Hp, Hhc, Hhp, Hfix, Hstart. }
  unfold appendRow. rewrite Hstart, scenario_start_date, Hp. cbn [bind].
  unfold convertEndDate. rewrite Hend. cbn [bind].
  rewrite pushGroup_initGroup, lookup_empty.
  change (inherited (str (Some "6"))) with false. cbn [bind str].
  rewrite forEachM_skip.
  2:{ eapply Forall_impl; [exact Hafter|]. intros l Hl.
      now apply dualRate_processLine_incomplete. }
  unfold dualRateRecords. rewrite Hhc, Hhp, Hfix. cbn [str].
  destruct scenario_prices as (-> & -> & ->).
  reflexivity.
Qed.

Lemma dual_rate_end_to_end_witness :
  DualRate.processPeakOffPeakOptions scenarioCsv = Return {[ "6" := scenarioRecords ]}.
Proof.
  apply (dual_rate_end_to_end scenarioCsv
           "DATE_DEBUT;DATE_FIN;P_SOUSCRITE;PART_VARIABLE_HC_TTC;PART_VARIABLE_HP_TTC;PART_FIXE_TTC"
           "01/01/2023;;6;0,1234;0,2345;120,00" [] []);
    try reflexivity.
  constructor.
Defined.

(* ===================================================================== *)
(** * Rows of the calendar-tiered converter *)
(* ===================================================================== *)

Lemma slots_are_half_hour_marks :
  Tempo.peakSlots = join "," peakMarks
  /\ Tempo.offPeakSlots = join "," offPeakMarks
  /\ length peakMarks = 32 /\ length offPeakMarks = 16
  /\ Permutation (offPeakMarks ++ peakMarks) (map mark (seq 0 48)).
Proof.
  repeat split; try reflexivity.
  unfold offPeakMarks, peakMarks. rewrite <- !map_app. apply Permutation_map.
  change (seq 0 48) with (seq 0 12 ++ seq 12 32 ++ seq 44 4).
  rewrite <- app_assoc. apply Permutation_app_head, Permutation_app_comm.
Qed.

Lemma hasSeparator_truthy (s : string) : hasSeparator s -> truthy (Some s) = true.
Proof. destruct s; [contradiction|reflexivity]. Qed.

(** A complete row whose dates convert and whose key is not inherited
    appends its records to the array of its power level. *)
Lemma appendRow_appends (result : gmap string (list PriceObject))
    (power startDate : string) (endDate : option string)
    (records : option string -> option string -> list PriceObject) :
  inherited power = false ->
  hasSeparator startDate ->
  (truthy endDate = false \/ exists e, endDate = Some e /\ hasSeparator e) ->
  exists startDateIso endDateIso,
    convertToIsoDate (Some startDate) = Return startDateIso
    /\ convertEndDate endDate = Return endDateIso
    /\ appendRow result (Some power) (Some startDate) endDate records
       = Return (<[power := default [] (result !! power)
                             ++ records startDateIso endDateIso]> result).
Proof.
  intros Hkey Hstart Hend.
  destruct (convertToIsoDate_with_separator _ Hstart) as [iso Hiso].
  assert (exists endIso, convertEndDate endDate = Return endIso) as [endIso HendIso].
  { unfold convertEndDate. destruct Hend as [->|(e & -> & He)]; [now exists None|].
    rewrite (hasSeparator_truthy _ He).
    destruct (convertToIsoDate_with_separator _ He) as [iso' ->]. now eexists. }
  exists (Some iso), endIso. repeat split; auto.
  unfold appendRow. rewrite Hiso, HendIso. cbn [bind str].
  rewrite pushGroup_initGroup, Hkey.
  destruct (result !! power); reflexivity.
Qed.

(** C4, as the code has it: a row of the calendar-tiered file whose
    nine required values are non-empty, whose start date has a ['/'],
    whose end date is empty or has a ['/'], and whose power level does
    not name a property of [Object.prototype], appends exactly seven
    records to the array of its power level: the six consumption
    records (blue, white, red) x (off-peak, peak) with the literal
    lists of half-hour marks, and one subscription record without hour
    slots and day type. A row missing one of the nine values leaves
    [result] as it is. The peak list is the 32 marks 06:00 to 21:30,
    the off-peak list the other 16. *)
Theorem tempo_row_appends_seven_records (ix : Tempo.indices)
    (result : gmap string (list PriceObject)) (rawLine power startDate : string) :
  (complete (tempoValues ix rawLine) = true ->
   column rawLine (Tempo.pSouscriteIndex ix) = Some power ->
   column rawLine (Tempo.dateDebutIndex ix) = Some startDate ->
   inherited power = false ->
   hasSeparator startDate ->
   (truthy (column rawLine (Tempo.dateFinIndex ix)) = false
    \/ exists e, column rawLine (Tempo.dateFinIndex ix) = Some e /\ hasSeparator e) ->
   exists startDateIso endDateIso,
     let records := tempoRecords ix rawLine startDateIso endDateIso in
     Tempo.processLine ix result rawLine
     = Return (<[power := default [] (result !! power) ++ records]> result)
     /\ length records = 7
     /\ map shape records = tempoShapes
     /\ Forall (fun r => start_date r = startDateIso /\ end_date r = endDateIso) records)
  /\ (complete (tempoValues ix rawLine) = false ->
      Tempo.processLine ix result rawLine = Return result)
  /\ (length peakMarks = 32 /\ length offPeakMarks = 16
      /\ Permutation (offPeakMarks ++ peakMarks) (map mark (seq 0 48))).
Proof.
  split; [|split].
  - intros Hc Hp Hs Hkey Hsep Hend.
    rewrite (tempo_processLine_complete _ _ _ Hc), Hp, Hs.
    destruct (appendRow_appends result power startDate
                (column rawLine (Tempo.dateFinIndex ix)) (tempoRecords ix rawLine)
                Hkey Hsep Hend) as (sd & ed & _ & _ & ->).
    exists sd, ed. cbv zeta. split; [reflexivity|]. split; [reflexivity|].
    split; [reflexivity|]. unfold tempoRecords, Tempo.priceObjects.
    repeat constructor.
  - apply tempo_processLine_incomplete.
  - destruct slots_are_half_hour_marks as (_ & _ & H1 & H2 & H3). auto.
Qed.

Ltac has_separator :=
  unfold hasSeparator; simpl; repeat first [left; reflexivity | right].

Lemma tempo_row_appends_seven_records_witness :
  exists startDateIso endDateIso,
    let records := tempoRecords tempoIndices tempoRow startDateIso endDateIso in
    Tempo.processLine tempoIndices ∅ tempoRow
    = Return (<["9" := default [] ((∅ : gmap string (list PriceObject)) !! "9")
                       ++ records]> ∅)
    /\ length records = 7
    /\ map shape records = tempoShapes
    /\ Forall (fun r => start_date r = startDateIso /\ end_date r = endDateIso) records.
Proof.
  destruct (tempo_row_appends_seven_records tempoIndices ∅ tempoRow "9" "01/02/2023")
    as [H _].
  apply H.
  - vm_compute. reflexivity.
  - vm_compute. reflexivity.
  - vm_compute. reflexivity.
  - reflexivity.
  - has_separator.
  - left. vm_compute. reflexivity.
Defined.

(** C4 as stated fails: each of these two rows has its nine required
    values non-empty, and the loop body raises on it, so that the whole
    conversion of a file holding it is aborted and nothing is appended:
    one has a start date without ['/'], the other a power level that
    names a property of [Object.prototype]. *)
Lemma tempo_complete_rows_that_raise :
  complete (tempoValues tempoIndices tempoRowWithoutSeparator) = true
  /\ Tempo.processLine tempoIndices ∅ tempoRowWithoutSeparator = Throw padStartError
  /\ Tempo.processTempoOptions (csvFile tempoHeaderLine [tempoRowWithoutSeparator])
     = Throw padStartError
  /\ complete (tempoValues tempoIndices tempoRowWithInheritedKey) = true
  /\ Tempo.processLine tempoIndices ∅ tempoRowWithInheritedKey = Throw pushError
  /\ Tempo.processTempoOptions (csvFile tempoHeaderLine [tempoRowWithInheritedKey])
     = Throw pushError.
Proof. repeat split; vm_compute; reflexivity. Qed.

(* ===================================================================== *)
(** * Temporal coverage of the converters' output *)
(* ===================================================================== *)

Lemma covered_nil : covered [].
Proof. intros c []. Qed.

Lemma covered_app (xs ys : list PriceObject) :
  covered xs -> covered ys -> covered (xs ++ ys).
Proof.
  intros Hx Hy c Hin Hc. apply in_app_or in Hin. destruct Hin as [Hin|Hin].
  - destruct (Hx c Hin Hc) as (s & Hs & Hrest). exists s. split; [|exact Hrest].
    apply in_or_app. now left.
  - destruct (Hy c Hin Hc) as (s & Hs & Hrest). exists s. split; [|exact Hrest].
    apply in_or_app. now right.
Qed.

(** The records of one row share their dates and end with the
    subscription record. *)
Lemma covered_row (records : list PriceObject) (s : PriceObject) :
  In s records -> price_type s = "subscription" ->
  Forall (fun r => sameDates s r) records ->
  covered records.
Proof.
  intros Hs Hsub Hall c Hc _. exists s. split; [exact Hs|]. split; [exact Hsub|].
  rewrite Forall_forall in Hall. apply Hall. now apply list_elem_of_In.
Qed.

Lemma flatRateRecords_covered ix rawLine sd ed :
  covered (flatRateRecords ix rawLine sd ed).
Proof.
  eapply covered_row with (s := FlatRate.subscriptionPriceObject sd ed _).
  - right. left. reflexivity.
  - reflexivity.
  - repeat constructor.
Qed.

Lemma dualRateRecords_covered ix rawLine sd ed :
  covered (dualRateRecords ix rawLine sd ed).
Proof.
  eapply covered_row with (s := DualRate.subscriptionPriceObject sd ed _).
  - right. right. left. reflexivity.
  - reflexivity.
  - repeat constructor.
Qed.

Lemma tempoRecords_covered ix rawLine sd ed :
  covered (tempoRecords ix rawLine sd ed).
Proof.
  eapply covered_row with (s := Tempo.subscriptionObject sd ed _).
  - unfold tempoRecords, Tempo.priceObjects. do 6 right. left. reflexivity.
  - reflexivity.
  - repeat constructor.
Qed.

Lemma allCovered_empty : allCovered ∅.
Proof. intros power prices H. rewrite lookup_empty in H. discriminate H. Qed.

Lemma allCovered_insert (result : gmap string (list PriceObject)) (k : string)
    (prices : list PriceObject) :
  allCovered result -> covered prices -> allCovered (<[k := prices]> result).
Proof.
  intros Hall Hc power ps Hlook.
  destruct (decide (k = power)) as [->|Hne].
  - rewrite lookup_insert_eq in Hlook. now inversion Hlook; subst.
  - rewrite lookup_insert_ne in Hlook by exact Hne. eapply Hall, Hlook.
Qed.

Lemma appendRow_covered (result result' : gmap string (list PriceObject))
    (power startDate endDate : option string)
    (records : option string -> option string -> list PriceObject) :
  (forall sd ed, covered (records sd ed)) ->
  allCovered result ->
  appendRow result power startDate endDate records = Return result' ->
  allCovered result'.
Proof.
  intros Hrec Hall. unfold appendRow.
  destruct (convertToIsoDate startDate) as [sd|]; [|discriminate]. cbn [bind].
  destruct (convertEndDate endDate) as [ed|]; [|discriminate]. cbn [bind].
  rewrite pushGroup_initGroup.
  destruct (result !! str power) as [arr|] eqn:E.
  - intros H. inversion H; subst. apply allCovered_insert; [exact Hall|].
    apply covered_app; [eapply Hall, E|apply Hrec].
  - destruct (inherited (str power)); [discriminate|].
    intros H. inversion H; subst. apply allCovered_insert; [exact Hall|apply Hrec].
Qed.

Lemma flatRate_processLine_covered ix result rawLine result' :
  allCovered result -> FlatRate.processLine ix result rawLine = Return result' ->
  allCovered result'.
Proof.
  intros Hall. destruct (complete (flatRateValues ix rawLine)) eqn:E.
  - rewrite (flatRate_processLine_complete _ _ _ E).
    apply appendRow_covered; [apply flatRateRecords_covered|exact Hall].
  - rewrite (flatRate_processLine_incomplete _ _ _ E). intros H. now inversion H; subst.
Qed.

Lemma dualRate_processLine_covered ix result rawLine result' :
  allCovered result -> DualRate.processLine ix result rawLine = Return result' ->
  allCovered result'.
Proof.
  intros Hall. destruct (complete (dualRateValues ix rawLine)) eqn:E.
  - rewrite (dualRate_processLine_complete _ _ _ E).
    apply appendRow_covered; [apply dualRateRecords_covered|exact Hall].
  - rewrite (dualRate_processLine_incomplete _ _ _ E). intros H. now inversion H; subst.
Qed.

Lemma tempo_processLine_covered ix result rawLine result' :
  allCovered result -> Tempo.processLine ix result rawLine = Return result' ->
  allCovered result'.
Proof.
  intros Hall. destruct (complete (tempoValues ix rawLine)) eqn:E.
  - rewrite (tempo_processLine_complete _ _ _ E).
    apply appendRow_covered; [apply tempoRecords_covered|exact Hall].
  - rewrite (tempo_processLine_incomplete _ _ _ E). intros H. now inversion H; subst.
Qed.

Lemma converters_covered (csvContent : string) (result : gmap string (list PriceObject)) :
  FlatRate.processBaseOptions csvContent = Return result
  \/ DualRate.processPeakOffPeakOptions csvContent = Return result
  \/ Tempo.processTempoOptions csvContent = Return result ->
  allCovered result.
Proof.
  intros [H|[H|H]].
  - unfold FlatRate.processBaseOptions in H.
    destruct (FlatRate.missingColumn _); [discriminate|].
    eapply forEachM_invariant; [|apply allCovered_empty|exact H].
    intros s x s' Hs Hb. eapply flatRate_processLine_covered; eauto.
  - unfold DualRate.processPeakOffPeakOptions in H.
    destruct (DualRate.missingColumn _); [discriminate|].
    eapply forEachM_invariant; [|apply allCovered_empty|exact H].
    intros s x s' Hs Hb. eapply dualRate_processLine_covered; eauto.
  - unfold Tempo.processTempoOptions in H.
    destruct (Tempo.missingColumn _); [discriminate|].
    eapply forEachM_invariant; [|apply allCovered_empty|exact H].
    intros s x s' Hs Hb. eapply tempo_processLine_covered; eauto.
Qed.

(* ===================================================================== *)
(** * The validator *)
(* ===================================================================== *)

Lemma outcome_unit_cases (x : outcome unit) : x = Return tt \/ raises x.
Proof. destruct x as [[]|e]; [now left|right; now exists e]. Qed.

Lemma checkAll_Return {A : Type} (check : A -> outcome unit) (xs : list A) :
  Validator.checkAll check xs = Return tt ->
  forall x, In x xs -> check x = Return tt.
Proof.
  unfold Validator.checkAll. induction xs as [|y xs IH]; simpl; intros H x Hin.
  - contradiction.
  - destruct (check y) as [[]|e] eqn:E; simpl in H; [|discriminate].
    destruct Hin as [<-|Hin]; [exact E|now apply IH].
Qed.

Lemma checkAll_all {A : Type} (check : A -> outcome unit) (xs : list A) :
  (forall x, In x xs -> check x = Return tt) ->
  Validator.checkAll check xs = Return tt.
Proof.
  unfold Validator.checkAll. induction xs as [|y xs IH]; simpl; intros H.
  - reflexivity.
  - rewrite (H y) by now left. simpl. apply IH. intros x Hx. apply H. now right.
Qed.

Lemma checkAll_raises {A : Type} (check : A -> outcome unit) (xs : list A) (x : A) :
  In x xs -> raises (check x) -> raises (Validator.checkAll check xs).
Proof.
  intros Hin Hx. destruct (outcome_unit_cases (Validator.checkAll check xs)) as [H|H].
  - rewrite (checkAll_Return _ _ H x Hin) in Hx. now apply not_raises_Return in Hx.
  - exact H.
Qed.

(** The per-record check on a record whose price is a number: the
    [typeof] test holds, and the template literal shows the number. *)
Lemma validatePriceObject_typed (p : PriceObject) (label : string) :
  Validator.validatePriceObject p label =
  if negb (Validator.includes Validator.validContracts (contract p)) then
    Throw (Error ("Invalid contract value in " +:+ label
                  +:+ ": expected one of 'base', 'peak-off-peak', 'edf-tempo', got '"
                  +:+ contract p +:+ "'"))
  else if negb (Validator.includes ["consumption"; "subscription"] (price_type p)) then
    Throw (Error ("Invalid price_type in " +:+ label
                  +:+ ": expected 'consumption' or 'subscription', got '"
                  +:+ price_type p +:+ "'"))
  else if negb (String.eqb (currency p) "euro") then
    Throw (Error ("Invalid currency in " +:+ label
                  +:+ ": expected 'euro', got '" +:+ currency p +:+ "'"))
  else if ltb64 (price p) (num 0) then
    Throw (invalidPrice label (Number_toString (price p)))
  else if negb (Validator.dateRegex_test (Validator.show (start_date p))) then
    Throw (Error ("Invalid start_date format in " +:+ label
                  +:+ ": expected YYYY-MM-DD, got '"
                  +:+ Validator.show (start_date p) +:+ "'"))
  else if truthy (end_date p)
          && negb (Validator.dateRegex_test (Validator.show (end_date p))) then
    Throw (Error ("Invalid end_date format in " +:+ label
                  +:+ ": expected YYYY-MM-DD or null, got '"
                  +:+ Validator.show (end_date p) +:+ "'"))
  else Return true.
Proof. reflexivity. Qed.

Arguments parsedOf : simpl never.
Arguments Validator.validatePriceObject : simpl never.

Lemma validatePriceObject_dates (p : PriceObject) (label : string) (b : bool) :
  Validator.validatePriceObject p label = Return b -> validDates p.
Proof.
  rewrite validatePriceObject_typed. unfold validDates.
  repeat match goal with
         | |- context [if ?c then Throw _ else _] => destruct c eqn:?; [discriminate|]
         end.
  intros _.
  match goal with H : negb (Validator.dateRegex_test _) = false |- _ =>
    apply negb_false_iff in H; split; [exact H|] end.
  match goal with H : (truthy _ && negb _)%bool = false |- _ =>
    apply andb_false_iff in H; destruct H as [H|H];
    [now left|right; now apply negb_false_iff in H] end.
Qed.

Lemma validatePrices_dates (contractType power : string) (prices : list PriceObject) :
  forall i, Validator.validatePrices contractType power i prices = Return tt ->
  forall p, In p prices -> validDates p.
Proof.
  induction prices as [|q prices IH]; simpl; intros i H p Hin; [contradiction|].
  destruct (Validator.validatePriceObject q _) as [b|e] eqn:E; [|discriminate].
  destruct Hin as [<-|Hin]; [eapply validatePriceObject_dates, E|eapply IH; eauto].
Qed.

Lemma validatePower_dates (contractType power : string) (prices : list PriceObject) :
  Validator.validatePower contractType (power, prices) = Return tt ->
  forall p, In p prices -> validDates p.
Proof.
  unfold Validator.validatePower.
  destruct (Nat.eqb (length prices) 0); [discriminate|].
  destruct (Validator.validatePrices contractType power 0 prices) as [[]|e] eqn:E;
    [|discriminate].
  intros _. eapply validatePrices_dates, E.
Qed.

(** ** Date ranges *)

Lemma dateRegex_test_length (s : string) :
  Validator.dateRegex_test s = true -> String.length s = 10.
Proof.
  unfold Validator.dateRegex_test. intros H.
  rewrite <- (string_of_list_ascii_of_string s).
  destruct (list_ascii_of_string s) as [|c1 [|c2 [|c3 [|c4 [|c5 [|c6 [|c7 [|c8 [|c9 [|c10 [|c11 l]]]]]]]]]]];
    try discriminate H; reflexivity.
Qed.

Lemma append_same_length (a b x y : string) :
  String.length a = String.length b -> a +:+ x = b +:+ y -> a = b /\ x = y.
Proof.
  revert b. induction a as [|c a IH]; intros [|d b] Hlen Heq; simpl in *;
    try discriminate Hlen.
  - now split.
  - injection Heq as -> Heq. injection Hlen as Hlen.
    destruct (IH b Hlen Heq) as [-> ->]. now split.
Qed.

Lemma show_valid_start (v : option string) :
  Validator.dateRegex_test (Validator.show v) = true ->
  exists s, v = Some s /\ String.length s = 10.
Proof.
  destruct v as [s|]; simpl; intros H; [|discriminate H].
  exists s. split; [reflexivity|now apply dateRegex_test_length].
Qed.

Lemma show_valid_end (v w : option string) :
  (truthy v = false \/ Validator.dateRegex_test (Validator.show v) = true) ->
  (truthy w = false \/ Validator.dateRegex_test (Validator.show w) = true) ->
  Validator.show v = Validator.show w -> v = w.
Proof.
  intros Hv Hw Heq.
  destruct v as [s|], w as [t|]; simpl in *.
  - now subst.
  - subst s. destruct Hv as [Hv|Hv]; discriminate Hv.
  - subst t. destruct Hw as [Hw|Hw]; discriminate Hw.
  - reflexivity.
Qed.

(** Two checked records with the same date range string have the same
    dates. *)
Lemma dateRange_same_dates (a b : PriceObject) :
  validDates a -> validDates b ->
  Validator.dateRange a = Validator.dateRange b -> sameDates a b.
Proof.
  intros [Ha Ha'] [Hb Hb'] Heq. unfold Validator.dateRange, sameDates in *.
  destruct (show_valid_start _ Ha) as (sa & Esa & La).
  destruct (show_valid_start _ Hb) as (sb & Esb & Lb).
  rewrite Esa, Esb in *. simpl in Heq.
  apply append_same_length in Heq; [|congruence].
  destruct Heq as [-> Heq]. split; [reflexivity|].
  injection Heq as Heq. now apply show_valid_end.
Qed.

Lemma includes_In (arr : list string) (x : string) :
  Validator.includes arr x = true -> In x arr.
Proof.
  unfold Validator.includes. rewrite existsb_exists.
  intros (y & Hy & E). apply String.eqb_eq in E. now subst.
Qed.

(** What the date-range check of step 7 establishes for one power
    level whose records passed the per-record check. *)
Lemma checkCoverage_covered (contractType power : string) (prices : list PriceObject) :
  (forall p, In p prices -> validDates p) ->
  Validator.checkCoverage contractType (power, prices) = Return tt ->
  covered prices.
Proof.
  intros Hvalid Hcheck c Hc Hcons. unfold Validator.checkCoverage in Hcheck.
  pose proof (checkAll_Return _ _ Hcheck (Validator.dateRange c)) as H.
  lapply H.
  2:{ apply in_map, filter_In. split; [exact Hc|].
      unfold Validator.isConsumption. now rewrite Hcons. }
  clear H. intros H.
  destruct (Validator.includes _ _) eqn:E; [|discriminate H].
  apply includes_In, in_map_iff in E. destruct E as (s & Hs & Hin).
  apply filter_In in Hin. destruct Hin as [Hin Hsub].
  exists s. split; [exact Hin|]. split.
  - now apply String.eqb_eq in Hsub.
  - apply dateRange_same_dates; auto.
Qed.

Lemma runTests_covered (contractsData : Validator.contracts) :
  Validator.runTests contractsData = Return tt ->
  forall contractType contractData power prices,
    In (contractType, contractData) contractsData ->
    In (power, prices) contractData ->
    covered prices.
Proof.
  unfold Validator.runTests. intros H contractType contractData power prices Hct Hp.
  destruct (Validator.validateStructure contractsData) as [[]|] eqn:Hs; [|discriminate].
  cbn [bind] in H.
  destruct (Validator.checkExpected contractsData) as [[]|]; [|discriminate].
  cbn [bind] in H.
  destruct (Validator.validateConsistency contractsData) as [[]|] eqn:Hc; [|discriminate].
  clear H.
  pose proof (checkAll_Return _ _ Hs _ Hct) as Hs'. cbn beta iota in Hs'.
  pose proof (checkAll_Return _ _ Hs' _ Hp) as Hs''.
  pose proof (checkAll_Return _ _ Hc _ Hct) as Hc'. cbn beta iota in Hc'.
  pose proof (checkAll_Return _ _ Hc' _ Hp) as Hc''.
  eapply checkCoverage_covered; [|exact Hc''].
  eapply validatePower_dates, Hs''.
Qed.

(* ===================================================================== *)
(** * Numeric policy *)
(* ===================================================================== *)

Lemma half_up_nearest (p h : Z) :
  (0 < h)%Z -> nearestTiesUp p (2 * h) ((p + h) / (2 * h)).
Proof.
  intros Hh. unfold nearestTiesUp.
  pose proof (Z.div_mod (p + h) (2 * h) ltac:(lia)) as Hdm.
  pose proof (Z.mod_pos_bound (p + h) (2 * h) ltac:(lia)) as Hb.
  set (n := ((p + h) / (2 * h))%Z) in *.
  set (r := ((p + h) mod (2 * h))%Z) in *.
  nia.
Qed.

Lemma half_up_is_half_away (p h : Z) :
  (0 < p)%Z -> (0 < h)%Z ->
  ((p + h) / (2 * h))%Z = roundHalfAwayFromZero p (2 * h).
Proof.
  intros Hp Hh. unfold roundHalfAwayFromZero.
  rewrite Z.sgn_pos, Z.abs_eq, Z.mul_1_l by lia.
  replace (2 * p + 2 * h)%Z with (2 * (p + h))%Z by lia.
  rewrite Z.div_mul_cancel_l by lia. reflexivity.
Qed.

Lemma pow2_split (e : Z) : (e < 0)%Z -> (2 ^ (- e) = 2 * 2 ^ (- e - 1))%Z.
Proof.
  intros He. replace (- e)%Z with (Z.succ (- e - 1)) at 1 by lia.
  apply Z.pow_succ_r. lia.
Qed.

(** C7, as the code has it: the first comma of the price string is
    replaced by a point, the string is read as a binary64 number and
    multiplied by 10000 in binary64. When that product is the finite
    number [(-1)^sg * m * 2^e], the price is the product itself if
    [0 <= e] (it is integral), and otherwise the integer nearest to
    it, the upper one on a tie; for a positive product that integer is
    the one rounding half away from zero gives. A product that is a
    zero, an infinity or NaN is the price as it is. *)
Theorem scaled_price_rounds_half_up (s : string) :
  match mul64 (parseFloat (replace "," "." s)) (num 10000) with
  | S754_finite sg m e =>
      let p := cond_Zopp sg (Z.pos m) in
      ((0 <= e)%Z -> scaledPrice s = S754_finite sg m e)
      /\ ((e < 0)%Z ->
          exists n, scaledPrice s = numberOfInteger n sg
                    /\ nearestTiesUp p (2 ^ (- e)) n
                    /\ (sg = false -> n = roundHalfAwayFromZero p (2 ^ (- e))))
  | x => scaledPrice s = x
  end.
Proof.
  unfold scaledPrice.
  destruct (mul64 (parseFloat (replace "," "." s)) (num 10000)) as [sg|sg| |sg m e];
    cbv beta iota; try reflexivity.
  set (p := cond_Zopp sg (Z.pos m)). unfold Math_round. split.
  - intros He. apply Z.leb_le in He. now rewrite He.
  - intros He. assert (Hneg : (0 <=? e)%Z = false) by (apply Z.leb_gt; lia).
    rewrite Hneg. fold p.
    assert (Hh : (0 < 2 ^ (- e - 1))%Z) by (apply Z.pow_pos_nonneg; lia).
    rewrite (pow2_split e He).
    exists ((p + 2 ^ (- e - 1)) / (2 * 2 ^ (- e - 1)))%Z.
    split; [reflexivity|]. split.
    + now apply half_up_nearest.
    + intros ->. apply half_up_is_half_away; [|exact Hh]. unfold p. simpl. lia.
Qed.

Lemma scaled_price_rounds_half_up_witness :
  exists n, scaledPrice "0,12345" = numberOfInteger n false
            /\ nearestTiesUp 5429388417957888 (2 ^ 42) n
            /\ (false = false -> n = roundHalfAwayFromZero 5429388417957888 (2 ^ 42)).
Proof.
  pose proof (scaled_price_rounds_half_up "0,12345") as H.
  assert (E : mul64 (parseFloat (replace "," "." "0,12345")) (num 10000)
              = S754_finite false 5429388417957888 (-42))
    by (vm_compute; reflexivity).
  rewrite E in H. destruct H as [_ H]. apply H. lia.
Defined.

(** C7 as stated fails, twice. The price string ["-0,03125"] denotes
    -312.5 after scaling, a tie: half away from zero is -313, the code
    yields -312. The price string ["0,00015"] denotes 1.5 after
    scaling: half away from zero is 2, the code yields 1, because the
    binary64 product is just below 1.5. *)
Lemma scaled_price_not_half_away_from_zero :
  policyPrice "-0,03125" = Some (-313)%Z
  /\ scaledPrice "-0,03125" = num (-312)
  /\ num (-312) <> num (-313)
  /\ policyPrice "0,00015" = Some 2%Z
  /\ scaledPrice "0,00015" = num 1
  /\ num 1 <> num 2.
Proof. repeat split; try (vm_compute; reflexivity); vm_compute; discriminate. Qed.

(* ===================================================================== *)
(** * Prices at zero *)
(* ===================================================================== *)

Lemma zero_not_negative (x : number) : isZero x -> ltb64 x (num 0) = false.
Proof. intros [sg ->]. reflexivity. Qed.

Lemma zero_not_positive (x : number) : isZero x -> leb64 x (num 0) = true.
Proof. intros [sg ->]. reflexivity. Qed.

(** The per-record check, given that the tests on the other fields
    pass: it rejects exactly the prices below 0. *)
Lemma validatePriceObject_price (p : PriceObject) (label : string) :
  otherFieldsValid p ->
  Validator.validatePriceObject p label =
  if ltb64 (price p) (num 0)
  then Throw (invalidPrice label (Number_toString (price p)))
  else Return true.
Proof.
  intros (Hc & Ht & Hcur & Hstart & Hend). rewrite validatePriceObject_typed.
  rewrite Hc, Ht, Hcur. cbn [negb String.eqb]. change ("euro" =? "euro")%string with true.
  cbn [negb]. destruct (ltb64 (price p) (num 0)); [reflexivity|].
  rewrite Hstart. cbn [negb].
  destruct Hend as [-> | ->]; [reflexivity|]. now rewrite andb_false_r.
Qed.

Lemma validatePriceObject_other_fields (p : PriceObject) (label : string) (b : bool) :
  Validator.validatePriceObject p label = Return b ->
  otherFieldsValid p /\ ltb64 (price p) (num 0) = false.
Proof.
  intros H. pose proof (validatePriceObject_dates _ _ _ H) as Hd.
  rewrite validatePriceObject_typed in H.
  repeat match type of H with
         | (if ?c then Throw _ else _) = _ => destruct c eqn:?; [discriminate H|]
         end.
  repeat match goal with
         | Hn : negb _ = false |- _ => apply negb_false_iff in Hn
         end.
  split; [|reflexivity]. repeat split; try assumption; try apply Hd.
  now apply String.eqb_eq.
Qed.

Lemma exclusive_types (p : PriceObject) :
  Validator.isConsumption p = true -> Validator.isSubscription p = false.
Proof.
  unfold Validator.isConsumption, Validator.isSubscription.
  intros H. apply String.eqb_eq in H. now rewrite H.
Qed.

Lemma zeroConsumption_fields (p : PriceObject) :
  contract (zeroConsumption p) = contract p
  /\ price_type (zeroConsumption p) = price_type p
  /\ currency (zeroConsumption p) = currency p
  /\ start_date (zeroConsumption p) = start_date p
  /\ end_date (zeroConsumption p) = end_date p
  /\ hour_slots (zeroConsumption p) = hour_slots p
  /\ day_type (zeroConsumption p) = day_type p.
Proof. unfold zeroConsumption. destruct (Validator.isConsumption p); repeat split. Qed.

Lemma zeroConsumption_validatePriceObject (p : PriceObject) (label : string) (b : bool) :
  Validator.validatePriceObject p label = Return b ->
  Validator.validatePriceObject (zeroConsumption p) label = Return true.
Proof.
  intros H. apply validatePriceObject_other_fields in H.
  destruct H as [(Hc & Ht & Hcur & Hstart & Hend) Hprice].
  destruct (zeroConsumption_fields p) as (E1 & E2 & E3 & E4 & E5 & _).
  rewrite validatePriceObject_price.
  - unfold zeroConsumption. destruct (Validator.isConsumption p); [reflexivity|].
    now rewrite Hprice.
  - unfold otherFieldsValid, validDates. now rewrite E1, E2, E3, E4, E5.
Qed.

Lemma zeroConsumption_validatePrices (contractType power : string)
    (prices : list PriceObject) :
  forall i, Validator.validatePrices contractType power i prices = Return tt ->
  Validator.validatePrices contractType power i (map zeroConsumption prices) = Return tt.
Proof.
  induction prices as [|p prices IH]; simpl; intros i H; [reflexivity|].
  destruct (Validator.validatePriceObject p _) as [b|] eqn:E; [|discriminate].
  rewrite (zeroConsumption_validatePriceObject _ _ _ E). now apply IH.
Qed.

Lemma zeroConsumption_subscriptions (prices : list PriceObject) :
  List.filter Validator.isSubscription (map zeroConsumption prices)
  = List.filter Validator.isSubscription prices.
Proof.
  induction prices as [|p prices IH]; simpl; [reflexivity|].
  unfold zeroConsumption at 1 2.
  destruct (Validator.isConsumption p) eqn:E.
  - unfold Validator.isSubscription at 1. cbn [withPrice price_type].
    fold (Validator.isSubscription p). now rewrite (exclusive_types _ E).
  - destruct (Validator.isSubscription p); [f_equal|]; exact IH.
Qed.

Lemma zeroConsumption_consumptions (prices : list PriceObject) :
  List.filter Validator.isConsumption (map zeroConsumption prices)
  = map zeroConsumption (List.filter Validator.isConsumption prices).
Proof.
  induction prices as [|p prices IH]; simpl; [reflexivity|].
  destruct (zeroConsumption_fields p) as (_ & E & _).
  unfold Validator.isConsumption at 1. rewrite E.
  fold (Validator.isConsumption p).
  destruct (Validator.isConsumption p); [simpl; f_equal|]; exact IH.
Qed.

Lemma zeroConsumption_checkConsumption (contractType : string) (p : PriceObject) :
  Validator.checkConsumption contractType (zeroConsumption p)
  = Validator.checkConsumption contractType p.
Proof.
  destruct (zeroConsumption_fields p) as (_ & _ & _ & _ & _ & E6 & E7).
  unfold Validator.checkConsumption. now rewrite E6, E7.
Qed.

Lemma checkAll_map {A B : Type} (f : A -> B) (check : B -> outcome unit) (xs : list A) :
  Validator.checkAll check (map f xs) = Validator.checkAll (fun x => check (f x)) xs.
Proof.
  unfold Validator.checkAll. induction xs as [|x xs IH]; simpl; [reflexivity|].
  destruct (check (f x)) as [[]|]; simpl; [exact IH|reflexivity].
Qed.

Lemma checkAll_ext {A : Type} (check check' : A -> outcome unit) (xs : list A) :
  (forall x, check x = check' x) ->
  Validator.checkAll check xs = Validator.checkAll check' xs.
Proof.
  intros H. unfold Validator.checkAll. induction xs as [|x xs IH]; simpl; [reflexivity|].
  rewrite H. destruct (check' x) as [[]|]; simpl; [exact IH|reflexivity].
Qed.

Lemma zeroConsumption_requirements (prices : list PriceObject) (contractType : string) :
  Validator.validateContractSpecificRequirements (map zeroConsumption prices) contractType
  = Validator.validateContractSpecificRequirements prices contractType.
Proof.
  unfold Validator.validateContractSpecificRequirements.
  rewrite zeroConsumption_subscriptions, zeroConsumption_consumptions, checkAll_map.
  rewrite (checkAll_ext _ _ _ (zeroConsumption_checkConsumption contractType)).
  reflexivity.
Qed.

Lemma zeroConsumption_validatePower (contractType power : string)
    (prices : list PriceObject) :
  Validator.validatePower contractType (power, prices) = Return tt ->
  Validator.validatePower contractType (power, map zeroConsumption prices) = Return tt.
Proof.
  unfold Validator.validatePower. rewrite length_map.
  destruct (Nat.eqb (length prices) 0); [discriminate|].
  destruct (Validator.validatePrices contractType power 0 prices) as [[]|] eqn:E;
    [|discriminate].
  rewrite (zeroConsumption_validatePrices _ _ _ _ E). cbn [bind].
  now rewrite zeroConsumption_requirements.
Qed.

Lemma zeroConsumption_dateRanges (prices : list PriceObject) :
  map Validator.dateRange (map zeroConsumption prices) = map Validator.dateRange prices.
Proof.
  rewrite map_map. apply map_ext. intros p.
  destruct (zeroConsumption_fields p) as (_ & _ & _ & E4 & E5 & _).
  unfold Validator.dateRange. now rewrite E4, E5.
Qed.

Lemma zeroConsumption_checkCoverage (contractType power : string)
    (prices : list PriceObject) :
  Validator.checkCoverage contractType (power, map zeroConsumption prices)
  = Validator.checkCoverage contractType (power, prices).
Proof.
  unfold Validator.checkCoverage.
  rewrite zeroConsumption_subscriptions, zeroConsumption_consumptions.
  now rewrite zeroConsumption_dateRanges.
Qed.

Lemma zeroConsumption_validateStructure (contractsData : Validator.contracts) :
  Validator.validateStructure contractsData = Return tt ->
  Validator.validateStructure (zeroConsumptionPrices contractsData) = Return tt.
Proof.
  unfold Validator.validateStructure, zeroConsumptionPrices. intros H.
  apply checkAll_all. intros [contractType contractData'] Hin.
  apply in_map_iff in Hin. destruct Hin as ([ct contractData] & E & Hin).
  injection E as <- <-.
  pose proof (checkAll_Return _ _ H _ Hin) as H'. cbn beta iota in H'.
  apply checkAll_all. intros [power prices'] Hin'.
  apply in_map_iff in Hin'. destruct Hin' as ([pw prices] & E & Hin').
  injection E as <- <-.
  apply zeroConsumption_validatePower. exact (checkAll_Return _ _ H' _ Hin').
Qed.

Lemma zeroConsumption_types (contractsData : Validator.contracts) :
  map fst (zeroConsumptionPrices contractsData) = map fst contractsData.
Proof.
  unfold zeroConsumptionPrices. rewrite map_map. apply map_ext.
  now intros [contractType contractData].
Qed.

Lemma zeroConsumption_validateConsistency (contractsData : Validator.contracts) :
  Validator.validateConsistency (zeroConsumptionPrices contractsData)
  = Validator.validateConsistency contractsData.
Proof.
  unfold Validator.validateConsistency, zeroConsumptionPrices.
  rewrite checkAll_map. apply checkAll_ext. intros [contractType contractData].
  rewrite checkAll_map. apply checkAll_ext. intros [power prices].
  apply zeroConsumption_checkCoverage.
Qed.

Lemma zeroConsumption_totalSubscription (contractsData : Validator.contracts) :
  Validator.totalSubscription (zeroConsumptionPrices contractsData)
  = Validator.totalSubscription contractsData.
Proof.
  unfold Validator.totalSubscription, zeroConsumptionPrices.
  rewrite map_map. f_equal. apply map_ext. intros [contractType contractData].
  rewrite map_map. f_equal. apply map_ext. intros [power prices].
  now rewrite zeroConsumption_subscriptions.
Qed.

Lemma zeroConsumption_runTests (contractsData : Validator.contracts) :
  Validator.runTests contractsData = Return tt ->
  Validator.runTests (zeroConsumptionPrices contractsData) = Return tt.
Proof.
  unfold Validator.runTests. intros H.
  destruct (Validator.validateStructure contractsData) as [[]|] eqn:Hs; [|discriminate].
  rewrite (zeroConsumption_validateStructure _ Hs). cbn [bind] in *.
  unfold Validator.checkExpected in *. rewrite zeroConsumption_types.
  destruct (Validator.checkAll _ Validator.expectedContracts) as [[]|]; [|discriminate].
  cbn [bind] in *.
  rewrite zeroConsumption_validateConsistency, zeroConsumption_totalSubscription.
  exact H.
Qed.

(** ** Subscription records *)

Lemma checkSubscription_zero (contractType : string) (s : PriceObject) :
  isZero (price s) -> raises (Validator.checkSubscription contractType s).
Proof.
  intros Hz. unfold Validator.checkSubscription.
  destruct (hour_slots s); [apply raises_Throw|].
  destruct (day_type s); [apply raises_Throw|].
  rewrite (zero_not_positive _ Hz). apply raises_Throw.
Qed.

Lemma requirements_zero_subscription (prices : list PriceObject)
    (contractType : string) (s : PriceObject) :
  In s prices -> price_type s = "subscription" -> isZero (price s) ->
  raises (Validator.validateContractSpecificRequirements prices contractType).
Proof.
  intros Hin Hsub Hz. unfold Validator.validateContractSpecificRequirements.
  destruct (Nat.eqb _ 0); [apply raises_Throw|].
  apply bind_raises. apply checkAll_raises with (x := s).
  - apply filter_In. split; [exact Hin|].
    unfold Validator.isSubscription. now rewrite Hsub.
  - now apply checkSubscription_zero.
Qed.

Lemma validatePower_zero_subscription (contractType power : string)
    (prices : list PriceObject) (s : PriceObject) :
  In s prices -> price_type s = "subscription" -> isZero (price s) ->
  raises (Validator.validatePower contractType (power, prices)).
Proof.
  intros Hin Hsub Hz. unfold Validator.validatePower.
  destruct (Nat.eqb (length prices) 0); [apply raises_Throw|].
  destruct (Validator.validatePrices contractType power 0 prices) as [[]|e];
    [|apply raises_Throw].
  cbn [bind]. eapply requirements_zero_subscription; eauto.
Qed.

(** The per-record check on any parsed price, given that the tests on
    the other fields pass. *)
Lemma validatePriceObject_value (p : PriceObject) (v : value) (label : string) :
  otherFieldsValid p ->
  Validator.validatePriceObject (withValue p v) label =
  match v with
  | VNumber x =>
      if ltb64 x (num 0) then Throw (invalidPrice label (Number_toString x))
      else Return true
  | _ => let* shown := toString v in Throw (invalidPrice label shown)
  end.
Proof.
  intros (Hc & Ht & Hcur & Hstart & Hend). unfold Validator.validatePriceObject.
  cbn [withValue Parsed.contract Parsed.price_type Parsed.currency Parsed.price
       Parsed.start_date Parsed.end_date].
  rewrite Hc, Ht, Hcur. cbn [negb]. change ("euro" =? "euro")%string with true.
  cbn [negb].
  assert (Hdates : (if negb (Validator.dateRegex_test (Validator.show (start_date p)))
                    then Throw (Error ("Invalid start_date format in " +:+ label
                                       +:+ ": expected YYYY-MM-DD, got '"
                                       +:+ Validator.show (start_date p) +:+ "'"))
                    else if truthy (end_date p)
                            && negb (Validator.dateRegex_test
                                       (Validator.show (end_date p)))
                    then Throw (Error ("Invalid end_date format in " +:+ label
                                       +:+ ": expected YYYY-MM-DD or null, got '"
                                       +:+ Validator.show (end_date p) +:+ "'"))
                    else Return true) = Return true).
  { rewrite Hstart. cbn [negb].
    destruct Hend as [-> | ->]; [reflexivity|]. now rewrite andb_false_r. }
  destruct v as [|b|x|t|elements|properties]; try reflexivity.
  destruct (ltb64 x (num 0)); [reflexivity|exact Hdates].
Qed.

(** C9: given that the tests on the other fields pass, the per-record
    check accepts a price exactly when it is a number that is not
    below 0, so it accepts the price 0; a number below 0 is rejected
    with "Invalid price in ...: expected positive number, got" and the
    number, and a price that is no number ([null], a boolean, a string,
    an array, an object) is rejected, with the same message and what
    the template literal gives for it, or with the [TypeError] of a
    conversion that raises. A document that passes the validator
    still passes with the price of every consumption record set to 0.
    The subscription check rejects exactly the prices [<= 0], with
    "Subscription price in ... should be positive, got" and the price,
    which is "0" for a price 0; a subscription record with price 0
    makes the contract-specific validation and the whole validation
    fail. *)
Theorem zero_price_boundary :
  (forall p label, otherFieldsValid p ->
     (forall x, isZero x ->
        Validator.validatePriceObject (withValue p (VNumber x)) label = Return true)
     /\ (forall x, ltb64 x (num 0) = false ->
           Validator.validatePriceObject (withValue p (VNumber x)) label = Return true)
     /\ (forall x, ltb64 x (num 0) = true ->
           Validator.validatePriceObject (withValue p (VNumber x)) label
           = Throw (invalidPrice label (Number_toString x)))
     /\ (forall v, isNumber v = false ->
           raises (Validator.validatePriceObject (withValue p v) label)
           /\ (forall shown, toString v = Return shown ->
                 Validator.validatePriceObject (withValue p v) label
                 = Throw (invalidPrice label shown))
           /\ (forall e, toString v = Throw e ->
                 Validator.validatePriceObject (withValue p v) label = Throw e)))
  /\ (forall contractsData,
        Validator.runTests contractsData = Return tt ->
        Validator.runTests (zeroConsumptionPrices contractsData) = Return tt)
  /\ (forall contractType s,
        hour_slots s = None -> day_type s = None ->
        (isZero (price s) ->
         Validator.checkSubscription contractType s = Throw (notPositive contractType "0"))
        /\ (leb64 (price s) (num 0) = true ->
            Validator.checkSubscription contractType s
            = Throw (notPositive contractType (Number_toString (price s))))
        /\ (leb64 (price s) (num 0) = false ->
            Validator.checkSubscription contractType s = Return tt))
  /\ (forall contractsData contractType contractData power prices s,
        In (contractType, contractData) contractsData ->
        In (power, prices) contractData ->
        In s prices -> price_type s = "subscription" -> isZero (price s) ->
        raises (Validator.validateContractSpecificRequirements prices contractType)
        /\ raises (Validator.runTests contractsData)).
Proof.
  split; [|split; [|split]].
  - intros p label Hother. split; [|split; [|split]].
    + intros x Hz. rewrite (validatePriceObject_value p _ label Hother).
      now rewrite (zero_not_negative _ Hz).
    + intros x Hx. rewrite (validatePriceObject_value p _ label Hother).
      now rewrite Hx.
    + intros x Hx. rewrite (validatePriceObject_value p _ label Hother).
      now rewrite Hx.
    + intros v Hv. rewrite (validatePriceObject_value p v label Hother).
      destruct v as [|b|x|t|elements|properties]; try discriminate Hv.
      all: split; [destruct (toString _) as [shown|e]; apply raises_Throw|].
      all: split; [intros shown -> | intros e ->]; reflexivity.
  - exact zeroConsumption_runTests.
  - intros contractType s Hh Hd. unfold Validator.checkSubscription.
    rewrite Hh, Hd. split; [|split].
    + intros Hz. rewrite (zero_not_positive _ Hz). destruct Hz as [sg ->]. reflexivity.
    + now intros ->.
    + now intros ->.
  - intros contractsData contractType contractData power prices s Hct Hp Hs Hsub Hz.
    split; [eapply requirements_zero_subscription; eauto|].
    unfold Validator.runTests. apply bind_raises.
    unfold Validator.validateStructure.
    apply checkAll_raises with (x := (contractType, contractData)); [exact Hct|].
    cbn beta iota.
    apply checkAll_raises with (x := (power, prices)); [exact Hp|].
    eapply validatePower_zero_subscription; eauto.
Qed.

Lemma zero_price_boundary_witness :
  Validator.validatePriceObject (validRecord "base" "consumption" (num 0) None None)
    "edf-base[6][0]" = Return true
  /\ Validator.validatePriceObject
       (withValue (validRecord "base" "consumption" (num 0) None None)
          (VNumber (num (-1)))) "edf-base[6][0]"
     = Throw (Error "Invalid price in edf-base[6][0]: expected positive number, got -1")
  /\ Validator.validatePriceObject
       (withValue (validRecord "base" "consumption" (num 0) None None) VNull)
       "edf-base[6][0]"
     = Throw (Error "Invalid price in edf-base[6][0]: expected positive number, got null")
  /\ Validator.runTests (zeroConsumptionPrices validContractsData) = Return tt
  /\ Validator.checkSubscription "edf-base"
       (validRecord "base" "subscription" (num 0) None None)
     = Throw (Error "Subscription price in edf-base should be positive, got 0")
  /\ Validator.runTests zeroSubscriptionContracts
     = Throw (Error "Subscription price in edf-base should be positive, got 0")
  /\ raises (Validator.runTests zeroSubscriptionContracts).
Proof.
  destruct zero_price_boundary as (H1 & H2 & H3 & H4).
  assert (Hz : isZero (num 0)) by (exists false; reflexivity).
  assert (Hother : otherFieldsValid (validRecord "base" "consumption" (num 0) None None)).
  { repeat split; try reflexivity. left. reflexivity. }
  destruct (H1 _ "edf-base[6][0]" Hother) as (Hzero & _ & Hbelow & Hvalue).
  split; [exact (Hzero (num 0) Hz)|].
  split; [exact (Hbelow (num (-1)) eq_refl)|].
  split; [exact (proj1 (proj2 (Hvalue VNull eq_refl)) "null" eq_refl)|].
  split; [apply H2; vm_compute; reflexivity|].
  split; [exact (proj1 (H3 "edf-base" (validRecord "base" "subscription" (num 0) None None)
                          eq_refl eq_refl) Hz)|].
  split; [vm_compute; reflexivity|].
  destruct (H4 zeroSubscriptionContracts "edf-base"
              [("6", zeroSubscriptionPrices)] "6" zeroSubscriptionPrices
              (validRecord "base" "subscription" (num 0) None None)) as [_ H];
    [left; reflexivity|left; reflexivity|right; left; reflexivity
    |reflexivity|exact Hz|exact H].
Defined.

(* ===================================================================== *)
(** * The store of the catalog converters *)
(* ===================================================================== *)

Section StoreFacts.
Context {Obj : Type} (emptyObject : Obj).

Lemma readObject_app (objs ext : list Obj) (arrs : list (list nat)) (l : nat) :
  l < length objs ->
  readObject emptyObject {| objects := objs ++ ext; arrays := arrs |} l
  = readObject emptyObject {| objects := objs; arrays := arrs |} l.
Proof.
  intros Hl. unfold readObject. cbn [objects].
  now rewrite lookup_app_l by exact Hl.
Qed.

(** Copying entries that exist allocates one new object per entry,
    after the objects of the store, with the properties of the entry. *)
Lemma copyEntries_spec (entries : list nat) :
  forall h : heap Obj,
  Forall (fun l => l < length (objects h)) entries ->
  copyEntries emptyObject h entries
  = (seq (length (objects h)) (length entries),
     {| objects := objects h ++ map (readObject emptyObject h) entries;
        arrays := arrays h |}).
Proof.
  induction entries as [|l entries IH]; intros [objs arrs] Hall; cbn [objects arrays] in *.
  - simpl. now rewrite app_nil_r.
  - apply Forall_cons in Hall. destruct Hall as [Hl Hall].
    cbn [copyEntries newObject objects arrays].
    rewrite IH; cbn [objects arrays].
    2:{ eapply Forall_impl; [exact Hall|]. intros x Hx. cbn beta in Hx.
        rewrite length_app. cbn [length]. lia. }
    rewrite length_app. cbn [length]. rewrite Nat.add_1_r.
    cbn [seq map]. f_equal. f_equal. rewrite <- app_assoc. cbn [app]. do 2 f_equal.
    apply map_ext_in. intros x Hx.
    apply readObject_app.
    rewrite Forall_forall in Hall. apply Hall. now apply list_elem_of_In.
Qed.

Lemma records_writeArray (h : heap Obj) (a b : nat) (elems : list nat) :
  a <> b -> records emptyObject (writeArray h a elems) b = records emptyObject h b.
Proof.
  intros Hne. unfold records, readArray, readObject, writeArray. cbn [objects arrays].
  now rewrite list_lookup_insert_ne by exact Hne.
Qed.

Lemma records_writeObject (h : heap Obj) (l b : nat) (o : Obj) :
  ~ In l (readArray h b) ->
  records emptyObject (writeObject h l o) b = records emptyObject h b.
Proof.
  intros Hno. unfold records.
  change (readArray (writeObject h l o) b) with (readArray h b).
  apply map_ext_in. intros l' Hl'. unfold readObject, writeObject. cbn [objects].
  rewrite list_lookup_insert_ne; [reflexivity|]. intros ->. contradiction.
Qed.

End StoreFacts.

Section InvariantFacts.
Context {Obj : Type} (emptyObject : Obj) (h0 : heap Obj) (entries : list nat).
Variable before : string -> nat.
Variable extra : list nat -> Prop.

Local Abbreviation inv := (stepInvariant emptyObject h0 entries before extra).
Local Abbreviation emitted := (emittedAt h0 before).
Local Abbreviation copies := (copiesAt h0 entries).

Lemma allocated_app (keys keys' : list string) :
  allocated before (keys ++ keys')
  = allocated before keys + allocated before keys'.
Proof. unfold allocated. now rewrite map_app, list_sum_app. Qed.

Lemma allocated_take (keys : list string) (i : nat) :
  i < length keys ->
  allocated before (take (S i) keys)
  = allocated before (take i keys) + S (before (nth i keys "")).
Proof.
  revert i. induction keys as [|k keys IH]; intros i Hi; cbn [length] in Hi; [lia|].
  destruct i as [|i].
  - unfold allocated. simpl. lia.
  - specialize (IH i ltac:(lia)). unfold allocated in *. simpl in *. lia.
Qed.

Lemma allocated_take_le (keys : list string) (i j : nat) :
  i <= j -> allocated before (take i keys) <= allocated before (take j keys).
Proof.
  intros Hij. replace j with (i + (j - i)) by lia.
  rewrite <- take_take_drop. rewrite allocated_app. lia.
Qed.

Lemma emittedAt_next (done : list string) (i : nat) :
  i < length done ->
  emitted done i < length (arrays h0) + allocated before (take (S i) done).
Proof. intros Hi. unfold emittedAt. rewrite allocated_take by exact Hi. lia. Qed.

Lemma emittedAt_bound (done : list string) (i : nat) :
  i < length done -> emitted done i < length (arrays h0) + allocated before done.
Proof.
  intros Hi. pose proof (emittedAt_next done i Hi) as H.
  pose proof (allocated_take_le done (S i) (length done) ltac:(lia)) as H'.
  rewrite firstn_all in H'. lia.
Qed.

Lemma emittedAt_lt (done : list string) (i j : nat) :
  i < j -> j < length done -> emitted done i < emitted done j.
Proof.
  intros Hij Hj. pose proof (emittedAt_next done i ltac:(lia)) as H.
  pose proof (allocated_take_le done (S i) j ltac:(lia)) as H'.
  unfold emittedAt at 2. lia.
Qed.

Lemma emittedAt_app (done keys : list string) (i : nat) :
  i < length done -> emitted (done ++ keys) i = emitted done i.
Proof.
  intros Hi. unfold emittedAt.
  rewrite take_app_le by lia. now rewrite app_nth1 by exact Hi.
Qed.

Lemma emittedAt_last (done : list string) (k : string) :
  emitted (done ++ [k]) (length done)
  = length (arrays h0) + allocated before done + before k.
Proof.
  unfold emittedAt. rewrite take_app_length.
  rewrite app_nth2 by lia. now rewrite Nat.sub_diag.
Qed.

Lemma copiesAt_disjoint (i j l : nat) :
  i <> j -> In l (copies i) -> ~ In l (copies j).
Proof. unfold copiesAt. rewrite !in_seq. nia. Qed.

Lemma copiesAt_fresh (i l : nat) : In l (copies i) -> ~ l < length (objects h0).
Proof. unfold copiesAt. rewrite in_seq. nia. Qed.

Lemma stepInvariant_start : inv [] (∅, h0).
Proof.
  unfold stepInvariant. cbn [fst snd length].
  split; [exists []; now rewrite app_nil_r|].
  split; [exists []; now rewrite app_nil_r|].
  split; [intros i Hi; lia|]. split; [intros i Hi; lia|].
  split; [intros k a H; now rewrite lookup_empty in H|].
  split; [intros k1 k2 a1 a2 _ H; now rewrite lookup_empty in H|].
  intros k. rewrite lookup_empty. split.
  - intros [x Hx]. discriminate Hx.
  - intros [[] _].
Qed.

Lemma map_read_appended (objs ext : list Obj) (arrs : list (list nat)) :
  map (readObject emptyObject {| objects := objs ++ ext; arrays := arrs |})
      (seq (length objs) (length ext)) = ext.
Proof.
  apply list_eq. intros t. rewrite list_lookup_fmap.
  destruct (ext !! t) as [x|] eqn:E.
  - rewrite lookup_seq_lt by (eapply lookup_lt_Some, E). cbn [fmap option_fmap option_map].
    unfold readObject. cbn [objects].
    rewrite lookup_app_r by lia.
    replace (length objs + t - length objs) with t by lia. now rewrite E.
  - rewrite lookup_seq_ge by (eapply lookup_ge_None, E). reflexivity.
Qed.

(** One call of the callback: it appends the copies to the objects,
    [before k] arrays and one more to the arrays, and assigns the last
    one. *)
Lemma stepInvariant_step (done : list string) (result : gmap string nat)
    (h h' : heap Obj) (k : string) (newArrays : list (list nat)) (subs : list nat) :
  inv done (result, h) ->
  objects h' = objects h ++ map (readObject emptyObject h0) entries ->
  arrays h' = arrays h ++ newArrays ->
  length newArrays = S (before k) ->
  newArrays !! before k = Some (copies (length done) ++ subs) ->
  Forall (fun l => l < length (objects h0)) subs ->
  extra subs ->
  inv (done ++ [k]) (setProperty result k (length (arrays h) + before k), h').
Proof.
  intros (Hobj & Harr & Hemit & Hcopy & Hres & Hdist & Hdom) Ho Ha Hlen Hnew Hsubs
    Hextra.
  cbn [fst snd] in *.
  destruct Hobj as (oext & Eo & Lo). destruct Harr as (aext & Ea & La).
  assert (Elen : length (arrays h) = length (arrays h0) + allocated before done).
  { rewrite Ea, length_app. lia. }
  assert (Eolen : length (objects h) = length (objects h0) + length done * length entries).
  { rewrite Eo, length_app. lia. }
  assert (Ej : length (arrays h) + before k = emitted (done ++ [k]) (length done)).
  { rewrite emittedAt_last. lia. }
  unfold stepInvariant. cbn [fst snd]. rewrite length_app. cbn [length].
  rewrite Nat.add_1_r.
  split; [|split; [|split; [|split; [|split; [|split]]]]].
  - exists (oext ++ map (readObject emptyObject h0) entries).
    rewrite Ho, Eo, <- app_assoc, length_app, length_map. split; [reflexivity|lia].
  - exists (aext ++ newArrays).
    rewrite Ha, Ea, <- app_assoc, length_app, allocated_app.
    split; [reflexivity|]. rewrite Hlen. unfold allocated at 2. simpl. lia.
  - intros i Hi. destruct (decide (i < length done)) as [Hlt|Hge].
    + destruct (Hemit i Hlt) as (s & Hs & Hsf). exists s. split; [|exact Hsf].
      rewrite emittedAt_app by exact Hlt.
      rewrite Ha. rewrite lookup_app_l; [exact Hs|].
      pose proof (emittedAt_bound done i Hlt). lia.
    + assert (i = length done) as -> by lia. exists subs. split; [|now split].
      rewrite Ha, <- Ej, lookup_app_r by lia.
      replace (length (arrays h) + before k - length (arrays h)) with (before k)
        by lia.
      exact Hnew.
  - intros i Hi. destruct (decide (i < length done)) as [Hlt|Hge].
    + rewrite <- (Hcopy i Hlt). apply map_ext_in. intros l Hl.
      unfold readObject. rewrite Ho. rewrite lookup_app_l; [reflexivity|].
      unfold copiesAt in Hl. apply in_seq in Hl. nia.
    + assert (i = length done) as -> by lia. unfold copiesAt.
      rewrite <- Eolen.
      rewrite <- (length_map (readObject emptyObject h0) entries).
      destruct h' as [objs' arrs']. cbn [objects arrays] in *. subst objs'.
      apply map_read_appended.
  - intros k' a Hk. unfold setProperty in Hk.
    destruct (String.eqb k "__proto__").
    + destruct (Hres k' a Hk) as (i & Hi & ->). exists i.
      split; [lia|now rewrite emittedAt_app].
    + destruct (decide (k = k')) as [<-|Hne].
      * rewrite lookup_insert_eq in Hk. injection Hk as <-.
        exists (length done). split; [lia|exact Ej].
      * rewrite lookup_insert_ne in Hk by exact Hne.
        destruct (Hres k' a Hk) as (i & Hi & ->). exists i.
        split; [lia|now rewrite emittedAt_app].
  - intros k1 k2 a1 a2 Hne H1 H2. unfold setProperty in H1, H2.
    destruct (String.eqb k "__proto__"); [now apply (Hdist k1 k2)|].
    destruct (decide (k = k1)) as [E1|Hk1], (decide (k = k2)) as [E2|Hk2];
      try subst k1; try subst k2.
    + congruence.
    + rewrite lookup_insert_eq in H1. rewrite lookup_insert_ne in H2 by exact Hk2.
      injection H1 as <-. destruct (Hres k2 a2 H2) as (i & Hi & ->).
      pose proof (emittedAt_bound done i Hi). lia.
    + rewrite lookup_insert_eq in H2. rewrite lookup_insert_ne in H1 by exact Hk1.
      injection H2 as <-. destruct (Hres k1 a1 H1) as (i & Hi & ->).
      pose proof (emittedAt_bound done i Hi). lia.
    + rewrite lookup_insert_ne in H1 by exact Hk1.
      rewrite lookup_insert_ne in H2 by exact Hk2. now apply (Hdist k1 k2).
  - intros k'. unfold setProperty, ownKey. rewrite in_app_iff. cbn [In].
    destruct (String.eqb_spec k "__proto__") as [->|Hp].
    + rewrite Hdom. unfold ownKey. intuition congruence.
    + destruct (decide (k = k')) as [->|Hne].
      * rewrite lookup_insert_eq. split; [intros _; split; [right; now left|exact Hp]|].
        intros _. now eexists.
      * rewrite lookup_insert_ne by exact Hne. rewrite Hdom. unfold ownKey.
        intuition congruence.
Qed.

(** Two distinct keys of [result] are bound to distinct arrays whose
    copies are distinct objects, created by the converter. *)
Lemma stepInvariant_separate (done : list string) (result : gmap string nat)
    (h : heap Obj) (p q : string) (a b : nat) :
  inv done (result, h) -> p <> q -> result !! p = Some a -> result !! q = Some b ->
  a <> b
  /\ length (arrays h0) <= a
  /\ (exists i subs, readArray h a = copies i ++ subs
                     /\ extra subs
                     /\ map (readObject emptyObject h) (copies i)
                        = map (readObject emptyObject h0) entries
                     /\ forall l, In l (copies i) ->
                          ~ l < length (objects h0) /\ ~ In l (readArray h b)).
Proof.
  intros (Hobj & Harr & Hemit & Hcopy & Hres & Hdist & Hdom) Hne Hp Hq.
  cbn [fst snd] in *.
  destruct (Hres p a Hp) as (i & Hi & ->). destruct (Hres q b Hq) as (j & Hj & ->).
  pose proof (Hdist p q _ _ Hne Hp Hq) as Hab.
  split; [exact Hab|]. split; [unfold emittedAt; lia|].
  destruct (Hemit i Hi) as (subs & Hs & _ & Hextra).
  destruct (Hemit j Hj) as (subs' & Hs' & Hold & _).
  exists i, subs. unfold readArray. rewrite Hs, Hs'. cbn [default].
  split; [reflexivity|]. split; [exact Hextra|]. split; [now apply Hcopy|].
  intros l Hl. split; [now apply copiesAt_fresh in Hl|].
  intros Hin. apply in_app_or in Hin. destruct Hin as [Hin|Hin].
  - revert Hin. apply copiesAt_disjoint with (i := i); [|exact Hl]. congruence.
  - rewrite Forall_forall in Hold. apply list_elem_of_In, Hold in Hin.
    now apply copiesAt_fresh in Hl.
Qed.

End InvariantFacts.

Section CatalogFacts.
Context {Obj : Type} (emptyObject : Obj) (h0 : heap Obj) (contractData : nat).
Variable subscriptionData : list (string * option nat).
Hypothesis Hparsed : parsed h0 contractData subscriptionData.

Local Abbreviation entries := (readArray h0 contractData).

Lemma closed_readArray (a : nat) :
  Forall (fun l => l < length (objects h0)) (readArray h0 a).
Proof.
  destruct Hparsed as (Hclosed & _). unfold readArray.
  destruct (arrays h0 !! a) as [elems|] eqn:E; cbn [default]; [|constructor].
  unfold closed in Hclosed. rewrite Forall_forall in Hclosed.
  apply Hclosed. eapply list_elem_of_lookup_2, E.
Qed.

Lemma readArray_extended (h : heap Obj) (ext : list (list nat)) (a : nat) :
  arrays h = arrays h0 ++ ext -> a < length (arrays h0) ->
  readArray h a = readArray h0 a.
Proof.
  intros E Ha. unfold readArray. rewrite E. now rewrite lookup_app_l by exact Ha.
Qed.

Lemma map_readObject_extended (h : heap Obj) (ext : list Obj) (ls : list nat) :
  objects h = objects h0 ++ ext ->
  Forall (fun l => l < length (objects h0)) ls ->
  map (readObject emptyObject h) ls = map (readObject emptyObject h0) ls.
Proof.
  intros E Hls. apply map_ext_in. intros l Hl. unfold readObject. rewrite E.
  rewrite lookup_app_l; [reflexivity|].
  rewrite Forall_forall in Hls. apply Hls. now apply list_elem_of_In.
Qed.

Lemma property_parsed (power : string) (a : nat) :
  Catalog.property subscriptionData power = Some a -> a < length (arrays h0).
Proof.
  destruct Hparsed as (_ & _ & Hsub). clear Hparsed.
  induction subscriptionData as [|[k v] data IH]; simpl; [discriminate|].
  apply Forall_cons in Hsub. destruct Hsub as [Hv Hsub].
  destruct (String.eqb k power); [|now apply IH].
  intros ->. exact Hv.
Qed.

(** The copies of one call, as the invariant names them. *)
Lemma copyEntries_step (done : list string) (result : gmap string nat) (h : heap Obj)
    (before : string -> nat) (extra : list nat -> Prop) :
  stepInvariant emptyObject h0 entries before extra done (result, h) ->
  readArray h contractData = entries
  /\ copyEntries emptyObject h entries
     = (copiesAt h0 entries (length done),
        {| objects := objects h ++ map (readObject emptyObject h0) entries;
           arrays := arrays h |}).
Proof.
  intros ((oext & Eo & Lo) & (aext & Ea & La) & _). cbn [fst snd] in *.
  destruct Hparsed as (_ & Hcd & _).
  split; [now apply (readArray_extended h aext)|].
  rewrite copyEntries_spec.
  - unfold copiesAt. rewrite Eo at 1. rewrite length_app, Lo.
    rewrite (map_readObject_extended h oext); [reflexivity|exact Eo|].
    apply closed_readArray.
  - eapply Forall_impl; [apply closed_readArray|].
    intros l Hl. cbn beta in *. rewrite Eo, length_app. lia.
Qed.

Lemma catalog_step (done : list string) (st : gmap string nat * heap Obj)
    (power : string) :
  stepInvariant emptyObject h0 entries (arraysBefore subscriptionData)
    (fun _ => True) done st ->
  stepInvariant emptyObject h0 entries (arraysBefore subscriptionData)
    (fun _ => True) (done ++ [power])
    (Catalog.forEachPower emptyObject contractData subscriptionData st power).
Proof.
  destruct st as [result h]. intros Hinv.
  destruct (copyEntries_step _ _ _ _ _ Hinv) as [Hread Hcopy].
  pose proof Hinv as ((oext & Eo & Lo) & (aext & Ea & La) & _). cbn [fst snd] in *.
  unfold Catalog.forEachPower. rewrite Hread, Hcopy.
  cbn [newArray objects arrays].
  assert (Hat : forall (objs : list Obj) (front back : list (list nat)) elems,
             readArray {| objects := objs; arrays := front ++ elems :: back |}
               (length front) = elems).
  { intros objs front back elems. unfold readArray. cbn [arrays].
    rewrite lookup_app_r by lia. now rewrite Nat.sub_diag. }
  destruct (Catalog.property subscriptionData power) as [a|] eqn:E.
  - cbn [newArray objects arrays].
    rewrite (Hat _ (arrays h) []). rewrite length_app. cbn [length].
    set (subs := readArray _ a).
    assert (Hsubs : Forall (fun l => l < length (objects h0)) subs).
    { unfold subs. erewrite (readArray_extended _ (aext ++ [_])).
      - apply closed_readArray.
      - cbn [arrays]. rewrite Ea, <- app_assoc. reflexivity.
      - eapply property_parsed, E. }
    replace (length (arrays h) + 1)
      with (length (arrays h) + arraysBefore subscriptionData power)
      by (unfold arraysBefore; now rewrite E).
    eapply stepInvariant_step with
      (newArrays := [copiesAt h0 entries (length done);
                     copiesAt h0 entries (length done) ++ subs]) (subs := subs).
    + exact Hinv.
    + reflexivity.
    + cbn [arrays]. now rewrite <- app_assoc.
    + unfold arraysBefore. now rewrite E.
    + unfold arraysBefore. now rewrite E.
    + exact Hsubs.
    + exact I.
  - cbn [newArray objects arrays].
    rewrite <- (app_assoc (arrays h) [_] [[]]). cbn [app].
    rewrite (Hat _ (arrays h) [[]]).
    replace (readArray _ (length (arrays h ++ [copiesAt h0 entries (length done)])))
      with (@nil nat).
    2:{ unfold readArray. cbn [arrays]. rewrite length_app. cbn [length].
        rewrite lookup_app_r by lia.
        now replace (length (arrays h) + 1 - length (arrays h)) with 1 by lia. }
    rewrite length_app. cbn [length].
    replace (length (arrays h) + 2)
      with (length (arrays h) + arraysBefore subscriptionData power)
      by (unfold arraysBefore; now rewrite E).
    eapply stepInvariant_step with
      (newArrays := [copiesAt h0 entries (length done); [];
                     copiesAt h0 entries (length done) ++ []]) (subs := []).
    + exact Hinv.
    + reflexivity.
    + cbn [arrays]. now rewrite <- app_assoc.
    + unfold arraysBefore. now rewrite E.
    + unfold arraysBefore. now rewrite E.
    + constructor.
    + exact I.
Qed.

Lemma fixed_step (done : list string) (st : gmap string nat * heap Obj)
    (power : string) :
  stepInvariant emptyObject h0 entries (fun _ => 0) (fun subs => subs = []) done st ->
  stepInvariant emptyObject h0 entries (fun _ => 0) (fun subs => subs = [])
    (done ++ [power])
    (FixedCatalog.forEachPower emptyObject contractData st power).
Proof.
  destruct st as [result h]. intros Hinv.
  destruct (copyEntries_step _ _ _ _ _ Hinv) as [Hread Hcopy].
  unfold FixedCatalog.forEachPower. rewrite Hread, Hcopy.
  cbn [newArray objects arrays].
  rewrite <- (Nat.add_0_r (length (arrays h))).
  eapply stepInvariant_step with
    (newArrays := [copiesAt h0 entries (length done)]) (subs := []).
  - exact Hinv.
  - reflexivity.
  - reflexivity.
  - reflexivity.
  - cbn [lookup list_lookup]. now rewrite app_nil_r.
  - constructor.
  - reflexivity.
Qed.

Lemma fold_invariant (before : string -> nat) (extra : list nat -> Prop)
    (step : gmap string nat * heap Obj -> string -> gmap string nat * heap Obj) :
  (forall done st power,
     stepInvariant emptyObject h0 entries before extra done st ->
     stepInvariant emptyObject h0 entries before extra (done ++ [power])
       (step st power)) ->
  forall keys done st,
    stepInvariant emptyObject h0 entries before extra done st ->
    stepInvariant emptyObject h0 entries before extra (done ++ keys)
      (fold_left step keys st).
Proof.
  intros Hstep keys. induction keys as [|k keys IH]; intros done st Hinv; simpl.
  - now rewrite app_nil_r.
  - replace (done ++ k :: keys) with ((done ++ [k]) ++ keys)
      by now rewrite <- app_assoc.
    apply IH, Hstep, Hinv.
Qed.

(** From the invariant to the isolation of two lists. *)
Lemma stepInvariant_isolated (before : string -> nat) (extra : list nat -> Prop)
    (done : list string) (result : gmap string nat) (h : heap Obj)
    (p q : string) (a b : nat) :
  stepInvariant emptyObject h0 entries before extra done (result, h) ->
  p <> q -> result !! p = Some a -> result !! q = Some b ->
  isolated emptyObject h0 contractData h a b.
Proof.
  intros Hinv Hne Hp Hq.
  destruct (stepInvariant_separate emptyObject h0 entries before extra
              done result h p q a b Hinv Hne Hp Hq)
    as (Hab & _ & i & subs & Ha & _ & Hcopies & Hfresh).
  unfold isolated. cbv zeta. rewrite Ha.
  assert (Htake : take (length entries) (copiesAt h0 entries i ++ subs)
                  = copiesAt h0 entries i).
  { rewrite take_app_le by (unfold copiesAt; rewrite length_seq; lia).
    apply take_ge. unfold copiesAt. rewrite length_seq. lia. }
  rewrite Htake.
  split; [exact Hab|]. split; [exact Hcopies|]. split; [|split].
  - intros l Hl. destruct (Hfresh l Hl) as [Hold Hb]. split; [|exact Hb].
    intros Hin. apply Hold. pose proof (closed_readArray contractData) as Hc.
    rewrite Forall_forall in Hc. apply Hc. now apply list_elem_of_In.
  - intros elems. now apply records_writeArray.
  - intros l o Hl. apply records_writeObject. now apply Hfresh.
Qed.

End CatalogFacts.

Lemma stepInvariant_emitted {Obj : Type} (emptyObject : Obj) (h0 : heap Obj)
    (entries : list nat) (before : string -> nat) (extra : list nat -> Prop)
    (done : list string) (result : gmap string nat) (h : heap Obj)
    (k : string) (a : nat) :
  stepInvariant emptyObject h0 entries before extra done (result, h) ->
  result !! k = Some a ->
  length (arrays h0) <= a
  /\ exists i subs, readArray h a = copiesAt h0 entries i ++ subs
                    /\ extra subs
                    /\ map (readObject emptyObject h) (copiesAt h0 entries i)
                       = map (readObject emptyObject h0) entries
                    /\ Forall (fun l => length (objects h0) <= l) (copiesAt h0 entries i).
Proof.
  intros (_ & _ & Hemit & Hcopy & Hres & _) Hk. cbn [fst snd] in *.
  destruct (Hres k a Hk) as (i & Hi & ->). split; [unfold emittedAt; lia|].
  destruct (Hemit i Hi) as (subs & Hs & _ & Hextra).
  exists i, subs. unfold readArray. rewrite Hs. cbn [default].
  split; [reflexivity|]. split; [exact Hextra|]. split; [now apply Hcopy|].
  rewrite Forall_forall. intros l Hl. apply list_elem_of_In in Hl.
  unfold copiesAt in Hl. apply in_seq in Hl. lia.
Qed.

Lemma parsed_without_table {Obj : Type} (h0 : heap Obj) (contractData : nat)
    (subscriptionData : list (string * option nat)) :
  parsed h0 contractData subscriptionData -> parsed h0 contractData [].
Proof. intros (Hc & Hcd & _). repeat split; auto. Qed.

Lemma catalog_invariant {Obj : Type} (emptyObject : Obj) (h0 : heap Obj)
    (contractData : nat) (subscriptionData : list (string * option nat)) :
  parsed h0 contractData subscriptionData ->
  stepInvariant emptyObject h0 (readArray h0 contractData)
    (arraysBefore subscriptionData) (fun _ => True)
    (map fst subscriptionData)
    (Catalog.processBaseOptions emptyObject h0 contractData subscriptionData).
Proof.
  intros Hparsed. unfold Catalog.processBaseOptions.
  apply (fold_invariant emptyObject h0 contractData
           (arraysBefore subscriptionData) (fun _ => True) _
           (catalog_step emptyObject h0 contractData subscriptionData Hparsed)
           (map fst subscriptionData) []).
  apply stepInvariant_start.
Qed.

Lemma fixed_invariant {Obj : Type} (emptyObject : Obj) (h0 : heap Obj)
    (contractData : nat) :
  parsed h0 contractData [] ->
  stepInvariant emptyObject h0 (readArray h0 contractData) (fun _ => 0)
    (fun subs => subs = [])
    FixedCatalog.subscribedPowers
    (FixedCatalog.processBaseOptions emptyObject h0 contractData).
Proof.
  intros Hparsed. unfold FixedCatalog.processBaseOptions.
  apply (fold_invariant emptyObject h0 contractData (fun _ => 0)
           (fun subs => subs = []) _
           (fixed_step emptyObject h0 contractData [] Hparsed)
           FixedCatalog.subscribedPowers []).
  apply stepInvariant_start.
Qed.

Lemma ownKey_fixed (k : string) :
  ownKey FixedCatalog.subscribedPowers k <-> In k FixedCatalog.subscribedPowers.
Proof.
  unfold ownKey. split; [now intros [H _]|]. intros H. split; [exact H|].
  intros ->. revert H. not_in_list.
Qed.

(** C8: in what a static-catalog converter returns from parsed
    documents, the lists of two distinct power levels are distinct
    arrays; the consumption records of one are new objects, copies of
    the catalog entries, that are neither catalog entries nor elements
    of the other list; so replacing the elements of one list, or
    assigning the properties of one of its consumption records, leaves
    the records of the other list as they were. The power levels of
    the converter that reads the subscription table are the keys of
    the table ([__proto__] left aside, which [result[power] = ...]
    does not create); those of the other converter are the fixed
    list. *)
Theorem static_catalog_isolation {Obj : Type} (emptyObject : Obj) (h0 : heap Obj)
    (contractData : nat) (subscriptionData : list (string * option nat)) :
  parsed h0 contractData subscriptionData ->
  (forall result h,
     Catalog.processBaseOptions emptyObject h0 contractData subscriptionData
     = (result, h) ->
     (forall k, is_Some (result !! k) <-> ownKey (map fst subscriptionData) k)
     /\ forall p q a b, p <> q -> result !! p = Some a -> result !! q = Some b ->
          isolated emptyObject h0 contractData h a b)
  /\ (forall result h,
        FixedCatalog.processBaseOptions emptyObject h0 contractData = (result, h) ->
        (forall k, is_Some (result !! k) <-> In k FixedCatalog.subscribedPowers)
        /\ forall p q a b, p <> q -> result !! p = Some a -> result !! q = Some b ->
             isolated emptyObject h0 contractData h a b).
Proof.
  intros Hparsed. split; intros result h Hrun.
  - pose proof (catalog_invariant emptyObject h0 contractData subscriptionData Hparsed)
      as Hinv.
    rewrite Hrun in Hinv. split.
    + apply Hinv.
    + intros p q a b Hne Hp Hq.
      eapply (stepInvariant_isolated emptyObject h0 contractData subscriptionData
                Hparsed); eauto.
  - pose proof (fixed_invariant emptyObject h0 contractData
                  (parsed_without_table _ _ _ Hparsed)) as Hinv.
    rewrite Hrun in Hinv. split.
    + intros k. rewrite <- ownKey_fixed. apply Hinv.
    + intros p q a b Hne Hp Hq.
      eapply (stepInvariant_isolated emptyObject h0 contractData subscriptionData
                Hparsed); eauto.
Qed.

Lemma parsedStore_parsed : parsed parsedStore 0 parsedSubscriptions.
Proof.
  unfold parsed, closed, parsedStore, parsedSubscriptions. cbn.
  repeat split; repeat constructor; cbn; lia.
Qed.

Lemma static_catalog_isolation_witness :
  exists result h a b,
    Catalog.processBaseOptions catalogEntry parsedStore 0 parsedSubscriptions
    = (result, h)
    /\ result !! "6" = Some a /\ result !! "9" = Some b
    /\ isolated catalogEntry parsedStore 0 h a b.
Proof.
  destruct (Catalog.processBaseOptions catalogEntry parsedStore 0 parsedSubscriptions)
    as [result h] eqn:E.
  exists result, h, 4, 6.
  assert (H6 : result !! "6" = Some 4).
  { apply (f_equal fst) in E. cbn [fst] in E. rewrite <- E. vm_compute. reflexivity. }
  assert (H9 : result !! "9" = Some 6).
  { apply (f_equal fst) in E. cbn [fst] in E. rewrite <- E. vm_compute. reflexivity. }
  split; [reflexivity|]. split; [exact H6|]. split; [exact H9|].
  destruct (static_catalog_isolation catalogEntry parsedStore 0 parsedSubscriptions
              parsedStore_parsed) as [H _].
  destruct (H result h E) as [_ Hiso].
  apply (Hiso "6" "9"); [discriminate|exact H6|exact H9].
Defined.

(* ===================================================================== *)
(** * The catalog with the fixed power levels *)
(* ===================================================================== *)

Lemma no_subscription_filter (prices : list PriceObject) :
  consumptionCatalog prices -> List.filter Validator.isSubscription prices = [].
Proof.
  induction 1 as [|p prices Hp _ IH]; simpl; [reflexivity|].
  unfold Validator.isSubscription at 1.
  destruct (String.eqb_spec (price_type p) "subscription"); [contradiction|exact IH].
Qed.

Lemma requirements_without_subscription (prices : list PriceObject)
    (contractType : string) :
  consumptionCatalog prices ->
  Validator.validateContractSpecificRequirements prices contractType
  = Throw (noSubscriptionError contractType).
Proof.
  intros H. unfold Validator.validateContractSpecificRequirements.
  now rewrite (no_subscription_filter _ H).
Qed.

Lemma runTests_without_subscription (contractsData : Validator.contracts)
    (contractType power : string) (contractData : list (string * list PriceObject))
    (prices : list PriceObject) :
  consumptionCatalog prices ->
  In (contractType, contractData) contractsData ->
  In (power, prices) contractData ->
  raises (Validator.runTests contractsData).
Proof.
  intros Hcat Hct Hp. unfold Validator.runTests. apply bind_raises.
  unfold Validator.validateStructure.
  apply checkAll_raises with (x := (contractType, contractData)); [exact Hct|].
  cbn beta iota.
  apply checkAll_raises with (x := (power, prices)); [exact Hp|].
  unfold Validator.validatePower.
  destruct (Nat.eqb (length prices) 0); [apply raises_Throw|].
  destruct (Validator.validatePrices contractType power 0 prices) as [[]|e];
    [|apply raises_Throw].
  cbn [bind]. rewrite (requirements_without_subscription _ _ Hcat). apply raises_Throw.
Qed.

(** C10: from a parsed catalog, the converter with the fixed power
    list returns the 34 keys "3" to "36"; each is bound to a new array
    of new objects, shared with no other key, whose records are those
    of the catalog. When no entry of the catalog is a subscription
    price, no record of a list is one; so the contract-specific
    validation of each list throws "must have at least one
    subscription price", and the validation of any document holding
    such a list fails. *)
Theorem fixed_catalog_without_subscriptions (emptyObject : PriceObject)
    (h0 : heap PriceObject) (contractData : nat) :
  parsed h0 contractData [] ->
  forall result h,
    FixedCatalog.processBaseOptions emptyObject h0 contractData = (result, h) ->
    (forall k, is_Some (result !! k) <-> In k (map pretty (seq 3 34)))
    /\ forall k a, result !! k = Some a ->
         length (arrays h0) <= a
         /\ Forall (fun l => length (objects h0) <= l) (readArray h a)
         /\ (forall q b, q <> k -> result !! q = Some b ->
               a <> b /\ forall l, In l (readArray h a) -> ~ In l (readArray h b))
         /\ records emptyObject h a = records emptyObject h0 contractData
         /\ (consumptionCatalog (records emptyObject h0 contractData) ->
             consumptionCatalog (records emptyObject h a)
             /\ (forall contractType,
                   Validator.validateContractSpecificRequirements
                     (records emptyObject h a) contractType
                   = Throw (noSubscriptionError contractType))
             /\ (forall contractsData contractType contractData',
                   In (contractType, contractData') contractsData ->
                   In (k, records emptyObject h a) contractData' ->
                   raises (Validator.runTests contractsData))).
Proof.
  intros Hparsed result h Hrun.
  pose proof (fixed_invariant emptyObject h0 contractData Hparsed) as Hinv.
  rewrite Hrun in Hinv. split.
  - intros k. change (map pretty (seq 3 34)) with FixedCatalog.subscribedPowers.
    rewrite <- ownKey_fixed. apply Hinv.
  - intros k a Hk.
    destruct (stepInvariant_emitted _ _ _ _ _ _ _ _ _ _ Hinv Hk)
      as (Hfresh & i & subs & Ha & -> & Hcopies & Hnew).
    rewrite app_nil_r in Ha.
    assert (Hrec : records emptyObject h a = records emptyObject h0 contractData).
    { unfold records at 1. rewrite Ha. exact Hcopies. }
    split; [exact Hfresh|]. split; [now rewrite Ha|]. split; [|split; [exact Hrec|]].
    + intros q b Hne Hq.
      destruct (stepInvariant_separate emptyObject h0 _ _ _
                  _ _ _ k q a b Hinv (not_eq_sym Hne) Hk Hq)
        as (Hab & _ & j & subs & Ha' & -> & _ & Hdisj).
      rewrite app_nil_r in Ha'. split; [exact Hab|].
      intros l Hl. rewrite Ha' in Hl. now apply Hdisj.
    + intros Hcat. rewrite Hrec. split; [exact Hcat|]. split.
      * intros contractType. now apply requirements_without_subscription.
      * intros contractsData contractType contractData' Hct Hp.
        eapply runTests_without_subscription; eauto.
Qed.

Lemma fixed_catalog_without_subscriptions_witness :
  exists result h,
    FixedCatalog.processBaseOptions catalogEntry parsedStore 0 = (result, h)
    /\ (forall k, is_Some (result !! k) <-> In k (map pretty (seq 3 34)))
    /\ forall k a, result !! k = Some a ->
         records catalogEntry h a = [catalogEntry]
         /\ Validator.validateContractSpecificRequirements
              (records catalogEntry h a) "alpiq-base"
            = Throw (noSubscriptionError "alpiq-base").
Proof.
  destruct (FixedCatalog.processBaseOptions catalogEntry parsedStore 0)
    as [result h] eqn:E.
  exists result, h. split; [reflexivity|].
  assert (Hcat : consumptionCatalog (records catalogEntry parsedStore 0))
    by (repeat constructor; discriminate).
  destruct (fixed_catalog_without_subscriptions catalogEntry parsedStore 0
              (parsed_without_table _ _ _ parsedStore_parsed) result h E)
    as [Hkeys Hlists].
  split; [exact Hkeys|]. intros k a Hk.
  destruct (Hlists k a Hk) as (_ & _ & _ & Hrec & Hsub).
  destruct (Hsub Hcat) as (_ & Hreq & _).
  split; [exact Hrec|apply Hreq].
Defined.

(** C10 as stated fails: this parsed catalog is not empty and one of
    its two entries is a subscription price. The converter copies both
    to every power level: the list of power level 3 holds a record
    whose [price_type] is [subscription], and the contract-specific
    validation of that list returns instead of throwing "must have at
    least one subscription price". *)
Lemma fixed_catalog_copies_subscription_entries :
  parsed catalogWithSubscription 0 []
  /\ records catalogEntry catalogWithSubscription 0
     = [catalogEntry; subscriptionEntry 100000]
  /\ exists result h a,
       FixedCatalog.processBaseOptions catalogEntry catalogWithSubscription 0
       = (result, h)
       /\ result !! "3" = Some a
       /\ records catalogEntry h a = [catalogEntry; subscriptionEntry 100000]
       /\ In (subscriptionEntry 100000) (records catalogEntry h a)
       /\ price_type (subscriptionEntry 100000) = "subscription"
       /\ Validator.validateContractSpecificRequirements
            (records catalogEntry h a) "edf-base"
          = Return tt.
Proof.
  split.
  { unfold parsed, closed, catalogWithSubscription. cbn.
    repeat split; repeat constructor; cbn; lia. }
  split; [reflexivity|].
  destruct (FixedCatalog.processBaseOptions catalogEntry catalogWithSubscription 0)
    as [result h] eqn:E.
  exists result, h, 1.
  assert (H3 : result !! "3" = Some 1).
  { apply (f_equal fst) in E. cbn [fst] in E. rewrite <- E. vm_compute. reflexivity. }
  assert (Hrec : records catalogEntry h 1 = [catalogEntry; subscriptionEntry 100000]).
  { apply (f_equal snd) in E. cbn [snd] in E. rewrite <- E. vm_compute. reflexivity. }
  split; [reflexivity|]. split; [exact H3|]. split; [exact Hrec|].
  rewrite Hrec. split; [right; left; reflexivity|]. split; [reflexivity|].
  vm_compute. reflexivity.
Qed.

(* ===================================================================== *)
(** * Contract names of the emitted records *)
(* ===================================================================== *)

Lemma allRecords_empty (P : PriceObject -> Prop) : allRecords P ∅.
Proof. intros power prices H. rewrite lookup_empty in H. discriminate H. Qed.

Lemma appendRow_allRecords (P : PriceObject -> Prop)
    (result result' : gmap string (list PriceObject))
    (power startDate endDate : option string)
    (records : option string -> option string -> list PriceObject) :
  (forall sd ed, Forall P (records sd ed)) ->
  allRecords P result ->
  appendRow result power startDate endDate records = Return result' ->
  allRecords P result'.
Proof.
  intros Hrec Hall. unfold appendRow.
  destruct (convertToIsoDate startDate) as [sd|]; [|discriminate]. cbn [bind].
  destruct (convertEndDate endDate) as [ed|]; [|discriminate]. cbn [bind].
  rewrite pushGroup_initGroup.
  assert (Hins : forall prices, Forall P prices ->
                   allRecords P (<[str power := prices]> result)).
  { intros prices Hp k ps Hk. destruct (decide (str power = k)) as [Heq|Hne].
    - rewrite <- Heq, lookup_insert_eq in Hk. now injection Hk as <-.
    - rewrite lookup_insert_ne in Hk by exact Hne. eapply Hall, Hk. }
  destruct (result !! str power) as [arr|] eqn:E.
  - intros H. injection H as <-. apply Hins, Forall_app. split; [eapply Hall, E|apply Hrec].
  - destruct (inherited (str power)); [discriminate|].
    intros H. injection H as <-. apply Hins, Hrec.
Qed.

Lemma flatRate_contract (csvContent : string) (result : gmap string (list PriceObject)) :
  FlatRate.processBaseOptions csvContent = Return result ->
  allRecords (fun r => contract r = "base") result.
Proof.
  unfold FlatRate.processBaseOptions.
  set (ix := FlatRate.findIndices _).
  destruct (FlatRate.missingColumn ix); [discriminate|].
  apply forEachM_invariant; [|apply allRecords_empty].
  intros s line s' Hs. destruct (complete (flatRateValues ix line)) eqn:E.
  - rewrite (flatRate_processLine_complete _ _ _ E).
    apply appendRow_allRecords; [|exact Hs]. intros sd ed. repeat constructor.
  - rewrite (flatRate_processLine_incomplete _ _ _ E). intros H. now injection H as <-.
Qed.

Lemma dualRate_contract (csvContent : string) (result : gmap string (list PriceObject)) :
  DualRate.processPeakOffPeakOptions csvContent = Return result ->
  allRecords (fun r => contract r = "peak-off-peak") result.
Proof.
  unfold DualRate.processPeakOffPeakOptions.
  set (ix := DualRate.findIndices _).
  destruct (DualRate.missingColumn ix); [discriminate|].
  apply forEachM_invariant; [|apply allRecords_empty].
  intros s line s' Hs. destruct (complete (dualRateValues ix line)) eqn:E.
  - rewrite (dualRate_processLine_complete _ _ _ E).
    apply appendRow_allRecords; [|exact Hs]. intros sd ed. repeat constructor.
  - rewrite (dualRate_processLine_incomplete _ _ _ E). intros H. now injection H as <-.
Qed.

Lemma tempo_contract (csvContent : string) (result : gmap string (list PriceObject)) :
  Tempo.processTempoOptions csvContent = Return result ->
  allRecords (fun r => contract r = "tempo" \/ contract r = "es-tempo") result.
Proof.
  unfold Tempo.processTempoOptions.
  set (ix := Tempo.findIndices _).
  destruct (Tempo.missingColumn ix); [discriminate|].
  apply forEachM_invariant; [|apply allRecords_empty].
  intros s line s' Hs. destruct (complete (tempoValues ix line)) eqn:E.
  - rewrite (tempo_processLine_complete _ _ _ E).
    apply appendRow_allRecords; [|exact Hs]. intros sd ed.
    unfold tempoRecords, Tempo.priceObjects.
    repeat (constructor; [cbn; auto|]). constructor.
  - rewrite (tempo_processLine_incomplete _ _ _ E). intros H. now injection H as <-.
Qed.

Lemma unknown_contract_rejected (r : PriceObject) (label : string) :
  knownContract r = false -> raises (Validator.validatePriceObject r label).
Proof.
  rewrite validatePriceObject_typed. unfold knownContract. intros ->. apply raises_Throw.
Qed.

(** C1 on the code: the records of the flat-rate and of the dual-rate
    converter carry a contract name the validator knows, and every
    record of the calendar-tiered converter carries "tempo" or
    "es-tempo", which the validator does not know ("edf-tempo" is the
    name it knows), so that the per-record check rejects it. *)
Theorem tempo_contract_unknown_to_validator (csvContent : string)
    (result : gmap string (list PriceObject)) (power : string)
    (prices : list PriceObject) (r : PriceObject) :
  result !! power = Some prices -> In r prices ->
  (FlatRate.processBaseOptions csvContent = Return result -> knownContract r = true)
  /\ (DualRate.processPeakOffPeakOptions csvContent = Return result ->
      knownContract r = true)
  /\ (Tempo.processTempoOptions csvContent = Return result ->
      knownContract r = false
      /\ forall label, raises (Validator.validatePriceObject r label)).
Proof.
  intros Hp Hr. apply list_elem_of_In in Hr. split; [|split]; intros Hrun.
  - apply flatRate_contract in Hrun. specialize (Hrun power prices Hp).
    rewrite Forall_forall in Hrun. unfold knownContract. now rewrite (Hrun r Hr).
  - apply dualRate_contract in Hrun. specialize (Hrun power prices Hp).
    rewrite Forall_forall in Hrun. unfold knownContract. now rewrite (Hrun r Hr).
  - apply tempo_contract in Hrun. specialize (Hrun power prices Hp).
    rewrite Forall_forall in Hrun.
    assert (Hk : knownContract r = false).
    { unfold knownContract. destruct (Hrun r Hr) as [-> | ->]; reflexivity. }
    split; [exact Hk|]. intros label. now apply unknown_contract_rejected.
Qed.

Lemma tempo_contract_unknown_to_validator_witness :
  Tempo.processTempoOptions tempoFile
  = Return {[ "9" := tempoRecords tempoIndices tempoRow (Some "2023-02-01") None ]}
  /\ Forall (fun r => knownContract r = false
                      /\ raises (Validator.validatePriceObject r "edf-tempo[9][0]"))
            (tempoRecords tempoIndices tempoRow (Some "2023-02-01") None).
Proof.
  assert (Hrun : Tempo.processTempoOptions tempoFile
                 = Return {[ "9" := tempoRecords tempoIndices tempoRow
                                      (Some "2023-02-01") None ]})
    by (vm_compute; reflexivity).
  split; [exact Hrun|].
  rewrite Forall_forall. intros r Hr. apply list_elem_of_In in Hr.
  destruct (tempo_contract_unknown_to_validator tempoFile _ "9" _ r
              (lookup_singleton_eq _ _) Hr) as (_ & _ & H).
  destruct (H Hrun) as [Hk Hv]. split; [exact Hk|apply Hv].
Defined.

(* ===================================================================== *)
(** * Further properties: the validator *)
(* ===================================================================== *)

Lemma acceptedRecord_split (p : PriceObject) :
  acceptedRecord p <-> otherFieldsValid p /\ ltb64 (price p) (num 0) = false.
Proof. unfold acceptedRecord, otherFieldsValid, validDates. tauto. Qed.

Lemma validatePriceObject_iff (p : PriceObject) (label : string) :
  (Validator.validatePriceObject p label = Return true <-> acceptedRecord p)
  /\ Validator.validatePriceObject p label <> Return false.
Proof.
  split; [split|].
  - intros H. apply acceptedRecord_split.
    now apply validatePriceObject_other_fields in H.
  - intros H. apply acceptedRecord_split in H. destruct H as [Ho Hp].
    now rewrite (validatePriceObject_price p label Ho), Hp.
  - intros H. pose proof (validatePriceObject_other_fields _ _ _ H) as [Ho Hp].
    rewrite (validatePriceObject_price p label Ho), Hp in H. discriminate H.
Qed.

Lemma checkAll_iff {A : Type} (check : A -> outcome unit) (xs : list A) :
  Validator.checkAll check xs = Return tt <-> forall x, In x xs -> check x = Return tt.
Proof. split; [apply checkAll_Return|apply checkAll_all]. Qed.

Lemma checkSubscription_iff (contractType : string) (s : PriceObject) :
  Validator.checkSubscription contractType s = Return tt <-> subscriptionRule s.
Proof.
  unfold Validator.checkSubscription, subscriptionRule.
  destruct (hour_slots s); [split; [discriminate|intros [H _]; discriminate H]|].
  destruct (day_type s); [split; [discriminate|intros (_ & H & _); discriminate H]|].
  destruct (leb64 (price s) (num 0)); split; try discriminate; auto.
  intros (_ & _ & H). discriminate H.
Qed.

Lemma includes_two (a b x : string) :
  Validator.includes [a; b] x = true <-> x = a \/ x = b.
Proof.
  unfold Validator.includes. cbn [existsb]. rewrite orb_false_r, orb_true_iff.
  rewrite !String.eqb_eq. tauto.
Qed.

Lemma includes_three (a b c x : string) :
  Validator.includes [a; b; c] x = true <-> x = a \/ x = b \/ x = c.
Proof.
  unfold Validator.includes. cbn [existsb]. rewrite orb_false_r, !orb_true_iff.
  rewrite !String.eqb_eq. tauto.
Qed.

Lemma checkConsumption_iff (contractType : string) (c : PriceObject) :
  Validator.checkConsumption contractType c = Return tt <-> consumptionRule contractType c.
Proof.
  unfold Validator.checkConsumption, consumptionRule.
  destruct (String.eqb contractType "edf-base").
  { destruct (hour_slots c), (day_type c); split; try discriminate; auto;
      intros [H1 H2]; discriminate. }
  destruct (String.eqb contractType "edf-peak-off-peak").
  { destruct (hour_slots c) as [hs|].
    - destruct (Validator.includes _ hs) eqn:E; cbn [negb].
      + apply includes_two in E.
        destruct (day_type c); split; try discriminate; auto.
        * intros [_ H]; discriminate H.
        * intros _. split; [|reflexivity]. destruct E as [-> | ->]; auto.
      + split; [discriminate|]. intros [[H|H] _]; injection H as ->; discriminate E.
    - cbn [negb]. split; [discriminate|]. intros [[H|H] _]; discriminate H. }
  destruct (String.eqb contractType "edf-tempo"); [|tauto].
  destruct (day_type c) as [dt|].
  - destruct (Validator.includes _ dt) eqn:E; cbn [negb].
    + apply includes_three in E.
      destruct (truthy (hour_slots c)); cbn [negb]; split; try discriminate; auto.
      * intros _. split; [|reflexivity]. destruct E as [-> | [-> | ->]]; auto.
      * intros [_ H]; discriminate H.
    + split; [discriminate|].
      intros [[H|[H|H]] _]; injection H as ->; discriminate E.
  - cbn [negb]. split; [discriminate|]. intros [[H|[H|H]] _]; discriminate H.
Qed.

Lemma filter_subscription_In (prices : list PriceObject) (s : PriceObject) :
  In s (List.filter Validator.isSubscription prices)
  <-> In s prices /\ price_type s = "subscription".
Proof.
  rewrite filter_In. unfold Validator.isSubscription. now rewrite String.eqb_eq.
Qed.

Lemma filter_consumption_In (prices : list PriceObject) (c : PriceObject) :
  In c (List.filter Validator.isConsumption prices)
  <-> In c prices /\ price_type c = "consumption".
Proof.
  rewrite filter_In. unfold Validator.isConsumption. now rewrite String.eqb_eq.
Qed.

Lemma requirements_iff (prices : list PriceObject) (contractType : string) :
  Validator.validateContractSpecificRequirements prices contractType = Return tt
  <-> requirementsMet contractType prices.
Proof.
  unfold Validator.validateContractSpecificRequirements, requirementsMet.
  destruct (List.filter Validator.isSubscription prices) as [|s0 subs] eqn:E.
  - cbn [length Nat.eqb]. split; [discriminate|].
    intros ((s & Hs & Hsub) & _).
    assert (Hin : In s (List.filter Validator.isSubscription prices))
      by now apply filter_subscription_In.
    rewrite E in Hin. contradiction.
  - cbn [length Nat.eqb]. rewrite <- E.
    destruct (Validator.checkAll (Validator.checkSubscription contractType) _)
      as [[]|e] eqn:Hs; cbn [bind].
    + rewrite checkAll_iff in Hs. rewrite checkAll_iff. split.
      * intros Hc. split; [|split].
        -- exists s0. apply filter_subscription_In. rewrite E. now left.
        -- intros s Hin Hsub. apply (checkSubscription_iff contractType), Hs.
           now apply filter_subscription_In.
        -- intros c Hin Hcons. apply checkConsumption_iff, Hc.
           now apply filter_consumption_In.
      * intros (_ & _ & Hc) c Hin. apply filter_consumption_In in Hin.
        apply checkConsumption_iff. now apply Hc.
    + split; [discriminate|]. intros (_ & Hsubs & _). exfalso.
      assert (Hall : Validator.checkAll (Validator.checkSubscription contractType)
                       (List.filter Validator.isSubscription prices) = Return tt).
      { apply checkAll_iff. intros s Hin. apply filter_subscription_In in Hin.
        apply checkSubscription_iff. now apply Hsubs. }
      rewrite Hall in Hs. discriminate Hs.
Qed.

Lemma validatePrices_iff (contractType power : string) (prices : list PriceObject) :
  forall i, Validator.validatePrices contractType power i prices = Return tt
            <-> forall p, In p prices -> acceptedRecord p.
Proof.
  induction prices as [|q prices IH]; intros i; cbn [Validator.validatePrices].
  - split; [intros _ p []|reflexivity].
  - destruct (Validator.validatePriceObject q _) as [b|e] eqn:E.
    + assert (Hq : acceptedRecord q).
      { destruct (validatePriceObject_iff q
                    (contractType +:+ "[" +:+ power +:+ "][" +:+ pretty i +:+ "]"))
          as [Hiff Hnf].
        destruct b; [now apply Hiff|contradiction (Hnf E)]. }
      rewrite IH. split.
      * intros H p [<-|Hin]; auto.
      * intros H p Hin. apply H. now right.
    + split; [discriminate|]. intros H. exfalso.
      assert (Hq : acceptedRecord q) by (apply H; now left).
      apply (proj1 (validatePriceObject_iff q
               (contractType +:+ "[" +:+ power +:+ "][" +:+ pretty i +:+ "]"))) in Hq.
      rewrite Hq in E. discriminate E.
Qed.

Lemma validatePower_iff (contractType power : string) (prices : list PriceObject) :
  Validator.validatePower contractType (power, prices) = Return tt
  <-> prices <> [] /\ (forall p, In p prices -> acceptedRecord p)
      /\ requirementsMet contractType prices.
Proof.
  unfold Validator.validatePower. destruct prices as [|q prices].
  - cbn. split; [discriminate|]. intros [H _]. now contradiction H.
  - cbn [length Nat.eqb].
    destruct (Validator.validatePrices contractType power 0 (q :: prices))
      as [[]|e] eqn:E; cbn [bind].
    + rewrite validatePrices_iff in E. rewrite requirements_iff.
      split; [|tauto]. intros H. split; [discriminate|]. split; [exact E|exact H].
    + split; [discriminate|]. intros (_ & H & _).
      apply (validatePrices_iff contractType power _ 0) in H.
      rewrite H in E. discriminate E.
Qed.

Lemma In_includes (arr : list string) (x : string) :
  In x arr -> Validator.includes arr x = true.
Proof.
  intros H. unfold Validator.includes. apply existsb_exists.
  exists x. split; [exact H|apply String.eqb_refl].
Qed.

Lemma covered_checkCoverage (contractType power : string) (prices : list PriceObject) :
  covered prices -> Validator.checkCoverage contractType (power, prices) = Return tt.
Proof.
  intros Hcov. unfold Validator.checkCoverage. apply checkAll_all.
  intros range Hin. apply in_map_iff in Hin. destruct Hin as (c & <- & Hc).
  apply filter_consumption_In in Hc. destruct Hc as [Hc Hcons].
  destruct (Hcov c Hc Hcons) as (s & Hs & Hsub & Hstart & Hend).
  rewrite In_includes; [reflexivity|].
  apply in_map_iff. exists s. split.
  - unfold Validator.dateRange. now rewrite Hstart, Hend.
  - now apply filter_subscription_In.
Qed.

Lemma checkExpected_iff (contractsData : Validator.contracts) :
  Validator.checkExpected contractsData = Return tt
  <-> forall expected, In expected Validator.expectedContracts ->
        In expected (map fst contractsData).
Proof.
  unfold Validator.checkExpected. rewrite checkAll_iff.
  split; intros H expected Hin; specialize (H expected Hin).
  - destruct (Validator.includes _ expected) eqn:E; [|discriminate H].
    now apply includes_In.
  - now rewrite (In_includes _ _ H).
Qed.

Lemma list_sum_zero (xs : list nat) : list_sum xs = 0 <-> forall x, In x xs -> x = 0.
Proof.
  induction xs as [|y xs IH]; simpl.
  - split; [intros _ x []|reflexivity].
  - split.
    + intros H x [<-|Hin]; [lia|]. revert x Hin. apply IH. lia.
    + intros H. rewrite (H y) by now left. apply IH. intros x Hx. apply H. now right.
Qed.

(** Once step 5 has passed, the count of step 8 is 0 exactly when the
    document has no power level at all. *)
Lemma totalSubscription_zero (contractsData : Validator.contracts) :
  (forall contractType contractData power prices,
     In (contractType, contractData) contractsData ->
     In (power, prices) contractData ->
     exists s, In s prices /\ price_type s = "subscription") ->
  (Validator.totalSubscription contractsData = 0
   <-> forall contractType contractData,
         In (contractType, contractData) contractsData -> contractData = []).
Proof.
  intros Hsub. unfold Validator.totalSubscription. rewrite list_sum_zero. split.
  - intros H contractType contractData Hct.
    destruct contractData as [|[power prices] rest]; [reflexivity|]. exfalso.
    assert (Hz : list_sum (map (fun '(_, prices) =>
                   length (List.filter Validator.isSubscription prices))
                   ((power, prices) :: rest)) = 0).
    { apply H. apply in_map_iff. exists (contractType, (power, prices) :: rest).
      split; [reflexivity|exact Hct]. }
    rewrite list_sum_zero in Hz.
    destruct (Hsub contractType _ power prices Hct ltac:(now left)) as (s & Hs & Hty).
    assert (Hlen : length (List.filter Validator.isSubscription prices) = 0).
    { apply Hz. now left. }
    apply length_zero_iff_nil in Hlen.
    assert (Hin : In s (List.filter Validator.isSubscription prices))
      by now apply filter_subscription_In.
    rewrite Hlen in Hin. contradiction.
  - intros H x Hin. apply in_map_iff in Hin.
    destruct Hin as ([contractType contractData] & <- & Hct).
    now rewrite (H contractType contractData Hct).
Qed.

Lemma runTests_iff (contractsData : Validator.contracts) :
  Validator.runTests contractsData = Return tt
  <-> (forall contractType contractData power prices,
         In (contractType, contractData) contractsData ->
         In (power, prices) contractData ->
         validPowerLevel contractType prices)
      /\ (forall expected, In expected Validator.expectedContracts ->
            In expected (map fst contractsData))
      /\ (exists contractType contractData power prices,
            In (contractType, contractData) contractsData
            /\ In (power, prices) contractData).
Proof.
  assert (Hstructure :
            Validator.validateStructure contractsData = Return tt
            <-> forall contractType contractData power prices,
                  In (contractType, contractData) contractsData ->
                  In (power, prices) contractData ->
                  prices <> [] /\ (forall p, In p prices -> acceptedRecord p)
                  /\ requirementsMet contractType prices).
  { unfold Validator.validateStructure. rewrite checkAll_iff. split.
    - intros H contractType contractData power prices Hct Hp.
      specialize (H _ Hct). cbn beta iota in H. rewrite checkAll_iff in H.
      apply (validatePower_iff contractType power). exact (H _ Hp).
    - intros H [contractType contractData] Hct. apply checkAll_iff.
      intros [power prices] Hp. apply validatePower_iff. eapply H; eauto. }
  assert (Hexists :
            (forall contractType contractData,
               In (contractType, contractData) contractsData -> contractData = [])
            <-> ~ exists contractType contractData power prices,
                    In (contractType, contractData) contractsData
                    /\ In (power, prices) contractData).
  { split.
    - intros H (contractType & contractData & power & prices & Hct & Hp).
      rewrite (H _ _ Hct) in Hp. contradiction.
    - intros H contractType contractData Hct.
      destruct contractData as [|[power prices] rest]; [reflexivity|].
      exfalso. apply H. exists contractType, ((power, prices) :: rest), power, prices.
      split; [exact Hct|now left]. }
  split.
  - intros Hrun. pose proof (runTests_covered _ Hrun) as Hcov.
    unfold Validator.runTests in Hrun.
    destruct (Validator.validateStructure contractsData) as [[]|] eqn:Hs;
      [|discriminate]. cbn [bind] in Hrun.
    destruct (Validator.checkExpected contractsData) as [[]|] eqn:He;
      [|discriminate]. cbn [bind] in Hrun.
    destruct (Validator.validateConsistency contractsData) as [[]|]; [|discriminate].
    cbn [bind] in Hrun.
    destruct (Nat.eqb_spec (Validator.totalSubscription contractsData) 0) as [Hz|Hz];
      [discriminate|].
    destruct Hstructure as [Hstructure _]. specialize (Hstructure eq_refl).
    split; [|split].
    + intros contractType contractData power prices Hct Hp.
      destruct (Hstructure _ _ _ _ Hct Hp) as (H1 & H2 & H3).
      split; [exact H1|]. split; [exact H2|]. split; [exact H3|].
      eapply Hcov; eauto.
    + now apply checkExpected_iff.
    + rewrite totalSubscription_zero in Hz.
      2:{ intros contractType contractData power prices Hct Hp.
          apply (Hstructure _ _ _ _ Hct Hp). }
      destruct contractsData as [|[contractType contractData] rest].
      { exfalso. apply Hz. intros ? ? []. }
      clear Hexists.
      assert (Hdec : forall l : Validator.contracts,
                (forall ct cd, In (ct, cd) l -> cd = [])
                \/ exists ct cd power prices, In (ct, cd) l /\ In (power, prices) cd).
      { induction l as [|[ct [|[power prices] cd]] l IH].
        - left. intros ? ? [].
        - destruct IH as [IH|(ct' & cd' & p' & ps' & Hin & Hp)].
          + left. intros ct' cd' [E|Hin]; [now injection E as <- <-|eauto].
          + right. exists ct', cd', p', ps'. split; [now right|exact Hp].
        - right. exists ct, ((power, prices) :: cd), power, prices.
          split; now left. }
      destruct (Hdec ((contractType, contractData) :: rest)) as [Hnone|Hsome];
        [contradiction|exact Hsome].
  - intros (Hvalid & Hexpected & Hsome). unfold Validator.runTests.
    assert (Hs : Validator.validateStructure contractsData = Return tt).
    { apply Hstructure. intros contractType contractData power prices Hct Hp.
      destruct (Hvalid _ _ _ _ Hct Hp) as (H1 & H2 & H3 & _). auto. }
    rewrite Hs. cbn [bind].
    rewrite (proj2 (checkExpected_iff contractsData) Hexpected). cbn [bind].
    assert (Hc : Validator.validateConsistency contractsData = Return tt).
    { unfold Validator.validateConsistency. apply checkAll_all.
      intros [contractType contractData] Hct. apply checkAll_all.
      intros [power prices] Hp. apply covered_checkCoverage.
      apply (Hvalid _ _ _ _ Hct Hp). }
    rewrite Hc. cbn [bind].
    destruct (Nat.eqb_spec (Validator.totalSubscription contractsData) 0) as [Hz|Hz];
      [|reflexivity].
    exfalso. rewrite totalSubscription_zero in Hz.
    + apply Hexists in Hz. contradiction.
    + intros contractType contractData power prices Hct Hp.
      apply (Hvalid _ _ _ _ Hct Hp).
Qed.

(** The per-record check returns [true] on exactly the records that
    have a known contract name, a price type among the two, the
    currency "euro", a price that is not below 0, a start date of the
    form YYYY-MM-DD and an end date that is [null], empty or of that
    form; it never returns [false]. *)
Theorem validatePriceObject_accepts_iff (p : PriceObject) (label : string) :
  (Validator.validatePriceObject p label = Return true <-> acceptedRecord p)
  /\ Validator.validatePriceObject p label <> Return false.
Proof. exact (validatePriceObject_iff p label). Qed.

(** The contract-specific validation returns on exactly the lists that
    hold a subscription record, whose subscription records have no
    hour slots, no day type and a price that is not [<= 0], and whose
    consumption records follow the rule of the contract type; for a
    contract type other than "edf-base", "edf-peak-off-peak" and
    "edf-tempo" the consumption records are not looked at. *)
Theorem requirements_return_iff (prices : list PriceObject) (contractType : string) :
  Validator.validateContractSpecificRequirements prices contractType = Return tt
  <-> requirementsMet contractType prices.
Proof. exact (requirements_iff prices contractType). Qed.

(** [runTests] ends without error on exactly the documents in which
    every power level is valid (non-empty, every record accepted, the
    contract-specific rules met, every consumption date pair covered by
    a subscription record), the three expected contract types are
    present, and there is at least one power level. *)
Theorem runTests_passes_iff (contractsData : Validator.contracts) :
  Validator.runTests contractsData = Return tt
  <-> (forall contractType contractData power prices,
         In (contractType, contractData) contractsData ->
         In (power, prices) contractData ->
         validPowerLevel contractType prices)
      /\ (forall expected, In expected Validator.expectedContracts ->
            In expected (map fst contractsData))
      /\ (exists contractType contractData power prices,
            In (contractType, contractData) contractsData
            /\ In (power, prices) contractData).
Proof. exact (runTests_iff contractsData). Qed.

(* ===================================================================== *)
(** * Further properties: the tabular converters *)
(* ===================================================================== *)

Lemma hasSeparator_dec (s : string) : hasSeparator s \/ ~ hasSeparator s.
Proof.
  unfold hasSeparator.
  destruct (in_dec ascii_dec "/"%char (list_ascii_of_string s)); [now left|now right].
Qed.

(** A date cell converts exactly when it is well formed. *)
Lemma convertToIsoDate_returns_iff (d : option string) :
  (exists iso, convertToIsoDate d = Return iso) <-> wellFormedDate d.
Proof.
  unfold wellFormedDate. destruct d as [[|c s]|]; cbn [truthy str].
  - split; [discriminate|]. intros _. now exists None.
  - split.
    + intros [iso Hiso] _. destruct (hasSeparator_dec (String c s)) as [H|H]; [exact H|].
      unfold convertToIsoDate in Hiso. rewrite (split_without_separator _ _ H) in Hiso.
      discriminate Hiso.
    + intros H. destruct (convertToIsoDate_with_separator _ (H eq_refl)) as [iso Hiso].
      now exists (Some iso).
  - split; [discriminate|]. intros _. now exists None.
Qed.

Lemma convertEndDate_returns_iff (d : option string) :
  (exists iso, convertEndDate d = Return iso) <-> wellFormedDate d.
Proof.
  unfold convertEndDate. destruct (truthy d) eqn:E.
  - apply convertToIsoDate_returns_iff.
  - unfold wellFormedDate. rewrite E. split; [discriminate|]. intros _. now exists None.
Qed.

Lemma appendRow_convertible (result : gmap string (list PriceObject))
    (power startDate endDate : option string)
    (records : option string -> option string -> list PriceObject) :
  convertible power startDate endDate ->
  appendRow result power startDate endDate records
  = Return (<[str power := default [] (result !! str power)
                ++ records (isoOf (convertToIsoDate startDate))
                           (isoOf (convertEndDate endDate))]> result).
Proof.
  intros (Hkey & Hsd & Hed).
  apply convertToIsoDate_returns_iff in Hsd. destruct Hsd as [sd Hsd].
  apply convertEndDate_returns_iff in Hed. destruct Hed as [ed Hed].
  unfold appendRow.
  rewrite Hsd, Hed. cbn [bind isoOf]. rewrite pushGroup_initGroup, Hkey.
  destruct (result !! str power); reflexivity.
Qed.

(** A complete row that returns is convertible: on a [result] without
    inherited names as own properties, the [push] on an inherited name
    raises. *)
Lemma appendRow_returns (result result' : gmap string (list PriceObject))
    (power startDate endDate : option string)
    (records : option string -> option string -> list PriceObject) :
  ownKeysOnly result ->
  appendRow result power startDate endDate records = Return result' ->
  convertible power startDate endDate.
Proof.
  intros Hown. unfold appendRow.
  destruct (convertToIsoDate startDate) as [sd|] eqn:Hsd; [|discriminate]. cbn [bind].
  destruct (convertEndDate endDate) as [ed|] eqn:Hed; [|discriminate]. cbn [bind].
  rewrite pushGroup_initGroup. intros Hrun. split; [|split].
  - destruct (inherited (str power)) eqn:Hk; [|reflexivity].
    rewrite (Hown _ Hk) in Hrun. discriminate Hrun.
  - apply convertToIsoDate_returns_iff. now exists sd.
  - apply convertEndDate_returns_iff. now exists ed.
Qed.

Lemma applyRow_ownKeysOnly (result : gmap string (list PriceObject))
    (row : option (string * list PriceObject)) :
  ownKeysOnly result ->
  (forall p records, row = Some (p, records) -> inherited p = false) ->
  ownKeysOnly (applyRow result row).
Proof.
  intros Hown Hrow. destruct row as [[p records]|]; [|exact Hown].
  intros k Hk. cbn [applyRow]. rewrite lookup_insert_ne; [now apply Hown|].
  intros <-. rewrite (Hrow _ _ eq_refl) in Hk. discriminate Hk.
Qed.

(** A loop returns exactly when each of its elements is one the body
    returns on, for a body that keeps an invariant of the state. *)
Lemma forEachM_returns_iff {A S : Type} (I : S -> Prop) (ok : A -> Prop)
    (body : S -> A -> outcome S) :
  (forall s x, I s -> ok x -> exists s', body s x = Return s' /\ I s') ->
  (forall s x s', I s -> body s x = Return s' -> ok x) ->
  forall xs s, I s -> (exists s', forEachM body xs s = Return s') <-> Forall ok xs.
Proof.
  intros Hok Hret xs. induction xs as [|x xs IH]; intros s Hs; cbn [forEachM].
  - split; [constructor|]. intros _. now exists s.
  - split.
    + intros [s' Hrun]. destruct (body s x) as [s1|e] eqn:E; [|discriminate].
      cbn [bind] in Hrun. pose proof (Hret _ _ _ Hs E) as Hx.
      destruct (Hok _ _ Hs Hx) as (s2 & E2 & Hs2).
      rewrite E in E2. injection E2 as <-.
      constructor; [exact Hx|]. apply (IH s1 Hs2). now exists s'.
    + intros Hall. inversion Hall as [|? ? Hx Hxs]; subst.
      destruct (Hok _ _ Hs Hx) as (s1 & E & Hs1). rewrite E. cbn [bind].
      now apply (IH s1 Hs1).
Qed.

Lemma flatRate_processLine_row ix result rawLine :
  flatRateConvertible ix rawLine ->
  FlatRate.processLine ix result rawLine = Return (applyRow result (flatRateRowOf ix rawLine)).
Proof.
  intros H. unfold flatRateRowOf, rowOf.
  destruct (complete (flatRateValues ix rawLine)) eqn:E.
  - rewrite (flatRate_processLine_complete _ _ _ E). now apply appendRow_convertible, H.
  - now rewrite (flatRate_processLine_incomplete _ _ _ E).
Qed.

Lemma dualRate_processLine_row ix result rawLine :
  dualRateConvertible ix rawLine ->
  DualRate.processLine ix result rawLine = Return (applyRow result (dualRateRowOf ix rawLine)).
Proof.
  intros H. unfold dualRateRowOf, rowOf.
  destruct (complete (dualRateValues ix rawLine)) eqn:E.
  - rewrite (dualRate_processLine_complete _ _ _ E). now apply appendRow_convertible, H.
  - now rewrite (dualRate_processLine_incomplete _ _ _ E).
Qed.

Lemma tempo_processLine_row ix result rawLine :
  tempoConvertible ix rawLine ->
  Tempo.processLine ix result rawLine = Return (applyRow result (tempoRowOf ix rawLine)).
Proof.
  intros H. unfold tempoRowOf, rowOf.
  destruct (complete (tempoValues ix rawLine)) eqn:E.
  - rewrite (tempo_processLine_complete _ _ _ E). now apply appendRow_convertible, H.
  - now rewrite (tempo_processLine_incomplete _ _ _ E).
Qed.

Lemma grouping_nil (p : string) : grouping [] p = None.
Proof. reflexivity. Qed.

Lemma grouping_cons (k p : string) (records : list PriceObject)
    (rows : list (string * list PriceObject)) :
  grouping ((k, records) :: rows) p =
  if String.eqb k p
  then Some (records ++ default [] (grouping rows p))
  else grouping rows p.
Proof.
  unfold grouping. cbn [existsb flat_map fst snd].
  destruct (String.eqb k p); cbn [orb]; [|reflexivity].
  destruct (existsb _ rows) eqn:E; cbn [default]; [reflexivity|].
  f_equal. f_equal. clear -E. induction rows as [|[k' r'] rows IH]; [reflexivity|].
  cbn [existsb flat_map fst snd] in *. apply orb_false_iff in E. destruct E as [E1 E2].
  rewrite E1. now apply IH.
Qed.

(** A loop whose body applies the row of each line groups the records
    of the rows by power level, after what [result] held before. *)
Lemma forEachM_grouping {A : Type}
    (body : gmap string (list PriceObject) -> A -> outcome (gmap string (list PriceObject)))
    (effect : A -> option (string * list PriceObject)) (lines : list A) :
  (forall line, In line lines ->
     forall result, body result line = Return (applyRow result (effect line))) ->
  forall result0,
    exists result,
      forEachM body lines result0 = Return result
      /\ forall p, result !! p
                   = match grouping (omap effect lines) p with
                     | Some records => Some (default [] (result0 !! p) ++ records)
                     | None => result0 !! p
                     end.
Proof.
  induction lines as [|line lines IH]; intros Hbody result0.
  - exists result0. split; [reflexivity|]. intros p. reflexivity.
  - cbn [forEachM]. rewrite (Hbody line) by now left. cbn [bind].
    destruct (IH (fun l Hl => Hbody l (or_intror Hl))
                 (applyRow result0 (effect line))) as (result & Hrun & Hlook).
    exists result. split; [exact Hrun|]. intros p. rewrite Hlook.
    cbn [omap list_omap]. destruct (effect line) as [[k records]|]; cbn [applyRow].
    + rewrite grouping_cons.
      destruct (String.eqb_spec k p) as [->|Hne].
      * rewrite lookup_insert_eq.
        destruct (grouping (omap effect lines) p); simpl.
        -- now rewrite <- app_assoc.
        -- now rewrite app_nil_r.
      * now rewrite lookup_insert_ne by exact Hne.
    + reflexivity.
Qed.

Lemma grouping_from_empty {A : Type}
    (body : gmap string (list PriceObject) -> A -> outcome (gmap string (list PriceObject)))
    (effect : A -> option (string * list PriceObject)) (lines : list A) :
  Forall (fun line => forall result,
            body result line = Return (applyRow result (effect line))) lines ->
  exists result,
    forEachM body lines ∅ = Return result
    /\ forall p, result !! p = grouping (omap effect lines) p.
Proof.
  intros Hall. rewrite Forall_forall in Hall.
  destruct (forEachM_grouping body effect lines
              (fun l Hl => Hall l (proj2 (list_elem_of_In _ _) Hl)) ∅)
    as (result & Hrun & Hlook).
  exists result. split; [exact Hrun|]. intros p. rewrite Hlook, lookup_empty.
  now destruct (grouping _ p).
Qed.

Lemma rowOf_key (values : list (option string)) (power startDate endDate : option string)
    (records : option string -> option string -> list PriceObject)
    (p : string) (rs : list PriceObject) :
  (complete values = true -> convertible power startDate endDate) ->
  rowOf values power startDate endDate records = Some (p, rs) ->
  inherited p = false.
Proof.
  unfold rowOf. intros H. destruct (complete values); [|discriminate].
  intros E. injection E as <- _. apply (H eq_refl).
Qed.

Lemma ownKeysOnly_empty : ownKeysOnly ∅.
Proof. intros k _. apply lookup_empty. Qed.

Lemma flatRate_loop_returns_iff ix lines :
  (exists result, forEachM (FlatRate.processLine ix) lines ∅ = Return result)
  <-> Forall (flatRateConvertible ix) lines.
Proof.
  apply (forEachM_returns_iff ownKeysOnly); [| |apply ownKeysOnly_empty].
  - intros s line Hs Hok. eexists. split; [now apply flatRate_processLine_row|].
    apply applyRow_ownKeysOnly; [exact Hs|]. intros p rs. now apply rowOf_key.
  - intros s line s' Hs Hrun Hc.
    rewrite (flatRate_processLine_complete _ _ _ Hc) in Hrun.
    eapply appendRow_returns; eauto.
Qed.

Lemma dualRate_loop_returns_iff ix lines :
  (exists result, forEachM (DualRate.processLine ix) lines ∅ = Return result)
  <-> Forall (dualRateConvertible ix) lines.
Proof.
  apply (forEachM_returns_iff ownKeysOnly); [| |apply ownKeysOnly_empty].
  - intros s line Hs Hok. eexists. split; [now apply dualRate_processLine_row|].
    apply applyRow_ownKeysOnly; [exact Hs|]. intros p rs. now apply rowOf_key.
  - intros s line s' Hs Hrun Hc.
    rewrite (dualRate_processLine_complete _ _ _ Hc) in Hrun.
    eapply appendRow_returns; eauto.
Qed.

Lemma tempo_loop_returns_iff ix lines :
  (exists result, forEachM (Tempo.processLine ix) lines ∅ = Return result)
  <-> Forall (tempoConvertible ix) lines.
Proof.
  apply (forEachM_returns_iff ownKeysOnly); [| |apply ownKeysOnly_empty].
  - intros s line Hs Hok. eexists. split; [now apply tempo_processLine_row|].
    apply applyRow_ownKeysOnly; [exact Hs|]. intros p rs. now apply rowOf_key.
  - intros s line s' Hs Hrun Hc.
    rewrite (tempo_processLine_complete _ _ _ Hc) in Hrun.
    eapply appendRow_returns; eauto.
Qed.

(** Each tabular converter returns exactly when its required columns
    are all in the header and every complete row has a power level that
    names no property of [Object.prototype], a start date with a ['/']
    and an end date that is empty or has a ['/']; otherwise it raises.
    One row that is not so aborts the conversion of the whole file. *)
Theorem conversion_returns_iff (csvContent : string) :
  let lines := csvLines csvContent in
  ((exists result, FlatRate.processBaseOptions csvContent = Return result)
   <-> FlatRate.missingColumn (FlatRate.findIndices (csvHeaders lines)) = false
       /\ Forall (flatRateConvertible (FlatRate.findIndices (csvHeaders lines))) (tl lines))
  /\ ((exists result, DualRate.processPeakOffPeakOptions csvContent = Return result)
      <-> DualRate.missingColumn (DualRate.findIndices (csvHeaders lines)) = false
          /\ Forall (dualRateConvertible (DualRate.findIndices (csvHeaders lines)))
                    (tl lines))
  /\ ((exists result, Tempo.processTempoOptions csvContent = Return result)
      <-> Tempo.missingColumn (Tempo.findIndices (csvHeaders lines)) = false
          /\ Forall (tempoConvertible (Tempo.findIndices (csvHeaders lines))) (tl lines)).
Proof.
  intros lines. split; [|split].
  - unfold FlatRate.processBaseOptions. fold lines.
    destruct (FlatRate.missingColumn _).
    + split; [intros [r Hr]; discriminate Hr|intros [H _]; discriminate H].
    + rewrite flatRate_loop_returns_iff. tauto.
  - unfold DualRate.processPeakOffPeakOptions. fold lines.
    destruct (DualRate.missingColumn _).
    + split; [intros [r Hr]; discriminate Hr|intros [H _]; discriminate H].
    + rewrite dualRate_loop_returns_iff. tauto.
  - unfold Tempo.processTempoOptions. fold lines.
    destruct (Tempo.missingColumn _).
    + split; [intros [r Hr]; discriminate Hr|intros [H _]; discriminate H].
    + rewrite tempo_loop_returns_iff. tauto.
Qed.

(** What a converter returns binds each power level of a complete row
    of the file to the records of the rows of that power level, in the
    order of the file, and binds nothing else: incomplete rows and
    empty lines leave no trace. *)
Theorem conversion_groups_rows_by_power_level (csvContent : string)
    (result : gmap string (list PriceObject)) :
  let lines := csvLines csvContent in
  (FlatRate.processBaseOptions csvContent = Return result ->
   forall p, result !! p
             = grouping (omap (flatRateRowOf (FlatRate.findIndices (csvHeaders lines)))
                              (tl lines)) p)
  /\ (DualRate.processPeakOffPeakOptions csvContent = Return result ->
      forall p, result !! p
                = grouping (omap (dualRateRowOf (DualRate.findIndices (csvHeaders lines)))
                                 (tl lines)) p)
  /\ (Tempo.processTempoOptions csvContent = Return result ->
      forall p, result !! p
                = grouping (omap (tempoRowOf (Tempo.findIndices (csvHeaders lines)))
                                 (tl lines)) p).
Proof.
  intros lines. split; [|split].
  - unfold FlatRate.processBaseOptions. fold lines.
    destruct (FlatRate.missingColumn _); [discriminate|]. intros Hrun.
    assert (Hall : Forall (flatRateConvertible (FlatRate.findIndices (csvHeaders lines)))
                          (tl lines))
      by (apply flatRate_loop_returns_iff; now exists result).
    destruct (grouping_from_empty (FlatRate.processLine (FlatRate.findIndices (csvHeaders lines)))
                (flatRateRowOf (FlatRate.findIndices (csvHeaders lines))) (tl lines))
      as (result' & Hrun' & Hlook).
    { eapply Forall_impl; [exact Hall|]. intros line Hline r.
      now apply flatRate_processLine_row. }
    rewrite Hrun in Hrun'. injection Hrun' as <-. exact Hlook.
  - unfold DualRate.processPeakOffPeakOptions. fold lines.
    destruct (DualRate.missingColumn _); [discriminate|]. intros Hrun.
    assert (Hall : Forall (dualRateConvertible (DualRate.findIndices (csvHeaders lines)))
                          (tl lines))
      by (apply dualRate_loop_returns_iff; now exists result).
    destruct (grouping_from_empty (DualRate.processLine (DualRate.findIndices (csvHeaders lines)))
                (dualRateRowOf (DualRate.findIndices (csvHeaders lines))) (tl lines))
      as (result' & Hrun' & Hlook).
    { eapply Forall_impl; [exact Hall|]. intros line Hline r.
      now apply dualRate_processLine_row. }
    rewrite Hrun in Hrun'. injection Hrun' as <-. exact Hlook.
  - unfold Tempo.processTempoOptions. fold lines.
    destruct (Tempo.missingColumn _); [discriminate|]. intros Hrun.
    assert (Hall : Forall (tempoConvertible (Tempo.findIndices (csvHeaders lines)))
                          (tl lines))
      by (apply tempo_loop_returns_iff; now exists result).
    destruct (grouping_from_empty (Tempo.processLine (Tempo.findIndices (csvHeaders lines)))
                (tempoRowOf (Tempo.findIndices (csvHeaders lines))) (tl lines))
      as (result' & Hrun' & Hlook).
    { eapply Forall_impl; [exact Hall|]. intros line Hline r.
      now apply tempo_processLine_row. }
    rewrite Hrun in Hrun'. injection Hrun' as <-. exact Hlook.
Qed.

Lemma conversion_groups_rows_by_power_level_witness :
  exists result,
    FlatRate.processBaseOptions flatRateFile = Return result
    /\ result !! "6"
       = Some [ FlatRate.consumptionPriceObject (Some "2023-01-01") (Some "2023-07-31")
                  (num 1234);
                FlatRate.subscriptionPriceObject (Some "2023-01-01") (Some "2023-07-31")
                  (num 100000);
                FlatRate.consumptionPriceObject (Some "2023-08-01") None (num 2276);
                FlatRate.subscriptionPriceObject (Some "2023-08-01") None (num 126000) ]
    /\ result !! "12" = None.
Proof.
  destruct (FlatRate.processBaseOptions flatRateFile) as [result|e] eqn:Hrun;
    [|vm_compute in Hrun; discriminate Hrun].
  exists result. split; [reflexivity|].
  pose proof (proj1 (conversion_groups_rows_by_power_level flatRateFile result) Hrun)
    as Hlook.
  split; rewrite Hlook; vm_compute; reflexivity.
Defined.

(* ===================================================================== *)
(** * Temporal coverage: the rows a converter emits *)
(* ===================================================================== *)

Lemma flatRate_grouping (csvContent : string) (result : gmap string (list PriceObject)) :
  FlatRate.processBaseOptions csvContent = Return result ->
  forall p, result !! p
            = grouping (omap (flatRateRowOf
                                (FlatRate.findIndices (csvHeaders (csvLines csvContent))))
                             (tl (csvLines csvContent))) p.
Proof.
  unfold FlatRate.processBaseOptions. set (lines := csvLines csvContent).
  destruct (FlatRate.missingColumn _); [discriminate|]. intros Hrun.
  assert (Hall : Forall (flatRateConvertible (FlatRate.findIndices (csvHeaders lines)))
                        (tl lines))
    by (apply flatRate_loop_returns_iff; now exists result).
  destruct (grouping_from_empty
              (FlatRate.processLine (FlatRate.findIndices (csvHeaders lines)))
              (flatRateRowOf (FlatRate.findIndices (csvHeaders lines))) (tl lines))
    as (result' & Hrun' & Hlook).
  { eapply Forall_impl; [exact Hall|]. intros line Hline r.
    now apply flatRate_processLine_row. }
  rewrite Hrun in Hrun'. injection Hrun' as <-. exact Hlook.
Qed.

Lemma dualRate_grouping (csvContent : string) (result : gmap string (list PriceObject)) :
  DualRate.processPeakOffPeakOptions csvContent = Return result ->
  forall p, result !! p
            = grouping (omap (dualRateRowOf
                                (DualRate.findIndices (csvHeaders (csvLines csvContent))))
                             (tl (csvLines csvContent))) p.
Proof.
  unfold DualRate.processPeakOffPeakOptions. set (lines := csvLines csvContent).
  destruct (DualRate.missingColumn _); [discriminate|]. intros Hrun.
  assert (Hall : Forall (dualRateConvertible (DualRate.findIndices (csvHeaders lines)))
                        (tl lines))
    by (apply dualRate_loop_returns_iff; now exists result).
  destruct (grouping_from_empty
              (DualRate.processLine (DualRate.findIndices (csvHeaders lines)))
              (dualRateRowOf (DualRate.findIndices (csvHeaders lines))) (tl lines))
    as (result' & Hrun' & Hlook).
  { eapply Forall_impl; [exact Hall|]. intros line Hline r.
    now apply dualRate_processLine_row. }
  rewrite Hrun in Hrun'. injection Hrun' as <-. exact Hlook.
Qed.

Lemma tempo_grouping (csvContent : string) (result : gmap string (list PriceObject)) :
  Tempo.processTempoOptions csvContent = Return result ->
  forall p, result !! p
            = grouping (omap (tempoRowOf
                                (Tempo.findIndices (csvHeaders (csvLines csvContent))))
                             (tl (csvLines csvContent))) p.
Proof.
  unfold Tempo.processTempoOptions. set (lines := csvLines csvContent).
  destruct (Tempo.missingColumn _); [discriminate|]. intros Hrun.
  assert (Hall : Forall (tempoConvertible (Tempo.findIndices (csvHeaders lines)))
                        (tl lines))
    by (apply tempo_loop_returns_iff; now exists result).
  destruct (grouping_from_empty
              (Tempo.processLine (Tempo.findIndices (csvHeaders lines)))
              (tempoRowOf (Tempo.findIndices (csvHeaders lines))) (tl lines))
    as (result' & Hrun' & Hlook).
  { eapply Forall_impl; [exact Hall|]. intros line Hline r.
    now apply tempo_processLine_row. }
  rewrite Hrun in Hrun'. injection Hrun' as <-. exact Hlook.
Qed.

(** The records of a row are in the grouping of its power level, one
    after the other. *)
Lemma grouping_In (rows : list (string * list PriceObject)) (p : string)
    (records : list PriceObject) :
  In (p, records) rows ->
  exists front back, grouping rows p = Some (front ++ records ++ back).
Proof.
  induction rows as [|[k r] rows IH]; [intros []|].
  intros [E|Hin]; rewrite grouping_cons.
  - injection E as -> ->. rewrite String.eqb_refl.
    exists [], (default [] (grouping rows p)). reflexivity.
  - destruct (IH Hin) as (front & back & E). rewrite E.
    destruct (String.eqb k p).
    + exists (r ++ front), back. cbn [default]. now rewrite <- app_assoc.
    + exists front, back. reflexivity.
Qed.

Lemma rowOf_records (values : list (option string))
    (power startDate endDate : option string)
    (build : option string -> option string -> list PriceObject)
    (p : string) (records : list PriceObject) :
  rowOf values power startDate endDate build = Some (p, records) ->
  exists startDateIso endDateIso, records = build startDateIso endDateIso.
Proof.
  unfold rowOf. destruct (complete values); [|discriminate].
  intros E. injection E as _ <-. eauto.
Qed.

Lemma flatRateRecords_row (ix : FlatRate.indices) (rawLine : string)
    (startDateIso endDateIso : option string) :
  rowWithSubscription (flatRateRecords ix rawLine startDateIso endDateIso).
Proof.
  unfold flatRateRecords. eexists [_], _. split; [reflexivity|].
  split; [discriminate|]. split; [reflexivity|].
  repeat (constructor; [split; [reflexivity|split; reflexivity]|]). constructor.
Qed.

Lemma dualRateRecords_row (ix : DualRate.indices) (rawLine : string)
    (startDateIso endDateIso : option string) :
  rowWithSubscription (dualRateRecords ix rawLine startDateIso endDateIso).
Proof.
  unfold dualRateRecords. eexists [_; _], _. split; [reflexivity|].
  split; [discriminate|]. split; [reflexivity|].
  repeat (constructor; [split; [reflexivity|split; reflexivity]|]). constructor.
Qed.

Lemma tempoRecords_row (ix : Tempo.indices) (rawLine : string)
    (startDateIso endDateIso : option string) :
  rowWithSubscription (tempoRecords ix rawLine startDateIso endDateIso).
Proof.
  unfold tempoRecords, Tempo.priceObjects. eexists [_; _; _; _; _; _], _.
  split; [reflexivity|].
  split; [discriminate|]. split; [reflexivity|].
  repeat (constructor; [split; [reflexivity|split; reflexivity]|]). constructor.
Qed.

Lemma grouping_rowsEmitted (row : string -> option (string * list PriceObject))
    (lines : list string) (result : gmap string (list PriceObject)) :
  (forall line p records, row line = Some (p, records) -> rowWithSubscription records) ->
  (forall p, result !! p = grouping (omap row lines) p) ->
  rowsEmitted row lines result.
Proof.
  intros Hrow Hlook line p records Hin Hline. split; [eapply Hrow, Hline|].
  rewrite Hlook. apply grouping_In.
  apply list_elem_of_In, list_elem_of_omap. exists line.
  split; [now apply list_elem_of_In|exact Hline].
Qed.

(** C6: in what a tabular converter returns, every power level is
    covered: each date pair of a consumption record is the date pair of
    a subscription record of the same power level. Every complete row
    of the file is emitted: its records are in the list of its power
    level, one after the other, the consumption records first and then
    the subscription record of the row, which has the date pair of
    each of them. And the validator ends with an error whenever some
    power level of the document has a consumption record whose date
    pair no subscription record of that power level has. *)
Theorem temporal_coverage_parity :
  (forall csvContent result,
     let lines := csvLines csvContent in
     (FlatRate.processBaseOptions csvContent = Return result ->
      allCovered result
      /\ rowsEmitted (flatRateRowOf (FlatRate.findIndices (csvHeaders lines)))
                     (tl lines) result)
     /\ (DualRate.processPeakOffPeakOptions csvContent = Return result ->
         allCovered result
         /\ rowsEmitted (dualRateRowOf (DualRate.findIndices (csvHeaders lines)))
                        (tl lines) result)
     /\ (Tempo.processTempoOptions csvContent = Return result ->
         allCovered result
         /\ rowsEmitted (tempoRowOf (Tempo.findIndices (csvHeaders lines)))
                        (tl lines) result))
  /\ (forall contractsData contractType contractData power prices c,
        In (contractType, contractData) contractsData ->
        In (power, prices) contractData ->
        In c prices -> price_type c = "consumption" ->
        (forall s, In s prices -> price_type s = "subscription" -> ~ sameDates s c) ->
        raises (Validator.runTests contractsData)).
Proof.
  split.
  - intros csvContent result lines. split; [|split]; intros Hrun; split.
    + exact (converters_covered csvContent result (or_introl Hrun)).
    + apply grouping_rowsEmitted; [|now apply flatRate_grouping].
      intros line p records Hline.
      destruct (rowOf_records _ _ _ _ _ _ _ Hline) as (sd & ed & ->).
      apply flatRateRecords_row.
    + exact (converters_covered csvContent result (or_intror (or_introl Hrun))).
    + apply grouping_rowsEmitted; [|now apply dualRate_grouping].
      intros line p records Hline.
      destruct (rowOf_records _ _ _ _ _ _ _ Hline) as (sd & ed & ->).
      apply dualRateRecords_row.
    + exact (converters_covered csvContent result (or_intror (or_intror Hrun))).
    + apply grouping_rowsEmitted; [|now apply tempo_grouping].
      intros line p records Hline.
      destruct (rowOf_records _ _ _ _ _ _ _ Hline) as (sd & ed & ->).
      apply tempoRecords_row.
  - intros contractsData contractType contractData power prices c Hct Hp Hc Hcons Hno.
    destruct (outcome_unit_cases (Validator.runTests contractsData)) as [H|H];
      [|exact H].
    exfalso.
    destruct (runTests_covered _ H _ _ _ _ Hct Hp c Hc Hcons) as (s & Hs & Hsub & Hsame).
    exact (Hno s Hs Hsub Hsame).
Qed.

Lemma temporal_coverage_parity_witness :
  (exists result front back,
     FlatRate.processBaseOptions flatRateFile = Return result
     /\ allCovered result
     /\ result !! "6"
        = Some (front
                ++ [ FlatRate.consumptionPriceObject (Some "2023-08-01") None (num 2276);
                     FlatRate.subscriptionPriceObject (Some "2023-08-01") None
                       (num 126000) ]
                ++ back))
  /\ Validator.validateStructure uncoveredContracts = Return tt
  /\ Validator.checkExpected uncoveredContracts = Return tt
  /\ Validator.runTests uncoveredContracts
     = Throw (Error "edf-base[6]: Missing subscription price for date range 2023-01-01|null")
  /\ raises (Validator.runTests uncoveredContracts).
Proof.
  destruct temporal_coverage_parity as [Hconv Hval]. split; [|split; [|split; [|split]]].
  - destruct (FlatRate.processBaseOptions flatRateFile) as [result|e] eqn:Hrun;
      [|vm_compute in Hrun; discriminate Hrun].
    destruct (Hconv flatRateFile result) as [Hflat _].
    destruct (Hflat Hrun) as [Hcov Hrows].
    destruct (Hrows "01/08/2023;;6;0,2276;151,20" "6"
                [ FlatRate.consumptionPriceObject (Some "2023-08-01") None (num 2276);
                  FlatRate.subscriptionPriceObject (Some "2023-08-01") None
                    (num 126000) ])
      as (_ & front & back & Hlook).
    + vm_compute. right. left. reflexivity.
    + vm_compute. reflexivity.
    + exists result, front, back. split; [reflexivity|]. split; [exact Hcov|exact Hlook].
  - vm_compute. reflexivity.
  - vm_compute. reflexivity.
  - vm_compute. reflexivity.
  - eapply (Hval uncoveredContracts "edf-base" _ "6" _ _).
    + left. reflexivity.
    + left. reflexivity.
    + left. reflexivity.
    + reflexivity.
    + intros s [<-|[<-|[]]] Hsub [Hstart _]; discriminate.
Defined.

(** ** The shape of what a converter returns *)

Lemma convertToIsoDate_truthy (d iso : option string) :
  truthy d = true -> convertToIsoDate d = Return iso -> exists s, iso = Some s.
Proof.
  destruct d as [[|c s]|]; cbn [truthy]; try discriminate. intros _.
  unfold convertToIsoDate. destruct (nth_error _ 1); [|discriminate].
  destruct (nth_error _ 0); [|discriminate]. intros H. injection H as <-. eauto.
Qed.

Lemma allLists_empty (Q : list PriceObject -> Prop) : allLists Q ∅.
Proof. intros k ps Hk. rewrite lookup_empty in Hk. discriminate Hk. Qed.

Lemma appendRow_allLists (Q : list PriceObject -> Prop)
    (result result' : gmap string (list PriceObject))
    (power startDate endDate : option string)
    (records : option string -> option string -> list PriceObject) :
  (forall arr startDateIso endDateIso,
     arr = [] \/ Q arr ->
     convertToIsoDate startDate = Return startDateIso ->
     convertEndDate endDate = Return endDateIso ->
     Q (arr ++ records startDateIso endDateIso)) ->
  allLists Q result ->
  appendRow result power startDate endDate records = Return result' ->
  allLists Q result'.
Proof.
  intros Hrec Hall. unfold appendRow.
  destruct (convertToIsoDate startDate) as [sd|] eqn:Hsd; [|discriminate]. cbn [bind].
  destruct (convertEndDate endDate) as [ed|] eqn:Hed; [|discriminate]. cbn [bind].
  rewrite pushGroup_initGroup.
  assert (Hins : forall prices, Q prices -> allLists Q (<[str power := prices]> result)).
  { intros prices Hp k ps Hk. destruct (decide (str power = k)) as [Heq|Hne].
    - rewrite <- Heq, lookup_insert_eq in Hk. now injection Hk as <-.
    - rewrite lookup_insert_ne in Hk by exact Hne. eapply Hall, Hk. }
  destruct (result !! str power) as [arr|] eqn:E.
  - intros H. injection H as <-.
    apply Hins, Hrec; [right; eapply Hall, E|reflexivity|reflexivity].
  - destruct (inherited (str power)); [discriminate|].
    intros H. injection H as <-. apply Hins.
    apply (Hrec [] sd ed); [now left|reflexivity|reflexivity].
Qed.

Lemma madeOf_app (isBlock : list PriceObject -> Prop) (arr block : list PriceObject) :
  arr = [] \/ madeOf isBlock arr -> isBlock block -> madeOf isBlock (arr ++ block).
Proof.
  intros [->|(blocks & Hne & Hall & ->)] Hb.
  - exists [block]. split; [discriminate|]. split; [now constructor|].
    cbn. now rewrite app_nil_r.
  - exists (blocks ++ [block]). split; [now destruct blocks|].
    split; [apply Forall_app; split; [exact Hall|now constructor]|].
    rewrite concat_app. cbn. now rewrite app_nil_r.
Qed.

Lemma complete_start_date (rest : list (option string)) (power startDate : option string) :
  complete (power :: startDate :: rest) = true -> truthy startDate = true.
Proof.
  unfold complete. cbn [forallb]. intros H.
  apply andb_true_iff in H. destruct H as [_ H].
  apply andb_true_iff in H. now destruct H as [H _].
Qed.

Lemma flatRate_blocks (csvContent : string) (result : gmap string (list PriceObject)) :
  FlatRate.processBaseOptions csvContent = Return result ->
  allLists (madeOf flatRateBlock) result.
Proof.
  unfold FlatRate.processBaseOptions.
  set (ix := FlatRate.findIndices _).
  destruct (FlatRate.missingColumn ix); [discriminate|].
  apply forEachM_invariant; [|apply allLists_empty].
  intros s line s' Hs. destruct (complete (flatRateValues ix line)) eqn:E.
  - rewrite (flatRate_processLine_complete _ _ _ E).
    apply appendRow_allLists; [|exact Hs]. intros arr sd ed Harr Hsd _.
    apply madeOf_app; [exact Harr|].
    destruct (convertToIsoDate_truthy _ _ (complete_start_date _ _ _ E) Hsd) as [iso ->].
    unfold flatRateBlock, flatRateRecords. eauto 10.
  - rewrite (flatRate_processLine_incomplete _ _ _ E). intros H. now injection H as <-.
Qed.

Lemma dualRate_blocks (csvContent : string) (result : gmap string (list PriceObject)) :
  DualRate.processPeakOffPeakOptions csvContent = Return result ->
  allLists (madeOf dualRateBlock) result.
Proof.
  unfold DualRate.processPeakOffPeakOptions.
  set (ix := DualRate.findIndices _).
  destruct (DualRate.missingColumn ix); [discriminate|].
  apply forEachM_invariant; [|apply allLists_empty].
  intros s line s' Hs. destruct (complete (dualRateValues ix line)) eqn:E.
  - rewrite (dualRate_processLine_complete _ _ _ E).
    apply appendRow_allLists; [|exact Hs]. intros arr sd ed Harr Hsd _.
    apply madeOf_app; [exact Harr|].
    destruct (convertToIsoDate_truthy _ _ (complete_start_date _ _ _ E) Hsd) as [iso ->].
    unfold dualRateBlock, dualRateRecords. eauto 10.
  - rewrite (dualRate_processLine_incomplete _ _ _ E). intros H. now injection H as <-.
Qed.

Lemma tempo_blocks (csvContent : string) (result : gmap string (list PriceObject)) :
  Tempo.processTempoOptions csvContent = Return result ->
  allLists (madeOf tempoBlock) result.
Proof.
  unfold Tempo.processTempoOptions.
  set (ix := Tempo.findIndices _).
  destruct (Tempo.missingColumn ix); [discriminate|].
  apply forEachM_invariant; [|apply allLists_empty].
  intros s line s' Hs. destruct (complete (tempoValues ix line)) eqn:E.
  - rewrite (tempo_processLine_complete _ _ _ E).
    apply appendRow_allLists; [|exact Hs]. intros arr sd ed Harr Hsd _.
    apply madeOf_app; [exact Harr|].
    destruct (convertToIsoDate_truthy _ _ (complete_start_date _ _ _ E) Hsd) as [iso ->].
    unfold tempoBlock, tempoRecords. eauto 15.
  - rewrite (tempo_processLine_incomplete _ _ _ E). intros H. now injection H as <-.
Qed.

(** Every list of what a converter returns is one or more whole rows,
    one after the other: two records a row for the flat-rate
    converter, three for the dual-rate one, seven for the
    calendar-tiered one, the records of a row sharing the date pair,
    with a start date that is a string, and the subscription record
    last. No power level is bound to an empty list. *)
Theorem converter_output_is_whole_rows (csvContent : string)
    (result : gmap string (list PriceObject)) :
  (FlatRate.processBaseOptions csvContent = Return result ->
   allLists (madeOf flatRateBlock) result)
  /\ (DualRate.processPeakOffPeakOptions csvContent = Return result ->
      allLists (madeOf dualRateBlock) result)
  /\ (Tempo.processTempoOptions csvContent = Return result ->
      allLists (madeOf tempoBlock) result).
Proof.
  split; [apply flatRate_blocks|split; [apply dualRate_blocks|apply tempo_blocks]].
Qed.

Lemma converter_output_is_whole_rows_witness :
  exists result,
    FlatRate.processBaseOptions flatRateFile = Return result
    /\ allLists (madeOf flatRateBlock) result.
Proof.
  destruct (FlatRate.processBaseOptions flatRateFile) as [result|e] eqn:Hrun;
    [|vm_compute in Hrun; discriminate Hrun].
  exists result. split; [reflexivity|].
  exact (proj1 (converter_output_is_whole_rows flatRateFile result) Hrun).
Defined.

(** ** What the validator finds in what a converter returns *)

Lemma madeOf_nonempty (isBlock : list PriceObject -> Prop) (prices : list PriceObject) :
  (forall block, isBlock block -> block <> []) -> madeOf isBlock prices -> prices <> [].
Proof.
  intros Hb (blocks & Hne & Hall & ->). destruct blocks as [|b blocks]; [congruence|].
  inversion Hall as [|? ? Hb1 _]; subst. cbn. specialize (Hb _ Hb1).
  destruct b; [congruence|discriminate].
Qed.

Lemma madeOf_exists (isBlock : list PriceObject -> Prop) (P : PriceObject -> Prop)
    (prices : list PriceObject) :
  (forall block, isBlock block -> exists r, In r block /\ P r) ->
  madeOf isBlock prices -> exists r, In r prices /\ P r.
Proof.
  intros Hb (blocks & Hne & Hall & ->). destruct blocks as [|b blocks]; [congruence|].
  inversion Hall as [|? ? Hb1 _]; subst. destruct (Hb _ Hb1) as (r & Hr & HP).
  exists r. split; [|exact HP]. cbn. apply in_or_app. now left.
Qed.

Lemma madeOf_Forall (isBlock : list PriceObject -> Prop) (P : PriceObject -> Prop)
    (prices : list PriceObject) :
  (forall block, isBlock block -> Forall P block) ->
  madeOf isBlock prices -> forall r, In r prices -> P r.
Proof.
  intros Hb (blocks & _ & Hall & ->) r Hr. apply in_concat in Hr.
  destruct Hr as (b & Hin & Hr). rewrite Forall_forall in Hall.
  apply list_elem_of_In in Hin. specialize (Hb _ (Hall _ Hin)).
  rewrite Forall_forall in Hb. apply Hb. now apply list_elem_of_In.
Qed.

Lemma acceptedRecord_known (r : PriceObject) :
  Validator.includes Validator.validContracts (contract r) = true ->
  Validator.includes ["consumption"; "subscription"] (price_type r) = true ->
  currency r = "euro" ->
  acceptedRecord r <-> validDates r /\ ltb64 (price r) (num 0) = false.
Proof. unfold acceptedRecord, validDates. tauto. Qed.

(** The fields the flat-rate converter sets by itself. *)
Lemma flatRateBlock_fields (block : list PriceObject) :
  flatRateBlock block ->
  Forall (fun r => contract r = "base" /\ currency r = "euro"
                   /\ hour_slots r = None /\ day_type r = None
                   /\ (price_type r = "consumption" \/ price_type r = "subscription"))
         block.
Proof.
  intros (sd & ed & x & y & ->).
  repeat (constructor; [cbn; repeat split; auto|]). constructor.
Qed.

Lemma dualRateBlock_fields (block : list PriceObject) :
  dualRateBlock block ->
  Forall (fun r => contract r = "peak-off-peak" /\ currency r = "euro"
                   /\ day_type r = None
                   /\ ((price_type r = "consumption"
                        /\ (hour_slots r = Some "TO_REPLACE_PEAK"
                            \/ hour_slots r = Some "TO_REPLACE_OFF_PEAK"))
                       \/ (price_type r = "subscription" /\ hour_slots r = None)))
         block.
Proof.
  intros (sd & ed & x & y & z & ->).
  repeat (constructor; [cbn; repeat split; auto|]). constructor.
Qed.

Lemma flatRate_validity (power : string) (prices : list PriceObject) :
  madeOf flatRateBlock prices ->
  Validator.validatePower "edf-base" (power, prices) = Return tt
  <-> forall r, In r prices -> validDatesAndPrice r.
Proof.
  intros Hm. rewrite validatePower_iff.
  assert (Hne : prices <> []).
  { apply (madeOf_nonempty flatRateBlock); [|exact Hm].
    intros b (sd & ed & x & y & ->). discriminate. }
  assert (Hsub : exists s, In s prices /\ price_type s = "subscription").
  { apply (madeOf_exists flatRateBlock); [|exact Hm].
    intros b (sd & ed & x & y & ->). eexists. split; [right; left; reflexivity|].
    reflexivity. }
  pose proof (madeOf_Forall _ _ _ flatRateBlock_fields Hm) as Hf.
  unfold validDatesAndPrice, requirementsMet, subscriptionRule. split.
  - intros (_ & Hacc & _ & Hs & _) r Hr.
    destruct (Hf r Hr) as (Hc & Hcur & _ & _ & Ht).
    specialize (Hacc r Hr). apply acceptedRecord_known in Hacc;
      [| now rewrite Hc | destruct Ht as [-> | ->]; reflexivity | exact Hcur].
    destruct Hacc as [Hd Hp]. repeat split; try apply Hd; try exact Hp.
    intros Hty. now apply (Hs r Hr Hty).
  - intros H. split; [exact Hne|]. split; [|split; [exact Hsub|split]].
    + intros r Hr. destruct (Hf r Hr) as (Hc & Hcur & _ & _ & Ht).
      apply acceptedRecord_known;
        [now rewrite Hc | destruct Ht as [-> | ->]; reflexivity | exact Hcur|].
      destruct (H r Hr) as (Hd & Hp & _). now split.
    + intros r Hr Hty. destruct (Hf r Hr) as (_ & _ & Hh & Hdt & _).
      destruct (H r Hr) as (_ & _ & Hp). auto.
    + intros r Hr Hty. destruct (Hf r Hr) as (_ & _ & Hh & Hdt & _).
      cbn. now split.
Qed.

Lemma dualRate_validity (power : string) (prices : list PriceObject) :
  madeOf dualRateBlock prices ->
  Validator.validatePower "edf-peak-off-peak" (power, prices) = Return tt
  <-> forall r, In r prices -> validDatesAndPrice r.
Proof.
  intros Hm. rewrite validatePower_iff.
  assert (Hne : prices <> []).
  { apply (madeOf_nonempty dualRateBlock); [|exact Hm].
    intros b (sd & ed & x & y & z & ->). discriminate. }
  assert (Hsub : exists s, In s prices /\ price_type s = "subscription").
  { apply (madeOf_exists dualRateBlock); [|exact Hm].
    intros b (sd & ed & x & y & z & ->). eexists.
    split; [right; right; left; reflexivity|]. reflexivity. }
  pose proof (madeOf_Forall _ _ _ dualRateBlock_fields Hm) as Hf.
  unfold validDatesAndPrice, requirementsMet, subscriptionRule. split.
  - intros (_ & Hacc & _ & Hs & _) r Hr.
    destruct (Hf r Hr) as (Hc & Hcur & _ & Ht).
    specialize (Hacc r Hr). apply acceptedRecord_known in Hacc;
      [| now rewrite Hc | destruct Ht as [[-> _]|[-> _]]; reflexivity | exact Hcur].
    destruct Hacc as [Hd Hp]. repeat split; try apply Hd; try exact Hp.
    intros Hty. now apply (Hs r Hr Hty).
  - intros H. split; [exact Hne|]. split; [|split; [exact Hsub|split]].
    + intros r Hr. destruct (Hf r Hr) as (Hc & Hcur & _ & Ht).
      apply acceptedRecord_known;
        [now rewrite Hc | destruct Ht as [[-> _]|[-> _]]; reflexivity | exact Hcur|].
      destruct (H r Hr) as (Hd & Hp & _). now split.
    + intros r Hr Hty. destruct (Hf r Hr) as (_ & _ & Hdt & Ht).
      destruct (H r Hr) as (_ & _ & Hp).
      destruct Ht as [[Ht _]|[_ Hh]]; [rewrite Ht in Hty; discriminate Hty|]. auto.
    + intros r Hr Hty. destruct (Hf r Hr) as (_ & _ & Hdt & Ht).
      destruct Ht as [[_ Hh]|[Ht _]]; [|rewrite Ht in Hty; discriminate Hty].
      cbn. split; [tauto|exact Hdt].
Qed.

(** On a power level of what the flat-rate converter returns, checked
    as "edf-base", and of what the dual-rate converter returns, checked
    as "edf-peak-off-peak", step 5 of the validator passes exactly when
    every record has a start date of the form YYYY-MM-DD, an end date
    that is [null] or of that form, and a price that is not below 0,
    and every subscription record a price that is not [<= 0]: the
    contract name, the price type, the currency, the hour slots, the
    day type and the presence of a subscription record are as the
    validator wants them by construction. *)
Theorem converter_output_validity (csvContent power : string)
    (result : gmap string (list PriceObject)) (prices : list PriceObject) :
  result !! power = Some prices ->
  (FlatRate.processBaseOptions csvContent = Return result ->
   Validator.validatePower "edf-base" (power, prices) = Return tt
   <-> forall r, In r prices -> validDatesAndPrice r)
  /\ (DualRate.processPeakOffPeakOptions csvContent = Return result ->
      Validator.validatePower "edf-peak-off-peak" (power, prices) = Return tt
      <-> forall r, In r prices -> validDatesAndPrice r).
Proof.
  intros Hp. split; intros Hrun.
  - apply flatRate_validity. exact (flatRate_blocks _ _ Hrun _ _ Hp).
  - apply dualRate_validity. exact (dualRate_blocks _ _ Hrun _ _ Hp).
Qed.

Lemma converter_output_validity_witness :
  exists result prices,
    FlatRate.processBaseOptions flatRateFile = Return result
    /\ result !! "6" = Some prices
    /\ (Validator.validatePower "edf-base" ("6", prices) = Return tt
        <-> forall r, In r prices -> validDatesAndPrice r)
    /\ Validator.validatePower "edf-base" ("6", prices) = Return tt.
Proof.
  destruct (FlatRate.processBaseOptions flatRateFile) as [result|e] eqn:Hrun;
    [|vm_compute in Hrun; discriminate Hrun].
  destruct (result !! "6") as [prices|] eqn:Hp.
  - exists result, prices. split; [reflexivity|]. split; [exact Hp|].
    split; [exact (proj1 (converter_output_validity flatRateFile "6" result prices Hp)
                     Hrun)|].
    vm_compute in Hrun. injection Hrun as <-. vm_compute in Hp. injection Hp as <-.
    vm_compute. reflexivity.
  - vm_compute in Hrun. injection Hrun as <-. vm_compute in Hp. discriminate Hp.
Defined.

(* ===================================================================== *)
(** * Further properties: converted dates *)
(* ===================================================================== *)

Lemma append_nil_l (s : string) : "" +:+ s = s.
Proof. reflexivity. Qed.

Lemma append_cons (c : ascii) (s t : string) : String c s +:+ t = String c (s +:+ t).
Proof. reflexivity. Qed.

(** Reads an equation between a concatenation and a string of known
    length one character at a time. *)
Ltac peel H :=
  repeat (rewrite ?append_cons, ?append_nil_l in H;
    match type of H with
    | String ?c _ = String ?c _ => injection H as H
    | String _ _ = String _ _ =>
        let E := fresh "E" in injection H as E H;
        try (subst; match goal with Hd : isDigit "-" = true |- _ => discriminate Hd end)
    | EmptyString = String _ _ => discriminate H
    | String _ _ = EmptyString => discriminate H
    | String.append ?s _ = _ => is_var s; destruct s
    end).

Lemma dateRegex_test_shape (s : string) :
  Validator.dateRegex_test s = true ->
  exists y1 y2 y3 y4 m1 m2 a1 a2,
    s = String y1 (String y2 (String y3 (String y4 (String "-" (String m1 (String m2
          (String "-" (String a1 (String a2 "")))))))))
    /\ isDigit y1 = true /\ isDigit y2 = true /\ isDigit y3 = true /\ isDigit y4 = true
    /\ isDigit m1 = true /\ isDigit m2 = true /\ isDigit a1 = true /\ isDigit a2 = true.
Proof.
  unfold Validator.dateRegex_test.
  do 11 (destruct s as [|? s]; cbn [list_ascii_of_string]; try discriminate).
  intros H. repeat (apply andb_true_iff in H; destruct H as [H ?]).
  repeat match goal with
         | E : Ascii.eqb _ _ = true |- _ => apply Ascii.eqb_eq in E; subst
         end.
  do 8 eexists. split; [reflexivity|]. repeat split; try assumption.
  unfold isDigit. apply andb_true_iff. split; assumption.
Qed.

(** The date test reads [year-month-day] as four, two and two digits,
    however the three parts came about. *)
Lemma dateRegex_parts (y M D : string) :
  Validator.dateRegex_test (y +:+ "-" +:+ M +:+ "-" +:+ D) = true
  <-> digits 4 y /\ digits 2 M /\ digits 2 D.
Proof.
  split.
  - intros H. apply dateRegex_test_shape in H.
    destruct H as (y1 & y2 & y3 & y4 & m1 & m2 & a1 & a2 & H & Hd).
    destruct Hd as (H1 & H2 & H3 & H4 & H5 & H6 & H7 & H8).
    peel H. subst. unfold digits, allDigits. cbn.
    rewrite H1, H2, H3, H4, H5, H6, H7, H8. repeat split.
  - intros ((Ly & Hy) & (LM & HM) & (LD & HD)).
    destruct y as [|y1 [|y2 [|y3 [|y4 [|y5 y]]]]]; try discriminate Ly.
    destruct M as [|m1 [|m2 [|m3 M]]]; try discriminate LM.
    destruct D as [|a1 [|a2 [|a3 D]]]; try discriminate LD.
    unfold allDigits in Hy, HM, HD. cbn in Hy, HM, HD.
    rewrite !andb_true_r in Hy, HM, HD.
    repeat match goal with
           | E : _ && _ = true |- _ => apply andb_true_iff in E; destruct E
           end.
    unfold Validator.dateRegex_test. rewrite !append_cons, !append_nil_l.
    cbn [list_ascii_of_string].
    repeat match goal with E : isDigit _ = true |- _ => rewrite E; clear E end.
    reflexivity.
Qed.

Lemma padStart2_digits (s : string) : digits 2 (padStart2 s) <-> upToTwoDigits s.
Proof.
  unfold digits, upToTwoDigits, padStart2.
  destruct s as [|a [|b [|c s]]]; cbn [String.length].
  - cbn. split; intros _; split; auto.
  - rewrite append_cons, append_nil_l. unfold allDigits. cbn.
    split; intros [_ H]; split; auto.
  - split; intros [_ H]; split; auto.
  - split; intros [H _]; [discriminate H|lia].
Qed.

Lemma template_digits (year : option string) :
  digits 4 (template year) <-> exists y, year = Some y /\ digits 4 y.
Proof.
  destruct year as [y|]; cbn [template].
  - split; [intros H; now exists y|]. intros (y' & E & H). now injection E as ->.
  - split; [intros [H _]; discriminate H|]. intros (y & E & _). discriminate E.
Qed.

Lemma converted_date_iff (dateStr iso : string) :
  convertToIsoDate (Some dateStr) = Return (Some iso) ->
  Validator.dateRegex_test iso = true
  <-> exists day month year rest,
        split "/" dateStr = day :: month :: year :: rest
        /\ upToTwoDigits day /\ upToTwoDigits month /\ digits 4 year.
Proof.
  unfold convertToIsoDate. destruct dateStr as [|c s]; [discriminate|].
  destruct (split "/" (String c s)) as [|day [|month parts]]; cbn [nth_error];
    try discriminate.
  intros H. injection H as <-. rewrite dateRegex_parts, !padStart2_digits.
  rewrite template_digits. split.
  - intros ((y & E & Hy) & Hm & Hd). destruct parts as [|year rest]; [discriminate E|].
    cbn in E. injection E as ->. exists day, month, y, rest. auto.
  - intros (d & m & y & rest & E & Hd & Hm & Hy). injection E as -> -> ->.
    split; [|split; assumption]. exists y. split; [reflexivity|exact Hy].
Qed.

(** A converted date passes the date test of the validator exactly
    when the date string has three parts or more between its slashes,
    the first two of at most two digits and the third of four digits:
    day, month and year are not checked against the calendar, and a
    date string of two parts converts to a string that fails the
    test. *)
Theorem converted_date_valid_iff (dateStr iso : string) :
  convertToIsoDate (Some dateStr) = Return (Some iso) ->
  Validator.dateRegex_test iso = true
  <-> exists day month year rest,
        split "/" dateStr = day :: month :: year :: rest
        /\ upToTwoDigits day /\ upToTwoDigits month /\ digits 4 year.
Proof. exact (converted_date_iff dateStr iso). Qed.

Lemma converted_date_valid_iff_witness :
  convertToIsoDate (Some "1/2/2023") = Return (Some "2023-02-01")
  /\ (Validator.dateRegex_test "2023-02-01" = true
      <-> exists day month year rest,
            split "/" "1/2/2023" = day :: month :: year :: rest
            /\ upToTwoDigits day /\ upToTwoDigits month /\ digits 4 year).
Proof.
  split; [reflexivity|].
  apply (converted_date_valid_iff "1/2/2023" "2023-02-01"). reflexivity.
Defined.

(* ===================================================================== *)
(** * Further properties: the catalog with a subscription table *)
(* ===================================================================== *)

Section CatalogContent.
Context {Obj : Type} (emptyObject : Obj) (h0 : heap Obj) (contractData : nat).
Variable subscriptionData : list (string * option nat).
Hypothesis Hparsed : parsed h0 contractData subscriptionData.

Local Abbreviation entries := (readArray h0 contractData).
Local Abbreviation before := (arraysBefore subscriptionData).
Local Abbreviation inv := (stepInvariant emptyObject h0 entries before (fun _ => True)).
Local Abbreviation bound := (boundToTable h0 contractData subscriptionData).

(** One call of the callback, in terms of the store it starts from. *)
Lemma forEachPower_arrays (done : list string) (result : gmap string nat)
    (h : heap Obj) (power : string) :
  inv done (result, h) ->
  exists newArrays,
    Catalog.forEachPower emptyObject contractData subscriptionData (result, h) power
    = (setProperty result power (length (arrays h) + before power),
       {| objects := objects h ++ map (readObject emptyObject h0) entries;
          arrays := arrays h ++ newArrays |})
    /\ length newArrays = S (before power)
    /\ newArrays !! before power
       = Some (copiesAt h0 entries (length done)
               ++ subscriptionsOf h0 subscriptionData power).
Proof.
  intros Hinv.
  destruct (copyEntries_step emptyObject h0 contractData subscriptionData Hparsed
              _ _ _ _ _ Hinv) as [Hread Hcopy].
  pose proof Hinv as ((oext & Eo & Lo) & (aext & Ea & La) & _).
  cbn [fst snd] in *.
  unfold Catalog.forEachPower. rewrite Hread, Hcopy.
  cbn [newArray objects arrays].
  assert (Hat : forall (objs : list Obj) (front back : list (list nat)) elems,
             readArray {| objects := objs; arrays := front ++ elems :: back |}
               (length front) = elems).
  { intros objs front back elems. unfold readArray. cbn [arrays].
    rewrite lookup_app_r by lia. now rewrite Nat.sub_diag. }
  unfold arraysBefore, subscriptionsOf.
  destruct (Catalog.property subscriptionData power) as [a|] eqn:E;
    cbn [newArray objects arrays].
  - exists [copiesAt h0 entries (length done);
            copiesAt h0 entries (length done) ++ readArray h0 a].
    split; [|split; reflexivity].
    rewrite (Hat _ (arrays h) []).
    rewrite (readArray_extended h0 _ (aext ++ [copiesAt h0 entries (length done)]) a).
    + rewrite length_app, <- app_assoc. reflexivity.
    + cbn [arrays]. rewrite Ea, <- app_assoc. reflexivity.
    + eapply property_parsed; [exact Hparsed|exact E].
  - exists [copiesAt h0 entries (length done); [];
            copiesAt h0 entries (length done) ++ []].
    split; [|split; reflexivity].
    rewrite <- (app_assoc (arrays h) [_] [[]]). cbn [app].
    rewrite (Hat _ (arrays h) [[]]).
    replace (readArray _ (length (arrays h ++ [copiesAt h0 entries (length done)])))
      with (@nil nat).
    2:{ unfold readArray. cbn [arrays]. rewrite length_app. cbn [length].
        rewrite lookup_app_r by lia.
        now replace (length (arrays h) + 1 - length (arrays h)) with 1 by lia. }
    rewrite length_app, <- app_assoc. reflexivity.
Qed.

Lemma bound_step (done : list string) (result : gmap string nat) (h h' : heap Obj)
    (power : string) (newArrays : list (list nat)) :
  inv done (result, h) -> bound (length done) (result, h) ->
  arrays h' = arrays h ++ newArrays ->
  newArrays !! before power
  = Some (copiesAt h0 entries (length done)
          ++ subscriptionsOf h0 subscriptionData power) ->
  bound (S (length done))
    (setProperty result power (length (arrays h) + before power), h').
Proof.
  intros ((oext & Eo & Lo) & (aext & Ea & La) & _ & _ & Hres & _) Hb Ha Hnew.
  cbn [fst snd] in *.
  assert (Hold : forall k a, result !! k = Some a ->
            exists i, i < S (length done)
              /\ readArray h' a
                 = copiesAt h0 entries i ++ subscriptionsOf h0 subscriptionData k).
  { intros k a Hk. destruct (Hb k a Hk) as (i & Hi & Hr). exists i. split; [lia|].
    rewrite <- Hr. destruct (Hres k a Hk) as (j & Hj & ->).
    unfold readArray. rewrite Ha.
    rewrite lookup_app_l; [reflexivity|]. rewrite Ea, length_app.
    pose proof (emittedAt_bound h0 before done j Hj). lia. }
  intros k a Hk. cbn [fst snd] in *. unfold setProperty in Hk.
  destruct (String.eqb power "__proto__"); [now apply Hold|].
  destruct (decide (power = k)) as [<-|Hne].
  - rewrite lookup_insert_eq in Hk. injection Hk as <-.
    exists (length done). split; [lia|].
    unfold readArray. rewrite Ha, lookup_app_r by lia.
    replace (length (arrays h) + before power - length (arrays h))
      with (before power) by lia.
    now rewrite Hnew.
  - rewrite lookup_insert_ne in Hk by exact Hne. now apply Hold.
Qed.

Lemma catalog_step_bound (done : list string) (st : gmap string nat * heap Obj)
    (power : string) :
  inv done st -> bound (length done) st ->
  bound (length (done ++ [power]))
    (Catalog.forEachPower emptyObject contractData subscriptionData st power).
Proof.
  destruct st as [result h]. intros Hinv Hb.
  destruct (forEachPower_arrays done result h power Hinv)
    as (newArrays & -> & _ & Hnew).
  rewrite length_app. cbn [length]. rewrite Nat.add_1_r.
  eapply bound_step; [exact Hinv|exact Hb|reflexivity|exact Hnew].
Qed.

Lemma catalog_fold_bound (keys : list string) :
  forall done st, inv done st -> bound (length done) st ->
    bound (length (done ++ keys))
      (fold_left (Catalog.forEachPower emptyObject contractData subscriptionData) keys st).
Proof.
  induction keys as [|k keys IH]; intros done st Hinv Hb; cbn [fold_left].
  - now rewrite app_nil_r.
  - replace (done ++ k :: keys) with ((done ++ [k]) ++ keys)
      by now rewrite <- app_assoc.
    apply IH.
    + now apply (catalog_step emptyObject h0 contractData subscriptionData Hparsed).
    + now apply catalog_step_bound.
Qed.

Lemma catalog_bound :
  bound (length subscriptionData)
    (Catalog.processBaseOptions emptyObject h0 contractData subscriptionData).
Proof.
  unfold Catalog.processBaseOptions.
  rewrite <- (length_map fst subscriptionData).
  apply (catalog_fold_bound (map fst subscriptionData) []).
  - apply stepInvariant_start.
  - intros k a Hk. cbn [fst] in Hk. rewrite lookup_empty in Hk. discriminate Hk.
Qed.

(** Two arrays for a power level with an array in the table, three for
    one whose value is [null]. *)
Lemma allocated_arraysBefore (keys : list string) :
  allocated before keys
  = 2 * length keys
    + length (List.filter
                (fun power => match Catalog.property subscriptionData power with
                              | Some _ => false
                              | None => true
                              end) keys).
Proof.
  unfold allocated, arraysBefore.
  induction keys as [|k keys IH]; [reflexivity|].
  simpl in *.
  destruct (Catalog.property subscriptionData k); simpl; lia.
Qed.

End CatalogContent.

(** What the converter with a subscription table binds to a power level
    is a new array, one the parsed documents do not have, that holds
    new copies of the catalog entries, as many as the catalog has, and
    then the very objects of the table for that power level, not
    copies of them: records of the subscription table are shared
    between the parsed table and the list. A power level whose value
    in the table is [null] gets the copies only. The records of the
    list read as those of the catalog followed by those of the
    table. *)
Theorem catalog_list_content {Obj : Type} (emptyObject : Obj) (h0 : heap Obj)
    (contractData : nat) (subscriptionData : list (string * option nat))
    (result : gmap string nat) (h : heap Obj) (power : string) (a : nat) :
  parsed h0 contractData subscriptionData ->
  Catalog.processBaseOptions emptyObject h0 contractData subscriptionData = (result, h) ->
  result !! power = Some a ->
  let n := length (readArray h0 contractData) in
  length (arrays h0) <= a < length (arrays h)
  /\ records emptyObject h a
     = records emptyObject h0 contractData
       ++ map (readObject emptyObject h0) (subscriptionsOf h0 subscriptionData power)
  /\ drop n (readArray h a) = subscriptionsOf h0 subscriptionData power
  /\ Forall (fun l => l < length (objects h0))
            (subscriptionsOf h0 subscriptionData power)
  /\ length (take n (readArray h a)) = n
  /\ Forall (fun l => length (objects h0) <= l) (take n (readArray h a)).
Proof.
  intros Hparsed Hrun Hk n.
  pose proof (catalog_invariant emptyObject h0 contractData subscriptionData Hparsed)
    as Hinv.
  pose proof (catalog_bound emptyObject h0 contractData subscriptionData Hparsed)
    as Hb.
  rewrite Hrun in Hinv, Hb.
  destruct (Hb power a Hk) as (i & Hi & Hread). cbn [snd] in Hread.
  destruct Hinv as ((oext & Eo & _) & (aext & Ea & La) & _ & Hcopy & Hres & _).
  cbn [fst snd] in *.
  assert (Hsubs : Forall (fun l => l < length (objects h0))
                    (subscriptionsOf h0 subscriptionData power)).
  { unfold subscriptionsOf. destruct (Catalog.property subscriptionData power);
      [|constructor].
    eapply closed_readArray, Hparsed. }
  assert (Hlen : length (copiesAt h0 (readArray h0 contractData) i) = n).
  { unfold copiesAt. now rewrite length_seq. }
  assert (Htake : take n (readArray h a) = copiesAt h0 (readArray h0 contractData) i).
  { rewrite Hread, take_app_le by lia. apply take_ge. lia. }
  split; [|split; [|split; [|split; [exact Hsubs|split]]]].
  - destruct (Hres power a Hk) as (j & Hj & ->).
    pose proof (emittedAt_bound h0 (arraysBefore subscriptionData) _ j Hj) as Hlt.
    rewrite Ea, length_app, La. split; [unfold emittedAt; lia|exact Hlt].
  - unfold records at 1. rewrite Hread, map_app. f_equal.
    + apply Hcopy. rewrite length_map. exact Hi.
    + now apply (map_readObject_extended emptyObject h0 h oext).
  - rewrite Hread, drop_app_length'; [reflexivity|now rewrite Hlen].
  - now rewrite Htake.
  - rewrite Htake, Forall_forall. intros l Hl. apply list_elem_of_In in Hl.
    unfold copiesAt in Hl. apply in_seq in Hl. lia.
Qed.

Lemma parsedStore_parsed_with_null : parsed parsedStore 0 subscriptionsWithNull.
Proof.
  unfold parsed, closed, parsedStore, subscriptionsWithNull. cbn.
  repeat split; repeat constructor; cbn; lia.
Qed.

Lemma catalog_list_content_witness :
  exists result h,
    Catalog.processBaseOptions catalogEntry parsedStore 0 subscriptionsWithNull
    = (result, h)
    /\ result !! "6" = Some 4 /\ result !! "9" = Some 7
    /\ length (arrays parsedStore) = 3 /\ length (arrays h) = 8
    /\ records catalogEntry h 4 = [catalogEntry; subscriptionEntry 100000]
    /\ drop 1 (readArray h 4) = [1]
    /\ records catalogEntry h 7 = [catalogEntry]
    /\ drop 1 (readArray h 7) = [].
Proof.
  destruct (Catalog.processBaseOptions catalogEntry parsedStore 0 subscriptionsWithNull)
    as [result h] eqn:E.
  exists result, h.
  assert (H6 : result !! "6" = Some 4).
  { apply (f_equal fst) in E. cbn [fst] in E. rewrite <- E. vm_compute. reflexivity. }
  assert (H9 : result !! "9" = Some 7).
  { apply (f_equal fst) in E. cbn [fst] in E. rewrite <- E. vm_compute. reflexivity. }
  assert (Hh : length (arrays h) = 8).
  { apply (f_equal snd) in E. cbn [snd] in E. rewrite <- E. vm_compute. reflexivity. }
  split; [reflexivity|]. split; [exact H6|]. split; [exact H9|].
  split; [reflexivity|]. split; [exact Hh|].
  destruct (catalog_list_content catalogEntry parsedStore 0 subscriptionsWithNull
              result h "6" 4 parsedStore_parsed_with_null E H6) as (_ & Hrec & Hdrop & _).
  destruct (catalog_list_content catalogEntry parsedStore 0 subscriptionsWithNull
              result h "9" 7 parsedStore_parsed_with_null E H9)
    as (_ & Hrec' & Hdrop' & _).
  split; [exact Hrec|]. split; [exact Hdrop|]. split; [exact Hrec'|exact Hdrop'].
Defined.

Lemma stepInvariant_inputs {Obj : Type} (emptyObject : Obj) (h0 : heap Obj)
    (contractData : nat) (subscriptionData : list (string * option nat))
    (before : string -> nat) (extra : list nat -> Prop) (done : list string)
    (result : gmap string nat) (h : heap Obj) :
  parsed h0 contractData subscriptionData ->
  stepInvariant emptyObject h0 (readArray h0 contractData) before extra done
    (result, h) ->
  length (objects h)
  = length (objects h0) + length done * length (readArray h0 contractData)
  /\ length (arrays h) = length (arrays h0) + allocated before done
  /\ (forall l, l < length (objects h0) -> objects h !! l = objects h0 !! l)
  /\ (forall a, a < length (arrays h0) ->
        arrays h !! a = arrays h0 !! a
        /\ records emptyObject h a = records emptyObject h0 a).
Proof.
  intros Hparsed ((oext & Eo & Lo) & (aext & Ea & La) & _). cbn [fst snd] in *.
  split; [rewrite Eo, length_app; lia|]. split; [rewrite Ea, length_app; lia|].
  split.
  - intros l Hl. rewrite Eo. now apply lookup_app_l.
  - intros a Ha. split; [rewrite Ea; now apply lookup_app_l|].
    unfold records.
    rewrite (readArray_extended h0 h aext a Ea Ha).
    apply (map_readObject_extended emptyObject h0 h oext _ Eo).
    eapply closed_readArray, Hparsed.
Qed.

(** The static-catalog converters leave the parsed documents as they
    were: every object and every array of the store they start from is
    still there with the same content. What they add is one object for
    each catalog entry and each power level in turn, and, a power
    level, one array with the fixed list and two with the subscription
    table: the consumption prices and the list itself; a power level
    whose value in the table is [null] takes a third one, the empty
    array of [subscriptionData[power] || []]. *)
Theorem catalog_converters_keep_inputs {Obj : Type} (emptyObject : Obj)
    (h0 : heap Obj) (contractData : nat)
    (subscriptionData : list (string * option nat)) :
  parsed h0 contractData subscriptionData ->
  let kept (h : heap Obj) :=
    (forall l, l < length (objects h0) -> objects h !! l = objects h0 !! l)
    /\ (forall a, a < length (arrays h0) ->
          arrays h !! a = arrays h0 !! a
          /\ records emptyObject h a = records emptyObject h0 a) in
  let entries := length (readArray h0 contractData) in
  (forall result h,
     Catalog.processBaseOptions emptyObject h0 contractData subscriptionData
     = (result, h) ->
     kept h
     /\ length (objects h) = length (objects h0) + length subscriptionData * entries
     /\ length (arrays h)
        = length (arrays h0) + 2 * length subscriptionData
          + length (nullPowers subscriptionData))
  /\ (forall result h,
        FixedCatalog.processBaseOptions emptyObject h0 contractData = (result, h) ->
        kept h
        /\ length (objects h) = length (objects h0) + 34 * entries
        /\ length (arrays h) = length (arrays h0) + 34).
Proof.
  intros Hparsed kept entries. split; intros result h Hrun.
  - pose proof (catalog_invariant emptyObject h0 contractData subscriptionData Hparsed)
      as Hinv.
    rewrite Hrun in Hinv.
    destruct (stepInvariant_inputs _ _ _ _ _ _ _ _ _ Hparsed Hinv)
      as (Ho & Ha & Hko & Hka).
    rewrite allocated_arraysBefore in Ha.
    rewrite length_map in Ho, Ha. split; [split; assumption|].
    split; [exact Ho|]. unfold nullPowers. lia.
  - pose proof (fixed_invariant emptyObject h0 contractData
                  (parsed_without_table _ _ _ Hparsed)) as Hinv.
    rewrite Hrun in Hinv.
    destruct (stepInvariant_inputs _ _ _ _ _ _ _ _ _
                (parsed_without_table _ _ _ Hparsed) Hinv) as (Ho & Ha & Hko & Hka).
    change (length FixedCatalog.subscribedPowers) with 34 in Ho.
    change (allocated (fun _ => 0) FixedCatalog.subscribedPowers) with 34 in Ha.
    split; [split; assumption|]. split; [exact Ho|exact Ha].
Qed.

Lemma catalog_converters_keep_inputs_witness :
  exists result h,
    Catalog.processBaseOptions catalogEntry parsedStore 0 subscriptionsWithNull
    = (result, h)
    /\ nullPowers subscriptionsWithNull = ["9"]
    /\ length (objects h) = 5 /\ length (arrays h) = 8
    /\ records catalogEntry h 1 = [subscriptionEntry 100000].
Proof.
  destruct (Catalog.processBaseOptions catalogEntry parsedStore 0 subscriptionsWithNull)
    as [result h] eqn:E.
  exists result, h. split; [reflexivity|]. split; [reflexivity|].
  destruct (catalog_converters_keep_inputs catalogEntry parsedStore 0
              subscriptionsWithNull parsedStore_parsed_with_null) as [H _].
  destruct (H result h E) as ((_ & Hka) & Ho & Ha).
  split; [exact Ho|]. split; [exact Ha|].
  destruct (Hka 1) as [_ Hr]; [cbn; lia|]. exact Hr.
Defined.

(* ===================================================================== *)
(** * Further properties: decimal cells *)
(* ===================================================================== *)

Lemma allFrom_spec (count : nat) (P : Z -> bool) :
  forall n, allFrom count n P = true ->
  forall k, (n <= k < n + Z.of_nat count)%Z -> P k = true.
Proof.
  induction count as [|count IH]; intros n H k Hk; [lia|].
  cbn [allFrom] in H. apply andb_true_iff in H. destruct H as [Hn H].
  destruct (Z.eq_dec k n) as [->|Hne]; [exact Hn|].
  apply (IH (n + 1)%Z H). lia.
Qed.

Lemma sameNumber_eq (x y : number) : sameNumber x y = true -> x = y.
Proof.
  destruct x as [s|s| |s m e], y as [s'|s'| |s' m' e']; cbn; try discriminate.
  - intros H. apply Bool.eqb_prop in H. now subst.
  - intros H. apply Bool.eqb_prop in H. now subst.
  - reflexivity.
  - intros H. apply andb_true_iff in H. destruct H as [H He].
    apply andb_true_iff in H. destruct H as [Hs Hm].
    apply Bool.eqb_prop in Hs. apply Pos.eqb_eq in Hm. apply Z.eqb_eq in He.
    now subst.
Qed.

Example decimal_cells :
  priceString 1234 = "0,1234" /\ priceString 73240 = "7,3240"
  /\ feeString 15360 = "153,60" /\ feeString 5 = "0,05".
Proof. repeat split; vm_compute; reflexivity. Qed.

Lemma scaledPrice_exhaustive :
  allFrom (Z.to_nat 10000) 0
    (fun n => sameNumber (scaledPrice (priceString n)) (num n)) = true.
Proof. vm_cast_no_check (eq_refl true). Qed.

Lemma monthlyPrice_exhaustive :
  allFrom (Z.to_nat 10000) 10000
    (fun c => sameNumber (monthlyPrice (feeString c)) (num ((25 * c + 1) / 3))) = true.
Proof. vm_cast_no_check (eq_refl true). Qed.

(** A price below one euro written with four decimals is scaled to
    its number of ten-thousandths exactly: reading it in binary64 and
    multiplying by 10000 loses nothing that [Math.round] does not give
    back. *)
Theorem four_decimal_price_is_exact (n : Z) :
  (0 <= n < 10000)%Z -> scaledPrice (priceString n) = num n.
Proof.
  intros Hn. apply sameNumber_eq.
  apply (allFrom_spec _ _ _ scaledPrice_exhaustive n). lia.
Qed.

Lemma four_decimal_price_is_exact_witness : scaledPrice "0,7324" = num 7324.
Proof. apply (four_decimal_price_is_exact 7324). lia. Defined.

(** An annual fee from 100,00 to 199,99 euro written with two decimals
    gives the monthly price that is the integer nearest to the twelfth
    of the fee in ten-thousandths of a euro; no fee of that form is a
    tie. *)
Theorem monthly_fee_is_nearest (c : Z) :
  (10000 <= c < 20000)%Z ->
  exists k, monthlyPrice (feeString c) = num k
            /\ nearestTiesUp (100 * c) 12 k
            /\ (2 * (100 * c) <> (2 * k - 1) * 12)%Z.
Proof.
  intros Hc. exists ((25 * c + 1) / 3)%Z. split; [|split].
  - apply sameNumber_eq. apply (allFrom_spec _ _ _ monthlyPrice_exhaustive c). lia.
  - unfold nearestTiesUp.
    pose proof (Z.div_mod (25 * c + 1) 3 ltac:(lia)) as Hdm.
    pose proof (Z.mod_pos_bound (25 * c + 1) 3 ltac:(lia)) as Hb. lia.
  - lia.
Qed.

Lemma monthly_fee_is_nearest_witness :
  exists k, monthlyPrice "153,60" = num k
            /\ nearestTiesUp 1536000 12 k
            /\ (2 * 1536000 <> (2 * k - 1) * 12)%Z.
Proof. apply (monthly_fee_is_nearest 15360). lia. Defined.

(* ===================================================================== *)
(** * Further properties: diagnostics of the validator *)
(* ===================================================================== *)

Lemma validatePrices_first_rejected (contractType power : string)
    (before after : list PriceObject) (p : PriceObject) (e : error) :
  forall i,
    (forall q, In q before -> acceptedRecord q) ->
    Validator.validatePriceObject p (recordLabel contractType power (i + length before))
    = Throw e ->
    Validator.validatePrices contractType power i (before ++ p :: after)
    = Throw (Error ("Price validation failed for "
                    +:+ recordLabel contractType power (i + length before)
                    +:+ ": " +:+ Validator.message e)).
Proof.
  induction before as [|q before IH]; intros i Hacc Hp;
    cbn [app Validator.validatePrices length] in *.
  - rewrite Nat.add_0_r in *. fold (recordLabel contractType power i).
    now rewrite Hp.
  - fold (recordLabel contractType power i).
    rewrite (proj2 (proj1 (validatePriceObject_iff q _)) (Hacc q (or_introl eq_refl))).
    replace (i + S (length before)) with (S i + length before) in * by lia.
    apply IH; [|exact Hp]. intros q' Hq'. apply Hacc. now right.
Qed.

(** Step 5 stops at the first record of a power level that the
    per-record check rejects: the error it raises names that record by
    its index in the list and carries the message of the check after
    "Price validation failed for ..."; the records after it and the
    contract-specific rules are not looked at. *)
Theorem validatePower_reports_first_rejected (contractType power : string)
    (before after : list PriceObject) (p : PriceObject) (e : error) :
  (forall q, In q before -> acceptedRecord q) ->
  Validator.validatePriceObject p (recordLabel contractType power (length before))
  = Throw e ->
  Validator.validatePower contractType (power, before ++ p :: after)
  = Throw (Error ("Price validation failed for "
                  +:+ recordLabel contractType power (length before)
                  +:+ ": " +:+ Validator.message e)).
Proof.
  intros Hacc Hp. unfold Validator.validatePower.
  rewrite length_app. cbn [length].
  replace (length before + S (length after) =? 0)%nat with false
    by (symmetry; apply Nat.eqb_neq; lia).
  now rewrite (validatePrices_first_rejected contractType power before after p e 0
                 Hacc Hp).
Qed.

Lemma validatePower_reports_first_rejected_witness :
  Validator.validatePower "edf-tempo"
    ("9", [ validRecord "edf-tempo" "consumption" (num 1056) None (Some "blue");
            validRecord "tempo" "consumption" (num 1369) None (Some "blue");
            validRecord "es-tempo" "subscription" (num 128000) None None ])
  = Throw (Error ("Price validation failed for edf-tempo[9][1]: "
                  +:+ "Invalid contract value in edf-tempo[9][1]: "
                  +:+ "expected one of 'base', 'peak-off-peak', 'edf-tempo', got 'tempo'")).
Proof.
  apply (validatePower_reports_first_rejected "edf-tempo" "9"
           [validRecord "edf-tempo" "consumption" (num 1056) None (Some "blue")]
           [validRecord "es-tempo" "subscription" (num 128000) None None]
           (validRecord "tempo" "consumption" (num 1369) None (Some "blue"))
           (Error ("Invalid contract value in edf-tempo[9][1]: "
                   +:+ "expected one of 'base', 'peak-off-peak', 'edf-tempo', got 'tempo'"))).
  - intros q [<-|[]]. unfold acceptedRecord. cbn. repeat split; auto.
  - vm_compute. reflexivity.
Defined.

(* ===================================================================== *)
(** * Further properties: line ends *)
(* ===================================================================== *)

Lemma trimStart_withCarriageReturns (s : string) :
  trimStart (withCarriageReturns s) = withCarriageReturns (trimStart s).
Proof.
  induction s as [|c s IH]; [reflexivity|]. cbn [withCarriageReturns].
  destruct (Ascii.eqb_spec c "010") as [->|Hc].
  - cbn [trimStart]. change (isWhiteSpace "013") with true.
    change (isWhiteSpace "010") with true. cbn iota. exact IH.
  - cbn [trimStart]. destruct (isWhiteSpace c); [exact IH|].
    cbn [withCarriageReturns]. now rewrite (proj2 (Ascii.eqb_neq c "010") Hc).
Qed.

Lemma withCarriageReturns_cons (c : ascii) (s : string) :
  exists c' s', withCarriageReturns (String c s) = String c' s'.
Proof. cbn. destruct (Ascii.eqb c "010"); eauto. Qed.

Lemma trimEnd_withCarriageReturns (s : string) :
  trimEnd (withCarriageReturns s) = withCarriageReturns (trimEnd s).
Proof.
  induction s as [|c s IH]; [reflexivity|]. cbn [withCarriageReturns].
  destruct (Ascii.eqb_spec c "010") as [->|Hc].
  - cbn [trimEnd]. rewrite IH. change (isWhiteSpace "013") with true.
    change (isWhiteSpace "010") with true.
    destruct (trimEnd s) as [|a t]; [reflexivity|].
    change (withCarriageReturns (String "010" (String a t)))
      with (String "013" (String "010" (withCarriageReturns (String a t)))).
    destruct (withCarriageReturns_cons a t) as (c' & s' & ->). reflexivity.
  - cbn [trimEnd]. rewrite IH.
    destruct (trimEnd s) as [|a t].
    + cbn [withCarriageReturns]. destruct (isWhiteSpace c); [reflexivity|].
      cbn [withCarriageReturns]. now rewrite (proj2 (Ascii.eqb_neq c "010") Hc).
    + assert (E0 : withCarriageReturns (String c (String a t))
                   = String c (withCarriageReturns (String a t))).
      { cbn [withCarriageReturns]. now rewrite (proj2 (Ascii.eqb_neq c "010") Hc). }
      rewrite E0.
      destruct (withCarriageReturns_cons a t) as (c' & s' & ->). reflexivity.
Qed.

Lemma trim_withCarriageReturns (s : string) :
  trim (withCarriageReturns s) = withCarriageReturns (trim s).
Proof.
  unfold trim. now rewrite trimStart_withCarriageReturns, trimEnd_withCarriageReturns.
Qed.

Lemma split_withCarriageReturns (s : string) :
  split "010" (withCarriageReturns s) = endedByCarriageReturn (split "010" s).
Proof.
  induction s as [|c s IH]; [reflexivity|]. cbn [withCarriageReturns].
  pose proof (split_nonempty "010" s) as Hne.
  destruct (Ascii.eqb_spec c "010") as [->|Hc].
  - cbn [split]. change (Ascii.eqb "013" "010") with false.
    change (Ascii.eqb "010" "010") with true. cbn iota. rewrite IH.
    destruct (split "010" s) as [|w ws]; [congruence|]. reflexivity.
  - cbn [split]. rewrite (proj2 (Ascii.eqb_neq c "010") Hc), IH.
    destruct (split "010" s) as [|w [|w' ws]]; [congruence| |]; reflexivity.
Qed.

Lemma trimEnd_carriage_return (s : string) : trimEnd (s +:+ String "013" "") = trimEnd s.
Proof.
  induction s as [|c s IH]; [reflexivity|].
  rewrite append_cons. cbn [trimEnd]. now rewrite IH.
Qed.

Lemma trimStart_carriage_return (s : string) :
  trimStart (s +:+ String "013" "")
  = match trimStart s with
    | EmptyString => EmptyString
    | t => t +:+ String "013" ""
    end.
Proof.
  induction s as [|c s IH]; [reflexivity|].
  rewrite append_cons. cbn [trimStart]. destruct (isWhiteSpace c); [exact IH|].
  now rewrite append_cons.
Qed.

Lemma trim_carriage_return (s : string) : trim (s +:+ String "013" "") = trim s.
Proof.
  unfold trim. rewrite trimStart_carriage_return.
  destruct (trimStart s) as [|a t]; [reflexivity|apply trimEnd_carriage_return].
Qed.

Lemma split_carriage_return (sep : ascii) (s : string) :
  sep <> "013"%char ->
  exists init last,
    split sep s = init ++ [last]
    /\ split sep (s +:+ String "013" "") = init ++ [last +:+ String "013" ""].
Proof.
  intros Hsep. induction s as [|c s (init & last & E & E')].
  - exists [], "". split; [reflexivity|]. rewrite append_nil_l. cbn [split].
    destruct (Ascii.eqb_spec "013" sep) as [E|_]; [|reflexivity].
    symmetry in E. contradiction.
  - rewrite append_cons. cbn [split]. rewrite E, E'.
    destruct (Ascii.eqb c sep).
    + exists ("" :: init), last. split; reflexivity.
    + destruct init as [|w init].
      * exists [], (String c last). split; reflexivity.
      * exists (String c w :: init), last. split; reflexivity.
Qed.

Lemma headers_carriage_return (l : string) :
  map trim (split ";" (l +:+ String "013" "")) = map trim (split ";" l).
Proof.
  destruct (split_carriage_return ";" l ltac:(discriminate)) as (init & last & -> & ->).
  rewrite !map_app. cbn [map]. now rewrite trim_carriage_return.
Qed.

Lemma csvHeaders_endedByCarriageReturn (lines : list string) :
  csvHeaders (endedByCarriageReturn lines) = csvHeaders lines.
Proof.
  destruct lines as [|l [|l' ls]]; [reflexivity|reflexivity|].
  cbn [endedByCarriageReturn csvHeaders]. apply headers_carriage_return.
Qed.

Lemma endedByCarriageReturn_trim (lines : list string) :
  Forall2 (fun a b => trim a = trim b) (endedByCarriageReturn lines) lines.
Proof.
  induction lines as [|l [|l' ls] IH]; [constructor|repeat constructor|].
  change (endedByCarriageReturn (l :: l' :: ls))
    with ((l +:+ String "013" "") :: endedByCarriageReturn (l' :: ls)).
  constructor; [apply trim_carriage_return|exact IH].
Qed.

Lemma forEachM_Forall2 {A S : Type} (body : S -> A -> outcome S) (xs ys : list A) :
  Forall2 (fun a b => forall s, body s a = body s b) xs ys ->
  forall s, forEachM body xs s = forEachM body ys s.
Proof.
  induction 1 as [|a b xs ys Hab _ IH]; intros s; cbn [forEachM]; [reflexivity|].
  rewrite Hab. destruct (body s b); cbn [bind]; [apply IH|reflexivity].
Qed.

Lemma Forall2_tl {A B : Type} (R : A -> B -> Prop) (xs : list A) (ys : list B) :
  Forall2 R xs ys -> Forall2 R (tl xs) (tl ys).
Proof. destruct 1; [constructor|assumption]. Qed.

Lemma loop_endedByCarriageReturn {S : Type} (body : S -> string -> outcome S)
    (lines : list string) (s : S) :
  (forall a b s, trim a = trim b -> body s a = body s b) ->
  forEachM body (tl (endedByCarriageReturn lines)) s = forEachM body (tl lines) s.
Proof.
  intros Hbody. apply forEachM_Forall2.
  eapply Forall2_impl; [apply Forall2_tl, endedByCarriageReturn_trim|].
  intros a b Hab s'. now apply Hbody.
Qed.

Lemma csvLines_withCarriageReturns (csvContent : string) :
  csvLines (withCarriageReturns csvContent) = endedByCarriageReturn (csvLines csvContent).
Proof.
  unfold csvLines. now rewrite trim_withCarriageReturns, split_withCarriageReturns.
Qed.

(** A file with CR LF line ends converts as the same file with LF line
    ends: to the same object, or to the same error. *)
Theorem carriage_returns_are_ignored (csvContent : string) :
  FlatRate.processBaseOptions (withCarriageReturns csvContent)
  = FlatRate.processBaseOptions csvContent
  /\ DualRate.processPeakOffPeakOptions (withCarriageReturns csvContent)
     = DualRate.processPeakOffPeakOptions csvContent
  /\ Tempo.processTempoOptions (withCarriageReturns csvContent)
     = Tempo.processTempoOptions csvContent.
Proof.
  split; [|split].
  - unfold FlatRate.processBaseOptions.
    rewrite csvLines_withCarriageReturns, csvHeaders_endedByCarriageReturn.
    destruct (FlatRate.missingColumn _); [reflexivity|].
    apply loop_endedByCarriageReturn. intros a b s H.
    unfold FlatRate.processLine. now rewrite H.
  - unfold DualRate.processPeakOffPeakOptions.
    rewrite csvLines_withCarriageReturns, csvHeaders_endedByCarriageReturn.
    destruct (DualRate.missingColumn _); [reflexivity|].
    apply loop_endedByCarriageReturn. intros a b s H.
    unfold DualRate.processLine. now rewrite H.
  - unfold Tempo.processTempoOptions.
    rewrite csvLines_withCarriageReturns, csvHeaders_endedByCarriageReturn.
    destruct (Tempo.missingColumn _); [reflexivity|].
    apply loop_endedByCarriageReturn. intros a b s H.
    unfold Tempo.processLine. now rewrite H.
Qed.

(* ===================================================================== *)
(** * Further properties: from a well-formed file to a valid document *)
(* ===================================================================== *)

Lemma leb64_ltb64 (x y : number) : leb64 x y = false -> ltb64 x y = false.
Proof.
  unfold leb64, ltb64, SFleb, SFltb.
  destruct (SFcompare x y) as [[]|]; congruence.
Qed.

Lemma wellFormedDateCell_separator (d : option string) :
  wellFormedDateCell d -> truthy d = true /\ hasSeparator (str d).
Proof.
  intros (s & day & month & year & rest & -> & E & _). cbn [str]. split.
  - destruct s; [discriminate E|reflexivity].
  - destruct (hasSeparator_dec s) as [H|H]; [exact H|].
    rewrite (split_without_separator _ _ H) in E. discriminate E.
Qed.

Lemma wellFormedDateCell_converted (d iso : option string) :
  wellFormedDateCell d -> convertToIsoDate d = Return iso ->
  Validator.dateRegex_test (Validator.show iso) = true.
Proof.
  intros Hd Hiso. destruct (wellFormedDateCell_separator _ Hd) as [Ht _].
  destruct (convertToIsoDate_truthy _ _ Ht Hiso) as [i ->].
  destruct Hd as (s & day & month & year & rest & -> & E & Hday & Hmonth & Hyear).
  cbn [Validator.show]. apply (converted_date_iff s i Hiso).
  exists day, month, year, rest. auto.
Qed.

Lemma wellFormedEndCell_converted (d iso : option string) :
  wellFormedEndCell d -> convertEndDate d = Return iso ->
  truthy iso = false \/ Validator.dateRegex_test (Validator.show iso) = true.
Proof.
  unfold convertEndDate. intros [Hd|Hd].
  - rewrite Hd. intros H. injection H as <-. now left.
  - destruct (wellFormedDateCell_separator _ Hd) as [-> _]. intros H. right.
    now apply (wellFormedDateCell_converted d).
Qed.

Lemma wellFormed_convertible (power startDate endDate : option string) :
  inherited (str power) = false ->
  wellFormedDateCell startDate -> wellFormedEndCell endDate ->
  convertible power startDate endDate.
Proof.
  intros Hk Hs He. split; [exact Hk|]. split.
  - intros _. now apply wellFormedDateCell_separator.
  - intros Ht. destruct He as [He|He]; [congruence|].
    now apply wellFormedDateCell_separator.
Qed.

Lemma nonNegativeNumber_not_below_zero (x : number) :
  nonNegativeNumber x -> ltb64 x (num 0) = false.
Proof. destruct x as [[]|[]| |[] m e]; cbn; intros H; try contradiction; reflexivity. Qed.

Lemma positiveNumber_above_zero (x : number) :
  positiveNumber x -> leb64 x (num 0) = false.
Proof. destruct x as [[]|[]| |[] m e]; cbn; intros H; try contradiction; reflexivity. Qed.

Lemma consumption_valid (r : PriceObject) (v : option string) :
  price_type r = "consumption" -> validDates r ->
  priceCell v -> price r = scaledPrice (str v) ->
  validDatesAndPrice r.
Proof.
  intros Hty Hd Hv Hp. split; [exact Hd|]. split.
  - rewrite Hp. now apply nonNegativeNumber_not_below_zero.
  - rewrite Hty. discriminate.
Qed.

Lemma subscription_valid (r : PriceObject) (v : option string) :
  validDates r -> feeCell v -> price r = monthlyPrice (str v) ->
  validDatesAndPrice r.
Proof.
  intros Hd Hv Hp.
  assert (Hle : leb64 (price r) (num 0) = false).
  { rewrite Hp. now apply positiveNumber_above_zero. }
  split; [exact Hd|]. split; [now apply leb64_ltb64|]. intros _. exact Hle.
Qed.

Lemma validList_app (arr records : list PriceObject) :
  arr = [] \/ validList arr -> validList records -> validList (arr ++ records).
Proof.
  intros Harr Hrec r Hr. apply in_app_or in Hr. destruct Hr as [Hr|Hr]; [|now apply Hrec].
  destruct Harr as [->|Harr]; [contradiction|now apply Harr].
Qed.

Lemma forEachM_invariant_Forall {A S : Type} (P : S -> Prop) (ok : A -> Prop)
    (body : S -> A -> outcome S) :
  (forall s x s', ok x -> P s -> body s x = Return s' -> P s') ->
  forall xs s s', Forall ok xs -> P s -> forEachM body xs s = Return s' -> P s'.
Proof.
  intros Hbody xs. induction xs as [|x xs IH]; cbn [forEachM]; intros s s' Hok Hs Hrun.
  - now injection Hrun as <-.
  - inversion Hok as [|? ? Hx Hxs]; subst.
    destruct (body s x) as [s1|e] eqn:E; cbn [bind] in Hrun; [|discriminate].
    eapply IH; [exact Hxs| |exact Hrun]. eapply Hbody; eauto.
Qed.

Lemma flatRate_loop_valid ix lines result :
  Forall (flatRateWellFormed ix) lines ->
  forEachM (FlatRate.processLine ix) lines ∅ = Return result ->
  allLists validList result.
Proof.
  intros Hall. apply (forEachM_invariant_Forall _ (flatRateWellFormed ix));
    [|exact Hall|apply allLists_empty].
  intros s line s' Hwf Hs. destruct (complete (flatRateValues ix line)) eqn:E.
  - destruct (Hwf E) as (_ & Hstart & Hend & Hprice & Hfee).
    rewrite (flatRate_processLine_complete _ _ _ E).
    apply appendRow_allLists; [|exact Hs]. intros arr sd ed Harr Hsd Hed.
    apply validList_app; [exact Harr|].
    assert (Hdates : forall r, start_date r = sd -> end_date r = ed -> validDates r).
    { intros r Hrs Hre. split.
      - rewrite Hrs. now apply (wellFormedDateCell_converted _ _ Hstart).
      - rewrite Hre. now apply (wellFormedEndCell_converted _ _ Hend). }
    intros r [<-|[<-|[]]].
    + eapply consumption_valid; [reflexivity|now apply Hdates|exact Hprice|reflexivity].
    + eapply subscription_valid; [now apply Hdates|exact Hfee|reflexivity].
  - rewrite (flatRate_processLine_incomplete _ _ _ E). intros H. now injection H as <-.
Qed.

Lemma dualRate_loop_valid ix lines result :
  Forall (dualRateWellFormed ix) lines ->
  forEachM (DualRate.processLine ix) lines ∅ = Return result ->
  allLists validList result.
Proof.
  intros Hall. apply (forEachM_invariant_Forall _ (dualRateWellFormed ix));
    [|exact Hall|apply allLists_empty].
  intros s line s' Hwf Hs. destruct (complete (dualRateValues ix line)) eqn:E.
  - destruct (Hwf E) as (_ & Hstart & Hend & Hhc & Hhp & Hfee).
    rewrite (dualRate_processLine_complete _ _ _ E).
    apply appendRow_allLists; [|exact Hs]. intros arr sd ed Harr Hsd Hed.
    apply validList_app; [exact Harr|].
    assert (Hdates : forall r, start_date r = sd -> end_date r = ed -> validDates r).
    { intros r Hrs Hre. split.
      - rewrite Hrs. now apply (wellFormedDateCell_converted _ _ Hstart).
      - rewrite Hre. now apply (wellFormedEndCell_converted _ _ Hend). }
    intros r [<-|[<-|[<-|[]]]].
    + eapply consumption_valid; [reflexivity|now apply Hdates|exact Hhc|reflexivity].
    + eapply consumption_valid; [reflexivity|now apply Hdates|exact Hhp|reflexivity].
    + eapply subscription_valid; [now apply Hdates|exact Hfee|reflexivity].
  - rewrite (dualRate_processLine_incomplete _ _ _ E). intros H. now injection H as <-.
Qed.

(** A flat-rate or dual-rate file whose columns are all there and
    whose complete rows are well formed (a power level that names no
    property of [Object.prototype], a start date [d/m/yyyy], an end
    date that is empty or [d/m/yyyy], price cells that scale to finite
    numbers that are not negative, a fee cell that gives a finite
    monthly price above zero) converts, and every power level of what
    the converter returns, handed as it is to step 5 and to step 7 of
    the validator as "edf-base" or "edf-peak-off-peak", passes both. *)
Theorem well_formed_file_converts_and_validates (csvContent : string) :
  let lines := csvLines csvContent in
  (FlatRate.missingColumn (FlatRate.findIndices (csvHeaders lines)) = false ->
   Forall (flatRateWellFormed (FlatRate.findIndices (csvHeaders lines))) (tl lines) ->
   exists result,
     FlatRate.processBaseOptions csvContent = Return result
     /\ forall power prices, result !! power = Some prices ->
          Validator.validatePower "edf-base" (power, prices) = Return tt
          /\ Validator.checkCoverage "edf-base" (power, prices) = Return tt)
  /\ (DualRate.missingColumn (DualRate.findIndices (csvHeaders lines)) = false ->
      Forall (dualRateWellFormed (DualRate.findIndices (csvHeaders lines))) (tl lines) ->
      exists result,
        DualRate.processPeakOffPeakOptions csvContent = Return result
        /\ forall power prices, result !! power = Some prices ->
             Validator.validatePower "edf-peak-off-peak" (power, prices) = Return tt
             /\ Validator.checkCoverage "edf-peak-off-peak" (power, prices)
                = Return tt).
Proof.
  intros lines. split; intros Hcols Hwf.
  - assert (Hrun : exists result,
               forEachM (FlatRate.processLine (FlatRate.findIndices (csvHeaders lines)))
                 (tl lines) ∅ = Return result).
    { apply flatRate_loop_returns_iff. eapply Forall_impl; [exact Hwf|].
      intros line Hline Hc. destruct (Hline Hc) as (Hk & Hs & He & _).
      now apply wellFormed_convertible. }
    destruct Hrun as [result Hrun].
    assert (Hconv : FlatRate.processBaseOptions csvContent = Return result).
    { unfold FlatRate.processBaseOptions. fold lines. now rewrite Hcols. }
    exists result. split; [exact Hconv|]. intros power prices Hp. split.
    + apply flatRate_validity.
      * exact (flatRate_blocks _ _ Hconv _ _ Hp).
      * exact (flatRate_loop_valid _ _ _ Hwf Hrun _ _ Hp).
    + apply covered_checkCoverage.
      exact (converters_covered csvContent result (or_introl Hconv) _ _ Hp).
  - assert (Hrun : exists result,
               forEachM (DualRate.processLine (DualRate.findIndices (csvHeaders lines)))
                 (tl lines) ∅ = Return result).
    { apply dualRate_loop_returns_iff. eapply Forall_impl; [exact Hwf|].
      intros line Hline Hc. destruct (Hline Hc) as (Hk & Hs & He & _).
      now apply wellFormed_convertible. }
    destruct Hrun as [result Hrun].
    assert (Hconv : DualRate.processPeakOffPeakOptions csvContent = Return result).
    { unfold DualRate.processPeakOffPeakOptions. fold lines. now rewrite Hcols. }
    exists result. split; [exact Hconv|]. intros power prices Hp. split.
    + apply dualRate_validity.
      * exact (dualRate_blocks _ _ Hconv _ _ Hp).
      * exact (dualRate_loop_valid _ _ _ Hwf Hrun _ _ Hp).
    + apply covered_checkCoverage.
      exact (converters_covered csvContent result (or_intror (or_introl Hconv)) _ _ Hp).
Qed.

Lemma well_formed_file_converts_and_validates_witness :
  exists result,
    FlatRate.processBaseOptions flatRateFile = Return result
    /\ forall power prices, result !! power = Some prices ->
         Validator.validatePower "edf-base" (power, prices) = Return tt
         /\ Validator.checkCoverage "edf-base" (power, prices) = Return tt.
Proof.
  apply (proj1 (well_formed_file_converts_and_validates flatRateFile)).
  - vm_compute. reflexivity.
  - assert (Hdate : forall d m y : string,
              upToTwoDigits d -> upToTwoDigits m -> digits 4 y ->
              split "/" (d +:+ "/" +:+ m +:+ "/" +:+ y) = [d; m; y] ->
              wellFormedDateCell (Some (d +:+ "/" +:+ m +:+ "/" +:+ y))).
    { intros d m y Hd Hm Hy E. exists (d +:+ "/" +:+ m +:+ "/" +:+ y), d, m, y, []. auto. }
    assert (H01 : upToTwoDigits "01") by (split; [cbn; lia|reflexivity]).
    assert (H08 : upToTwoDigits "08") by (split; [cbn; lia|reflexivity]).
    assert (H07 : upToTwoDigits "07") by (split; [cbn; lia|reflexivity]).
    assert (H31 : upToTwoDigits "31") by (split; [cbn; lia|reflexivity]).
    assert (H2023 : digits 4 "2023") by (split; reflexivity).
    assert (E : tl (csvLines flatRateFile)
                = [ "01/01/2023;31/07/2023;6;0,1234;120,00";
                    "01/08/2023;;6;0,2276;151,20";
                    "";
                    "01/08/2023;;9;0,2276;189,48";
                    "01/08/2023;;12" ]) by (vm_compute; reflexivity).
    rewrite E.
    assert (Eix : FlatRate.findIndices (csvHeaders (csvLines flatRateFile))
                  = {| FlatRate.dateDebutIndex := 0; FlatRate.dateFinIndex := 1;
                       FlatRate.pSouscriteIndex := 2;
                       FlatRate.partVariableTtcIndex := 3;
                       FlatRate.partFixeTtcIndex := 4 |}) by (vm_compute; reflexivity).
    rewrite Eix.
    repeat (apply List.Forall_cons); [| | | | |apply List.Forall_nil]; intros Hc.
    + split; [reflexivity|]. split; [apply (Hdate "01" "01" "2023"); auto|].
      split; [right; apply (Hdate "31" "07" "2023"); auto|].
      split; vm_compute; exact I.
    + split; [reflexivity|]. split; [apply (Hdate "01" "08" "2023"); auto|].
      split; [left; reflexivity|].
      split; vm_compute; exact I.
    + vm_compute in Hc. discriminate Hc.
    + split; [reflexivity|]. split; [apply (Hdate "01" "08" "2023"); auto|].
      split; [left; reflexivity|].
      split; vm_compute; exact I.
    + vm_compute in Hc. discriminate Hc.
Defined.
